(** * Velocity: order book, matching engine and order manager

    A shallow embedding of [src/market_data.cpp] (class [OrderBook]) and
    [src/order_manager.cpp] (classes [MatchingEngine] and [OrderManager]),
    with the declarations of [market_data.h] and [order_manager.h].

    Conventions of the embedding:
    - [uint32_t] and [uint64_t] values are integers of [Z] kept in range by
      [u32] and [u64], which write the wrap-around out; [int32_t] by [i32].
    - [double] values are rationals of [Q]: only finite values are modelled
      and arithmetic is exact.  Keys of the price maps are compared with the
      order of [Q], never with Leibniz equality.
    - timestamps are left out: nothing in the modelled code reads them.
    - [book_mutex_] is a boolean, [true] while a [std::lock_guard] holds it.
      [std::mutex] is not recursive: locking it again from the thread that
      holds it has no defined behaviour, which is the fault [Relock].
      [engine_mutex_] and [manager_mutex_] are never requested by their own
      holder and are left out.
    - [v[0]] on an empty [std::vector] is the fault [OutOfBounds]; reading
      a field that no statement has assigned is the fault [Indeterminate].
    - a callback is output only: the engine's functions return the list of
      [Execution]s they hand to [execution_callback_]. *)

From Stdlib Require Import ZArith QArith List String Bool Sorted Lia Lqa.
From stdpp Require Import base option list gmap strings.

Local Open Scope Z_scope.

(** ** Machine integers *)

Definition u32 (z : Z) : Z := z mod 2 ^ 32.
Definition u64 (z : Z) : Z := z mod 2 ^ 64.
Definition i32 (z : Z) : Z := (z + 2 ^ 31) mod 2 ^ 32 - 2 ^ 31.

(** ** Comparison of doubles *)

Definition Qltb (x y : Q) : bool :=
  match (x ?= y)%Q with Lt => true | _ => false end.

(** ** Faults *)

Inductive fault : Type := Relock | OutOfBounds | Indeterminate.

Definition result (A : Type) : Type := (fault + A)%type.

Definition ret {A : Type} (a : A) : result A := inr a.

Definition bind {A B : Type} (m : result A) (k : A -> result B) : result B :=
  match m with
  | inl f => inl f
  | inr a => k a
  end.

Notation "x <- m ;; k" := (bind m (fun x => k))
  (at level 100, m at next level, right associativity).

Definition returns {A : Type} (m : result A) : Prop := exists a, m = inr a.

(** ** market_data.h *)

Inductive OrderType : Type := MARKET | LIMIT | STOP | STOP_LIMIT.
Inductive OrderSide : Type := BUY | SELL.
Inductive OrderStatus : Type := PENDING | PARTIAL | FILLED | CANCELLED | REJECTED.

Module Order.
Record t : Type := mk {
  id : Z;
  symbol : string;
  side : OrderSide;
  type : OrderType;
  price : Q;
  quantity : Z;
  filled_quantity : Z;
  status : OrderStatus;
  trader_id : string
}.

Definition with_id (v : Z) (o : t) : t :=
  mk v (symbol o) (side o) (type o) (price o) (quantity o)
     (filled_quantity o) (status o) (trader_id o).

Definition with_price_quantity (p : Q) (q : Z) (o : t) : t :=
  mk (id o) (symbol o) (side o) (type o) p q
     (filled_quantity o) (status o) (trader_id o).
End Order.

Module PriceLevel.
Record t : Type := mk {
  price : Q;
  total_quantity : Z;
  orders : list Order.t
}.

(** [PriceLevel(double p = 0.0)] *)
Definition make (p : Q) : t := mk p 0 [].
End PriceLevel.

(** [std::map<double, PriceLevel, Compare>]: the entries in iteration
    order, [begin()] first. *)
Definition levels : Type := list (Q * PriceLevel.t).

(** [std::greater<double>] for [bids_], [std::less<double>] for [asks_]. *)
Definition greater (a b : Q) : bool := Qltb b a.
Definition less (a b : Q) : bool := Qltb a b.

(** [f] applied to the level that [m[p]] refers to; [operator[]] first
    inserts [PriceLevel()] when no key is equivalent to [p]. *)
Fixpoint subscript (comp : Q -> Q -> bool) (p : Q)
    (f : PriceLevel.t -> PriceLevel.t) (m : levels) : levels :=
  match m with
  | [] => [(p, f (PriceLevel.make 0))]
  | (k, l) :: m' =>
      if comp p k then (p, f (PriceLevel.make 0)) :: m
      else if comp k p then (k, l) :: subscript comp p f m'
      else (k, f l) :: m'
  end.

(** [std::find_if] on the id followed by [erase(it)]: the order found and
    the vector without it. *)
Fixpoint find_erase (order_id : Z) (os : list Order.t)
    : option (Order.t * list Order.t) :=
  match os with
  | [] => None
  | o :: os' =>
      if Order.id o =? order_id then Some (o, os')
      else match find_erase order_id os' with
           | Some (x, rest) => Some (x, o :: rest)
           | None => None
           end
  end.

(** The loop over one side shared by [cancel_order] and [modify_order]:
    at the first level holding the id, subtract the order's quantity, erase
    the order, and erase the level when its vector is empty. *)
Fixpoint remove_resting (order_id : Z) (m : levels)
    : option (Order.t * levels) :=
  match m with
  | [] => None
  | (k, l) :: m' =>
      match find_erase order_id (PriceLevel.orders l) with
      | Some (o, rest) =>
          let l' := PriceLevel.mk (PriceLevel.price l)
                      (u32 (PriceLevel.total_quantity l - Order.quantity o))
                      rest in
          Some (o, match rest with [] => m' | _ :: _ => (k, l') :: m' end)
      | None =>
          match remove_resting order_id m' with
          | Some (o, m'') => Some (o, (k, l) :: m'')
          | None => None
          end
      end
  end.

Record OrderBook : Type := mkBook {
  symbol_ : string;
  bids_ : levels;
  asks_ : levels;
  book_mutex_ : bool;
  last_price_ : Q;
  best_bid_ : Q;
  best_ask_ : Q;
  sequence_number_ : Z
}.

Definition set_bids (v : levels) (b : OrderBook) : OrderBook :=
  mkBook (symbol_ b) v (asks_ b) (book_mutex_ b) (last_price_ b)
         (best_bid_ b) (best_ask_ b) (sequence_number_ b).

Definition set_asks (v : levels) (b : OrderBook) : OrderBook :=
  mkBook (symbol_ b) (bids_ b) v (book_mutex_ b) (last_price_ b)
         (best_bid_ b) (best_ask_ b) (sequence_number_ b).

Definition set_mutex (v : bool) (b : OrderBook) : OrderBook :=
  mkBook (symbol_ b) (bids_ b) (asks_ b) v (last_price_ b)
         (best_bid_ b) (best_ask_ b) (sequence_number_ b).

Definition set_last (v : Q) (b : OrderBook) : OrderBook :=
  mkBook (symbol_ b) (bids_ b) (asks_ b) (book_mutex_ b) v
         (best_bid_ b) (best_ask_ b) (sequence_number_ b).

Definition set_sequence (v : Z) (b : OrderBook) : OrderBook :=
  mkBook (symbol_ b) (bids_ b) (asks_ b) (book_mutex_ b) (last_price_ b)
         (best_bid_ b) (best_ask_ b) v.

(** [OrderBook::OrderBook(const std::string&)]; the default constructor is
    [new_book ""]. *)
Definition new_book (s : string) : OrderBook :=
  mkBook s [] [] false 0 0 0 0.

(** [std::lock_guard<std::mutex> lock(book_mutex_)] and its destructor. *)
Definition lock (b : OrderBook) : result OrderBook :=
  if book_mutex_ b then inl Relock else ret (set_mutex true b).

Definition unlock (b : OrderBook) : OrderBook := set_mutex false b.

Definition first_key (m : levels) : Q :=
  match m with
  | [] => 0%Q
  | (k, _) :: _ => k
  end.

Definition update_best_prices (b : OrderBook) : OrderBook :=
  let bb := first_key (bids_ b) in
  let ba := first_key (asks_ b) in
  mkBook (symbol_ b) (bids_ b) (asks_ b) (book_mutex_ b)
         (if Qltb 0 bb && Qltb 0 ba then ((bb + ba) / 2)%Q else last_price_ b)
         bb ba (sequence_number_ b).

(** The body shared by the two branches of [add_order] and of
    [add_limit_order]: [level.price = p; level.orders.push_back(o);
    level.total_quantity += q]. *)
Definition push_order (p : Q) (q : Z) (o : Order.t) (level : PriceLevel.t)
    : PriceLevel.t :=
  PriceLevel.mk p (u32 (PriceLevel.total_quantity level + q))
                (PriceLevel.orders level ++ [o]).

Definition add_order (order : Order.t) (b : OrderBook) : result OrderBook :=
  b <- lock b ;;
  let seq := u64 (sequence_number_ b + 1) in
  let b := set_sequence seq b in
  let new_order := Order.with_id seq order in
  let push := push_order (Order.price order) (Order.quantity order) new_order in
  let b :=
    match Order.side order with
    | BUY => set_bids (subscript greater (Order.price order) push (bids_ b)) b
    | SELL => set_asks (subscript less (Order.price order) push (asks_ b)) b
    end in
  ret (unlock (update_best_prices b)).

Definition cancel_order (order_id : Z) (b : OrderBook) : result OrderBook :=
  b <- lock b ;;
  match remove_resting order_id (bids_ b) with
  | Some (_, bids') => ret (unlock (update_best_prices (set_bids bids' b)))
  | None =>
      match remove_resting order_id (asks_ b) with
      | Some (_, asks') => ret (unlock (update_best_prices (set_asks asks' b)))
      | None => ret (unlock b)
      end
  end.

(** [add_order(old_order)] is called while the guard taken on entry is
    still alive. *)
Definition modify_order (order_id : Z) (new_price : Q) (new_quantity : Z)
    (b : OrderBook) : result OrderBook :=
  b <- lock b ;;
  match remove_resting order_id (bids_ b) with
  | Some (old_order, bids') =>
      b <- add_order (Order.with_price_quantity new_price new_quantity old_order)
                     (set_bids bids' b) ;;
      ret (unlock b)
  | None =>
      match remove_resting order_id (asks_ b) with
      | Some (old_order, asks') =>
          b <- add_order
                 (Order.with_price_quantity new_price new_quantity old_order)
                 (set_asks asks' b) ;;
          ret (unlock b)
      | None => ret (unlock b)
      end
  end.

Definition get_best_bid (b : OrderBook) : result Q :=
  b <- lock b ;; ret (best_bid_ b).

Definition get_best_ask (b : OrderBook) : result Q :=
  b <- lock b ;; ret (best_ask_ b).

Definition get_last_price (b : OrderBook) : result Q :=
  b <- lock b ;; ret (last_price_ b).

Definition get_bid_levels (depth : Z) (b : OrderBook)
    : result (list PriceLevel.t) :=
  b <- lock b ;; ret (map snd (take (Z.to_nat depth) (bids_ b))).

Definition get_ask_levels (depth : Z) (b : OrderBook)
    : result (list PriceLevel.t) :=
  b <- lock b ;; ret (map snd (take (Z.to_nat depth) (asks_ b))).

Definition set_last_price (p : Q) (b : OrderBook) : result OrderBook :=
  b <- lock b ;; ret (unlock (update_best_prices (set_last p b))).

Definition clear_book (b : OrderBook) : result OrderBook :=
  b <- lock b ;; ret (unlock (update_best_prices (set_asks [] (set_bids [] b)))).

Definition add_limit_order (p : Q) (q : Z) (s : OrderSide) (b : OrderBook)
    : result OrderBook :=
  b <- lock b ;;
  let synthetic := Order.mk 0 (symbol_ b) s LIMIT p q 0 PENDING "SIM" in
  let b :=
    match s with
    | BUY => set_bids (subscript greater p (push_order p q synthetic) (bids_ b)) b
    | SELL => set_asks (subscript less p (push_order p q synthetic) (asks_ b)) b
    end in
  ret (unlock (update_best_prices b)).

(** ** order_manager.h *)

Module Execution.
(** [side] has no initialiser in [Execution()]: [None] is a field that no
    statement has assigned yet. *)
Record t : Type := mk {
  order_id : Z;
  execution_id : Z;
  symbol : string;
  side : option OrderSide;
  price : Q;
  quantity : Z;
  trader_id : string
}.
End Execution.

Module Position.
Record t : Type := mk {
  symbol : string;
  quantity : Z;
  avg_price : Q;
  unrealized_pnl : Q;
  realized_pnl : Q
}.

(** [Position()] *)
Definition make : t := mk "" 0 0 0 0.
End Position.

Module RiskLimits.
Record t : Type := mk {
  max_position_value : Q;
  max_daily_loss : Q;
  max_drawdown : Q;
  max_order_size : Z;
  max_leverage : Q
}.

(** [RiskLimits()] *)
Definition make : t := mk 1000000 50000 (1 # 10) 10000 2.
End RiskLimits.

(** ** MatchingEngine *)

Record MatchingEngine : Type := mkEngine {
  order_books_ : gmap string OrderBook;
  order_queue_ : list Order.t;
  total_orders_processed_ : Z;
  total_executions_ : Z;
  total_volume_ : Q;
  order_id_counter_ : Z;
  execution_id_counter_ : Z
}.

Definition set_books (v : gmap string OrderBook) (e : MatchingEngine)
    : MatchingEngine :=
  mkEngine v (order_queue_ e) (total_orders_processed_ e)
           (total_executions_ e) (total_volume_ e) (order_id_counter_ e)
           (execution_id_counter_ e).

Definition set_queue (v : list Order.t) (e : MatchingEngine) : MatchingEngine :=
  mkEngine (order_books_ e) v (total_orders_processed_ e)
           (total_executions_ e) (total_volume_ e) (order_id_counter_ e)
           (execution_id_counter_ e).

(** [MatchingEngine::MatchingEngine()] *)
Definition new_engine : MatchingEngine := mkEngine ∅ [] 0 0 0 0 0.

(** [order_books_.emplace(symbol, OrderBook(symbol))]: no effect on a key
    that is present. *)
Definition add_symbol (s : string) (e : MatchingEngine) : MatchingEngine :=
  match order_books_ e !! s with
  | Some _ => e
  | None => set_books (<[s := new_book s]> (order_books_ e)) e
  end.

(** [++order_id_counter_] *)
Definition generate_order_id (e : MatchingEngine) : Z * MatchingEngine :=
  let n := u64 (order_id_counter_ e + 1) in
  (n, mkEngine (order_books_ e) (order_queue_ e) (total_orders_processed_ e)
               (total_executions_ e) (total_volume_ e) n
               (execution_id_counter_ e)).

(** [++execution_id_counter_] *)
Definition generate_execution_id (e : MatchingEngine) : Z * MatchingEngine :=
  let n := u64 (execution_id_counter_ e + 1) in
  (n, mkEngine (order_books_ e) (order_queue_ e) (total_orders_processed_ e)
               (total_executions_ e) (total_volume_ e) (order_id_counter_ e) n).

(** [total_executions_++; total_volume_ += execution.price *
    execution.quantity] *)
Definition count_execution (x : Execution.t) (e : MatchingEngine)
    : MatchingEngine :=
  mkEngine (order_books_ e) (order_queue_ e) (total_orders_processed_ e)
           (u64 (total_executions_ e + 1))
           (total_volume_ e + Execution.price x * inject_Z (Execution.quantity x))%Q
           (order_id_counter_ e) (execution_id_counter_ e).

Definition submit_order (order : Order.t) (e : MatchingEngine)
    : Z * MatchingEngine :=
  let '(n, e) := generate_order_id e in
  let new_order := Order.with_id n order in
  let e := set_queue (order_queue_ e ++ [new_order]) e in
  (n, mkEngine (order_books_ e) (order_queue_ e)
               (u64 (total_orders_processed_ e + 1)) (total_executions_ e)
               (total_volume_ e) (order_id_counter_ e)
               (execution_id_counter_ e)).

(** The queue operations of [MatchingEngine], which share their names with
    those of [OrderBook]. *)
Module Engine.
(** The test of both loops over the queue. *)
Definition queued_match (order_id : Z) (trader_id : string) (o : Order.t)
    : bool :=
  (Order.id o =? order_id) && bool_decide (Order.trader_id o = trader_id).

(** The loop of [MatchingEngine::cancel_order]: every queued order goes to
    [temp_queue] except those with the id and the trader id; [found] is
    set when one is met. *)
Fixpoint drain_cancel (order_id : Z) (trader_id : string)
    (queue temp_queue : list Order.t) (found : bool)
    : list Order.t * bool :=
  match queue with
  | [] => (temp_queue, found)
  | order :: queue' =>
      if queued_match order_id trader_id order
      then drain_cancel order_id trader_id queue' temp_queue true
      else drain_cancel order_id trader_id queue' (temp_queue ++ [order]) found
  end.

Definition cancel_order (order_id : Z) (trader_id : string)
    (e : MatchingEngine) : bool * MatchingEngine :=
  let '(temp_queue, found) :=
    drain_cancel order_id trader_id (order_queue_ e) [] false in
  (found, set_queue temp_queue e).

Fixpoint drain_modify (order_id : Z) (new_price : Q) (new_quantity : Z)
    (trader_id : string) (queue temp_queue : list Order.t) (found : bool)
    : list Order.t * bool :=
  match queue with
  | [] => (temp_queue, found)
  | order :: queue' =>
      if queued_match order_id trader_id order
      then drain_modify order_id new_price new_quantity trader_id queue'
             (temp_queue ++ [Order.with_price_quantity new_price new_quantity order])
             true
      else drain_modify order_id new_price new_quantity trader_id queue'
             (temp_queue ++ [order]) found
  end.

Definition modify_order (order_id : Z) (new_price : Q) (new_quantity : Z)
    (trader_id : string) (e : MatchingEngine) : bool * MatchingEngine :=
  let '(temp_queue, found) :=
    drain_modify order_id new_price new_quantity trader_id
                 (order_queue_ e) [] false in
  (found, set_queue temp_queue e).
End Engine.

(** [order_books_[symbol]]: the book the reference denotes, and the map
    after [operator[]], which inserts [OrderBook()] for an absent key. *)
Definition get_order_book (s : string) (e : MatchingEngine)
    : OrderBook * MatchingEngine :=
  match order_books_ e !! s with
  | Some b => (b, e)
  | None => (new_book "", set_books (<[s := new_book ""]> (order_books_ e)) e)
  end.

(** A write through the reference returned by [get_order_book]. *)
Definition put_order_book (s : string) (b : OrderBook) (e : MatchingEngine)
    : MatchingEngine :=
  set_books (<[s := b]> (order_books_ e)) e.

(** [v[0]] *)
Definition front {A : Type} (v : list A) : result A :=
  match v with
  | [] => inl OutOfBounds
  | a :: _ => ret a
  end.

Definition process_market_order (order : Order.t) (e : MatchingEngine)
    : result (MatchingEngine * list Execution.t) :=
  let '(order_book, e) := get_order_book (Order.symbol order) e in
  match Order.side order with
  | BUY =>
      best_ask <- get_best_ask order_book ;;
      if Qltb 0 best_ask then
        ask_levels <- get_ask_levels 1 order_book ;;
        match ask_levels with
        | best_ask_level :: _ =>
            let match_quantity :=
              Z.min (Order.quantity order)
                    (PriceLevel.total_quantity best_ask_level) in
            if 0 <? match_quantity then
              let '(n, e) := generate_execution_id e in
              let execution :=
                Execution.mk (Order.id order) n (Order.symbol order)
                  (Some (Order.side order)) best_ask match_quantity
                  (Order.trader_id order) in
              let e := count_execution execution e in
              order_book <-
                match PriceLevel.orders best_ask_level with
                | o :: _ => cancel_order (Order.id o) order_book
                | [] => ret order_book
                end ;;
              ret (put_order_book (Order.symbol order) order_book e, [execution])
            else ret (e, [])
        | [] => ret (e, [])
        end
      else ret (e, [])
  | SELL =>
      best_bid <- get_best_bid order_book ;;
      if Qltb 0 best_bid then
        bid_levels <- get_bid_levels 1 order_book ;;
        match bid_levels with
        | best_bid_level :: _ =>
            let match_quantity :=
              Z.min (Order.quantity order)
                    (PriceLevel.total_quantity best_bid_level) in
            if 0 <? match_quantity then
              let '(n, e) := generate_execution_id e in
              let execution :=
                Execution.mk (Order.id order) n (Order.symbol order)
                  (Some (Order.side order)) best_bid match_quantity
                  (Order.trader_id order) in
              let e := count_execution execution e in
              order_book <-
                match PriceLevel.orders best_bid_level with
                | o :: _ => cancel_order (Order.id o) order_book
                | [] => ret order_book
                end ;;
              ret (put_order_book (Order.symbol order) order_book e, [execution])
            else ret (e, [])
        | [] => ret (e, [])
        end
      else ret (e, [])
  end.

(** [Execution execution;] followed by the five assignments of
    [match_orders]: [order_id], [side] and [trader_id] keep what the
    constructor left. *)
Definition match_orders (s : string) (e : MatchingEngine)
    : result (MatchingEngine * list Execution.t) :=
  let '(order_book, e) := get_order_book s e in
  best_bid <- get_best_bid order_book ;;
  best_ask <- get_best_ask order_book ;;
  if Qle_bool best_bid 0 || Qle_bool best_ask 0 then ret (e, [])
  else if Qle_bool best_ask best_bid then
    bid_levels <- get_bid_levels 1 order_book ;;
    ask_levels <- get_ask_levels 1 order_book ;;
    match bid_levels, ask_levels with
    | best_bid_level :: _, best_ask_level :: _ =>
        let match_quantity :=
          Z.min (PriceLevel.total_quantity best_bid_level)
                (PriceLevel.total_quantity best_ask_level) in
        let match_price := ((best_bid + best_ask) / 2)%Q in
        if 0 <? match_quantity then
          let '(n, e) := generate_execution_id e in
          let execution :=
            Execution.mk 0 n s None match_price match_quantity "" in
          let e := count_execution execution e in
          bid_head <- front (PriceLevel.orders best_bid_level) ;;
          order_book <- cancel_order (Order.id bid_head) order_book ;;
          ask_head <- front (PriceLevel.orders best_ask_level) ;;
          order_book <- cancel_order (Order.id ask_head) order_book ;;
          ret (put_order_book s order_book e, [execution])
        else ret (e, [])
    | _, _ => ret (e, [])
    end
  else ret (e, []).

(** The executions handed to [execution_callback_]; [order_status_callback_]
    then receives [order] itself, as it was dequeued. *)
Definition process_order (order : Order.t) (e : MatchingEngine)
    : result (MatchingEngine * list Execution.t) :=
  match Order.type order with
  | MARKET => process_market_order order e
  | _ =>
      let '(order_book, e) := get_order_book (Order.symbol order) e in
      order_book <- add_order order order_book ;;
      match_orders (Order.symbol order)
                   (put_order_book (Order.symbol order) order_book e)
  end.

(** One round of the inner loop of [matching_loop]: the front of the queue
    is popped and processed; [None] when the queue is empty. *)
Definition matching_step (e : MatchingEngine)
    : option (result (MatchingEngine * list Execution.t)) :=
  match order_queue_ e with
  | [] => None
  | order :: queue' => Some (process_order order (set_queue queue' e))
  end.

(** ** OrderManager *)

Record OrderManager : Type := mkManager {
  matching_engine_ : MatchingEngine;
  active_orders_ : gmap string (gmap Z Order.t);
  positions_ : gmap string Position.t;
  risk_limits_ : RiskLimits.t;
  daily_pnl_ : Q;
  max_drawdown_ : Q;
  peak_equity_ : Q
}.

Definition set_engine (v : MatchingEngine) (m : OrderManager) : OrderManager :=
  mkManager v (active_orders_ m) (positions_ m) (risk_limits_ m)
            (daily_pnl_ m) (max_drawdown_ m) (peak_equity_ m).

Definition set_active (v : gmap string (gmap Z Order.t)) (m : OrderManager)
    : OrderManager :=
  mkManager (matching_engine_ m) v (positions_ m) (risk_limits_ m)
            (daily_pnl_ m) (max_drawdown_ m) (peak_equity_ m).

Definition set_positions (v : gmap string Position.t) (m : OrderManager)
    : OrderManager :=
  mkManager (matching_engine_ m) (active_orders_ m) v (risk_limits_ m)
            (daily_pnl_ m) (max_drawdown_ m) (peak_equity_ m).

(** [OrderManager::OrderManager()] *)
Definition new_manager : OrderManager :=
  mkManager new_engine ∅ ∅ RiskLimits.make 0 0 0.

Module Manager.
Definition add_symbol (s : string) (m : OrderManager) : OrderManager :=
  set_engine (add_symbol s (matching_engine_ m)) m.

Definition set_risk_limits (limits : RiskLimits.t) (m : OrderManager)
    : OrderManager :=
  mkManager (matching_engine_ m) (active_orders_ m) (positions_ m) limits
            (daily_pnl_ m) (max_drawdown_ m) (peak_equity_ m).

Definition get_position (s : string) (m : OrderManager) : Position.t :=
  match positions_ m !! s with
  | Some p => p
  | None => Position.make
  end.

Definition get_daily_pnl (m : OrderManager) : Q := daily_pnl_ m.
Definition get_max_drawdown (m : OrderManager) : Q := max_drawdown_ m.

Definition get_total_pnl (m : OrderManager) : Q :=
  map_fold (fun _ p total =>
              (total + (Position.realized_pnl p + Position.unrealized_pnl p))%Q)
           0%Q (positions_ m).

(** [int32_t new_quantity] receives a [uint32_t] by [+=] or [-=]: the sum
    is reduced to 32 bits and read back signed.  [std::abs] of the least
    [int32_t] is not defined in C++; [Z.abs] is its value elsewhere. *)
Definition check_position_limits (order : Order.t) (m : OrderManager) : bool :=
  let current_position := get_position (Order.symbol order) m in
  let new_quantity :=
    match Order.side order with
    | BUY => i32 (Position.quantity current_position + Order.quantity order)
    | SELL => i32 (Position.quantity current_position - Order.quantity order)
    end in
  Z.abs new_quantity <=? RiskLimits.max_order_size (risk_limits_ m).

Definition check_daily_loss_limit (order : Order.t) (m : OrderManager) : bool :=
  Qltb (- RiskLimits.max_daily_loss (risk_limits_ m)) (daily_pnl_ m).

Definition check_risk_limits (order : Order.t) (m : OrderManager) : bool :=
  check_position_limits order m && check_daily_loss_limit order m.

(** [active_orders_[order.trader_id][order_id] = order]: the order as the
    caller passed it, its [id] not stamped. *)
Definition place_order (order : Order.t) (m : OrderManager)
    : Z * OrderManager :=
  if negb (check_risk_limits order m) then (0, m)
  else
    let '(order_id, e) := submit_order order (matching_engine_ m) in
    let m := set_engine e m in
    if 0 <? order_id then
      let trader_orders :=
        default ∅ (active_orders_ m !! Order.trader_id order) in
      (order_id,
       set_active (<[Order.trader_id order := <[order_id := order]> trader_orders]>
                     (active_orders_ m)) m)
    else (order_id, m).

(** [auto& trader_orders = active_orders_[trader_id]] inserts an empty map
    for a trader that has none. *)
Definition cancel_order (order_id : Z) (trader_id : string) (m : OrderManager)
    : bool * OrderManager :=
  let '(cancelled, e) :=
    Engine.cancel_order order_id trader_id (matching_engine_ m) in
  let m := set_engine e m in
  if cancelled then
    let trader_orders := default ∅ (active_orders_ m !! trader_id) in
    (true, set_active (<[trader_id := delete order_id trader_orders]>
                         (active_orders_ m)) m)
  else (false, m).

Definition modify_order (order_id : Z) (new_price : Q) (new_quantity : Z)
    (trader_id : string) (m : OrderManager) : bool * OrderManager :=
  let '(modified, e) :=
    Engine.modify_order order_id new_price new_quantity trader_id
                        (matching_engine_ m) in
  let m := set_engine e m in
  if modified then
    let trader_orders := default ∅ (active_orders_ m !! trader_id) in
    (true,
     set_active (<[trader_id :=
                     alter (Order.with_price_quantity new_price new_quantity)
                           order_id trader_orders]> (active_orders_ m)) m)
  else (false, m).

(** [positions_[execution.symbol]] inserts [Position()] for a new symbol;
    the test [execution.side == OrderSide::BUY] reads the side. *)
Definition update_position (execution : Execution.t) (m : OrderManager)
    : result OrderManager :=
  let position :=
    default Position.make (positions_ m !! Execution.symbol execution) in
  match Execution.side execution with
  | None => inl Indeterminate
  | Some side =>
      let quantity :=
        match side with
        | BUY => i32 (Position.quantity position + Execution.quantity execution)
        | SELL => i32 (Position.quantity position - Execution.quantity execution)
        end in
      let avg_price :=
        if quantity =? 0 then Position.avg_price position
        else Execution.price execution in
      ret (set_positions
             (<[Execution.symbol execution :=
                  Position.mk (Execution.symbol execution) quantity avg_price
                              (Position.unrealized_pnl position)
                              (Position.realized_pnl position)]>
                (positions_ m)) m)
  end.

(** [update_position(execution)], then the subscriber's callback. *)
Definition on_execution (execution : Execution.t) (m : OrderManager)
    : result OrderManager :=
  update_position execution m.

Definition on_order_status (order : Order.t) (m : OrderManager)
    : OrderManager :=
  let trader_orders :=
    default ∅ (active_orders_ m !! Order.trader_id order) in
  set_active (<[Order.trader_id order :=
                  alter (fun _ => order) (Order.id order) trader_orders]>
                (active_orders_ m)) m.

(** Declared private and called from no function of the repository. *)
Definition update_drawdown (m : OrderManager) : OrderManager :=
  let current_equity := get_total_pnl m in
  let peak :=
    if Qltb (peak_equity_ m) current_equity then current_equity
    else peak_equity_ m in
  let drawdown_max :=
    if Qltb 0 peak then
      let drawdown := ((peak - current_equity) / peak)%Q in
      if Qltb (max_drawdown_ m) drawdown then drawdown else max_drawdown_ m
    else max_drawdown_ m in
  mkManager (matching_engine_ m) (active_orders_ m) (positions_ m)
            (risk_limits_ m) (daily_pnl_ m) drawdown_max peak.

Fixpoint deliver (executions : list Execution.t) (m : OrderManager)
    : result OrderManager :=
  match executions with
  | [] => ret m
  | x :: rest => m <- on_execution x m ;; deliver rest m
  end.

(** The matching worker under an [OrderManager], whose constructor installs
    [on_execution] and [on_order_status] as the engine's callbacks. *)
Definition matching_step (m : OrderManager) : option (result OrderManager) :=
  match order_queue_ (matching_engine_ m) with
  | [] => None
  | order :: queue' =>
      Some (r <- process_order order (set_queue queue' (matching_engine_ m)) ;;
            m <- deliver (snd r) (set_engine (fst r) m) ;;
            ret (on_order_status order m))
  end.
End Manager.

(** ** More of OrderBook, and MarketDataFeed *)

Definition get_mid_price (b : OrderBook) : result Q :=
  b <- lock b ;;
  ret (if Qltb 0 (best_bid_ b) && Qltb 0 (best_ask_ b)
       then ((best_bid_ b + best_ask_ b) / 2)%Q
       else last_price_ b).


(** The deterministic part of [MarketDataFeed]: its map of books.  The
    literal [0.01] is the rational 1/100. *)
Module Feed.
(** [order_books_[symbol]] *)
Definition book_of (s : string) (books : gmap string OrderBook) : OrderBook :=
  default (new_book "") (books !! s).

Definition add_symbol (s : string) (initial_price : Q)
    (books : gmap string OrderBook) : result (gmap string OrderBook) :=
  let books :=
    match books !! s with
    | Some _ => books
    | None => <[s := new_book s]> books
    end in
  let initial_order :=
    Order.mk 0 s BUY LIMIT initial_price 1000 0 PENDING "MARKET_MAKER" in
  b <- add_order initial_order (book_of s books) ;;
  let books := <[s := b]> books in
  let initial_order :=
    Order.mk 0 s SELL LIMIT (initial_price + (1 # 100))%Q 1000 0 PENDING
             "MARKET_MAKER" in
  b <- add_order initial_order (book_of s books) ;;
  ret (<[s := b]> books).

Definition update_price (s : string) (p : Q) (books : gmap string OrderBook)
    : result (gmap string OrderBook) :=
  match books !! s with
  | Some b => b <- set_last_price p b ;; ret (<[s := b]> books)
  | None => ret books
  end.
End Feed.

(** * Predicates and sample states *)

(** ** Levels and books *)

Definition sum_quantity (os : list Order.t) : Z :=
  foldr (fun o acc => Order.quantity o + acc) 0 os.

Definition sum_remaining (os : list Order.t) : Z :=
  foldr (fun o acc => Order.quantity o - Order.filled_quantity o + acc) 0 os.

(** What the code maintains for a level: a vector that is not empty, and a
    [total_quantity] that is the 32-bit sum of the [quantity] fields. *)
Definition level_ok (l : PriceLevel.t) : Prop :=
  PriceLevel.orders l <> [] /\
  PriceLevel.total_quantity l = u32 (sum_quantity (PriceLevel.orders l)).

Definition levels_ok (m : levels) : Prop := Forall (fun kl => level_ok kl.2) m.

Definition book_ok (b : OrderBook) : Prop :=
  book_mutex_ b = false /\ levels_ok (bids_ b) /\ levels_ok (asks_ b).

(** The books reached from a new book through the public operations of
    [OrderBook] that return. *)
Inductive reachable : OrderBook -> Prop :=
  | reach_new (s : string) : reachable (new_book s)
  | reach_add_order (o : Order.t) (b b' : OrderBook) :
      reachable b -> add_order o b = inr b' -> reachable b'
  | reach_cancel_order (i : Z) (b b' : OrderBook) :
      reachable b -> cancel_order i b = inr b' -> reachable b'
  | reach_modify_order (i : Z) (p : Q) (q : Z) (b b' : OrderBook) :
      reachable b -> modify_order i p q b = inr b' -> reachable b'
  | reach_set_last_price (p : Q) (b b' : OrderBook) :
      reachable b -> set_last_price p b = inr b' -> reachable b'
  | reach_clear_book (b b' : OrderBook) :
      reachable b -> clear_book b = inr b' -> reachable b'
  | reach_add_limit_order (p : Q) (q : Z) (s : OrderSide) (b b' : OrderBook) :
      reachable b -> add_limit_order p q s b = inr b' -> reachable b'.

Ltac case_positive :=
  lazymatch goal with
  | |- context [0 <? ?q] => destruct (0 <? q) eqn:?
  end.

(** ** Sample orders and states *)

Definition limit_order (s : OrderSide) (p : Q) (q : Z) (t : string) : Order.t :=
  Order.mk 0 "AAPL" s LIMIT p q 0 PENDING t.

Definition market_order (s : OrderSide) (q : Z) (t : string) : Order.t :=
  Order.mk 0 "AAPL" s MARKET 0 q 0 PENDING t.

(** The book after [add_order] of BUY 100 @ 150 on [OrderBook("AAPL")]. *)
Definition one_bid_level : PriceLevel.t :=
  PriceLevel.mk 150 100 [Order.with_id 1 (limit_order BUY 150 100 "T1")].

Definition one_bid_book : OrderBook :=
  mkBook "AAPL" [(150%Q, one_bid_level)] [] false 0 150 0 1.

(** The invariant of a level in terms of remaining quantities. *)
Definition stated_level_invariant (l : PriceLevel.t) : Prop :=
  PriceLevel.total_quantity l = sum_remaining (PriceLevel.orders l) /\
  0 < PriceLevel.total_quantity l.

(** An order with this id rests in a book of the engine. *)
Definition resting_in_books (order_id : Z) (e : MatchingEngine) : Prop :=
  exists s b k l o,
    order_books_ e !! s = Some b /\ (k, l) ∈ bids_ b ++ asks_ b /\
    o ∈ PriceLevel.orders l /\ Order.id o = order_id.

(** The engine after trader T1 submitted BUY 100 @ 150 and the worker
    processed it: the order rests in the book of AAPL. *)
Definition engine_one_bid : MatchingEngine :=
  mkEngine {["AAPL" := one_bid_book]} [] 1 0 0 1 0.

(** Scenario S5: [max_order_size] is 100 and the order asks for 500. *)
Definition manager_small : OrderManager :=
  Manager.set_risk_limits (RiskLimits.mk 1000000 50000 (1 # 10) 100 2)
    (Manager.add_symbol "AAPL" new_manager).

(** The limits and the order of [test_risk_limit_violations]: notional
    1000 * 20 against a [max_position_value] of 10000. *)
Definition manager_test_limits : OrderManager :=
  Manager.set_risk_limits (RiskLimits.mk 10000 1000 (1 # 10) 1000 2)
    (Manager.add_symbol "AAPL" new_manager).

Definition big_value : Order.t := Order.mk 0 "AAPL" BUY LIMIT 1000 20 0 PENDING "RISK".

(** Scenario S1: BUY 100 @ 150 under id 1 rests, SELL 100 @ 150 arrives
    under id 2 from trader T2. *)
Definition taker_sell : Order.t :=
  Order.with_id 2 (limit_order SELL 150 100 "T2").

(** The two executions of a losing round trip: bought 100 @ 150, sold
    100 @ 100. *)
Definition bought : Execution.t := Execution.mk 1 1 "AAPL" (Some BUY) 150 100 "T1".
Definition sold : Execution.t := Execution.mk 2 2 "AAPL" (Some SELL) 100 100 "T1".

(** ** The two sides of a book *)

(** The orders resting on one side, best level first. *)
Definition resting (m : levels) : list Order.t :=
  flat_map (fun kl => PriceLevel.orders kl.2) m.

Definition resting_orders (b : OrderBook) : list Order.t :=
  resting (bids_ b) ++ resting (asks_ b).

Definition side_quantity (m : levels) : Z :=
  foldr (fun kl acc => PriceLevel.total_quantity kl.2 + acc) 0 m.

Definition sorted_by (comp : Q -> Q -> bool) (m : levels) : Prop :=
  StronglySorted (fun x y => comp x.1 y.1 = true) m.

(** A level whose orders all have a positive quantity and whose total is
    their sum, without reduction. *)
Definition level_full (l : PriceLevel.t) : Prop :=
  PriceLevel.orders l <> [] /\
  Forall (fun o => 0 < Order.quantity o) (PriceLevel.orders l) /\
  PriceLevel.total_quantity l = sum_quantity (PriceLevel.orders l).

Definition cached (b : OrderBook) : Prop :=
  best_bid_ b = first_key (bids_ b) /\ best_ask_ b = first_key (asks_ b).

(** One side after zero or one call of the removal loop. *)
Definition shrunk_side (m m' : levels) : Prop :=
  m' = m \/ exists i o, remove_resting i m = Some (o, m').

Definition shrunk (b b' : OrderBook) : Prop :=
  shrunk_side (bids_ b) (bids_ b') /\ shrunk_side (asks_ b) (asks_ b').

(** ** Market orders *)

(** The cached best price of the side opposite to [s] when it is positive,
    with the first level of that side. *)
Definition best_opposite (s : OrderSide) (b : OrderBook)
    : option (Q * PriceLevel.t) :=
  match s with
  | BUY =>
      if Qltb 0 (best_ask_ b) then
        match asks_ b with
        | (_, l) :: _ => Some (best_ask_ b, l)
        | [] => None
        end
      else None
  | SELL =>
      if Qltb 0 (best_bid_ b) then
        match bids_ b with
        | (_, l) :: _ => Some (best_bid_ b, l)
        | [] => None
        end
      else None
  end.

Definition executed (xs : list Execution.t) : Z :=
  foldr (fun x acc => Execution.quantity x + acc) 0 xs.

(** The engine after the worker processed the orders [os] one after the
    other. *)
Definition processed (os : list Order.t) (e : MatchingEngine) : MatchingEngine :=
  fold_left (fun e o => match process_order o e with
                        | inr (e', _) => e'
                        | inl _ => e
                        end) os e.

(** The engine of scenario S3: SELL 10 @ 101, SELL 30 @ 102 and
    SELL 50 @ 103 were processed in this order. *)
Definition engine_three_asks : MatchingEngine :=
  processed [Order.with_id 1 (limit_order SELL 101 10 "T1");
             Order.with_id 2 (limit_order SELL 102 30 "T2");
             Order.with_id 3 (limit_order SELL 103 50 "T3")]
            (add_symbol "AAPL" new_engine).

(** ** The crossing invariant *)

Definition ids_below (n : Z) (m : levels) : Prop :=
  forall x, x ∈ resting m -> Order.id x <= n.

Definition disjoint_ids (B A : levels) : Prop :=
  forall x y, x ∈ resting B -> y ∈ resting A -> Order.id x <> Order.id y.

Definition side_inv (comp : Q -> Q -> bool) (m : levels) : Prop :=
  sorted_by comp m /\
  Forall (fun kl => (0 < kl.1)%Q) m /\
  Forall (fun kl => level_full kl.2) m.

Definition uncrossed (B A : levels) : Prop :=
  B = [] \/ A = [] \/ (first_key B < first_key A)%Q.

(** A book between two operations, as the engine leaves it when every
    order it is given has a positive price and a positive quantity. *)
Record book_wf (b : OrderBook) : Prop := {
  wf_free : book_mutex_ b = false;
  wf_cached : cached b;
  wf_sequence : 0 <= sequence_number_ b;
  wf_bids : side_inv greater (bids_ b);
  wf_asks : side_inv less (asks_ b);
  wf_quantity : side_quantity (bids_ b) + side_quantity (asks_ b) < 2 ^ 32;
  wf_bid_ids : ids_below (sequence_number_ b) (bids_ b);
  wf_ask_ids : ids_below (sequence_number_ b) (asks_ b);
  wf_disjoint : disjoint_ids (bids_ b) (asks_ b)
}.

Definition book_inv (b : OrderBook) : Prop :=
  book_wf b /\ uncrossed (bids_ b) (asks_ b).

Definition engine_inv (e : MatchingEngine) : Prop :=
  forall s b, order_books_ e !! s = Some b -> book_inv b.

(** The intents under which the invariant is kept: a market order, or an
    order with a positive price and a positive quantity that overflows
    neither the 32-bit totals nor the 64-bit sequence number of the book. *)
Definition valid_intent (o : Order.t) (b : OrderBook) : Prop :=
  Order.type o = MARKET \/
  ((0 < Order.price o)%Q /\ 0 < Order.quantity o /\
   side_quantity (bids_ b) + side_quantity (asks_ b) + Order.quantity o < 2 ^ 32 /\
   sequence_number_ b + 1 < 2 ^ 64).

(** A book that is not crossed, as [get_best_bid] and [get_best_ask] show
    it: the bid below the ask, or one of the two equal to 0. *)
Definition not_crossed (b : OrderBook) : Prop :=
  exists best_bid best_ask,
    get_best_bid b = inr best_bid /\ get_best_ask b = inr best_ask /\
    ((best_bid < best_ask)%Q \/ (best_bid == 0)%Q \/ (best_ask == 0)%Q).

(** Books of the engine written through the reference that
    [get_order_book] hands out: [add_order] called on the book directly. *)
Definition added (os : list Order.t) (b : OrderBook) : OrderBook :=
  fold_left (fun b o => match add_order o b with
                        | inr b' => b'
                        | inl _ => b
                        end) os b.

(** An engine whose book of AAPL received two bids at 101 and two asks at
    100 through [add_order]. *)
Definition crossed_by_callers : MatchingEngine :=
  put_order_book "AAPL"
    (added [limit_order BUY 101 10 "T1"; limit_order BUY 101 10 "T2";
            limit_order SELL 100 10 "T3"; limit_order SELL 100 10 "T4"]
           (new_book "AAPL"))
    new_engine.

(** ** Predicates of the further properties *)

(** When both cached best prices are positive, the last price is their
    midpoint. *)
Definition mid_current (b : OrderBook) : Prop :=
  Qltb 0 (best_bid_ b) && Qltb 0 (best_ask_ b) = true ->
  last_price_ b = ((best_bid_ b + best_ask_ b) / 2)%Q.

Record book_view (b : OrderBook) : Prop := {
  view_free : book_mutex_ b = false;
  view_bids : sorted_by greater (bids_ b);
  view_asks : sorted_by less (asks_ b);
  view_cached : cached b;
  view_mid : mid_current b
}.

(** BUY 100 @ 150 and SELL 100 @ 151 added to [OrderBook("AAPL")]. *)
Definition quoted_book : OrderBook :=
  added [limit_order BUY 150 100 "T1"; limit_order SELL 151 100 "T2"]
        (new_book "AAPL").

(** [std::map::find] with the comparator [comp]. *)
Fixpoint find_level (comp : Q -> Q -> bool) (p : Q) (m : levels)
    : option PriceLevel.t :=
  match m with
  | [] => None
  | (k, l) :: m' =>
      if comp p k then None
      else if comp k p then find_level comp p m'
      else Some l
  end.

Definition side_levels (s : OrderSide) (b : OrderBook) : levels :=
  match s with BUY => bids_ b | SELL => asks_ b end.

Definition side_comp (s : OrderSide) : Q -> Q -> bool :=
  match s with BUY => greater | SELL => less end.

Definition other_side (s : OrderSide) : OrderSide :=
  match s with BUY => SELL | SELL => BUY end.

(** What a depth query shows of a level: its key, its total and its
    orders. *)
Definition level_view (kl : Q * PriceLevel.t) : Q * Z * list Order.t :=
  (kl.1, PriceLevel.total_quantity kl.2, PriceLevel.orders kl.2).

(** What one call of [process_order] does to the counters of the engine,
    given the executions [xs] it emitted. *)
Definition accounted (s : string) (e e' : MatchingEngine)
    (xs : list Execution.t) : Prop :=
  order_queue_ e' = order_queue_ e /\
  order_id_counter_ e' = order_id_counter_ e /\
  total_orders_processed_ e' = total_orders_processed_ e /\
  ((xs = [] /\ execution_id_counter_ e' = execution_id_counter_ e /\
    total_executions_ e' = total_executions_ e /\
    total_volume_ e' = total_volume_ e) \/
   exists x,
     xs = [x] /\
     Execution.execution_id x = u64 (execution_id_counter_ e + 1) /\
     execution_id_counter_ e' = u64 (execution_id_counter_ e + 1) /\
     total_executions_ e' = u64 (total_executions_ e + 1) /\
     total_volume_ e' =
       (total_volume_ e + Execution.price x * inject_Z (Execution.quantity x))%Q /\
     0 < Execution.quantity x /\ Execution.symbol x = s).

(** Scenario S6 before the match: two bids of T1 and T2 at 150 in this
    order, and the ask of T3 at 150 that was just added. *)
Definition priority_book : OrderBook :=
  mkBook "AAPL"
    [(150%Q, PriceLevel.mk 150 20
               [Order.with_id 1 (limit_order BUY 150 10 "T1");
                Order.with_id 2 (limit_order BUY 150 10 "T2")])]
    [(150%Q, PriceLevel.mk 150 10
               [Order.with_id 3 (limit_order SELL 150 10 "T3")])]
    false 150 150 150 3.

(** Successive calls of [submit_order]: the ids returned, in order, and
    the engine after the last call. *)
Fixpoint submit_all (os : list Order.t) (e : MatchingEngine)
    : list Z * MatchingEngine :=
  match os with
  | [] => ([], e)
  | o :: os' =>
      let '(n, e1) := submit_order o e in
      let '(ns, e2) := submit_all os' e1 in
      (n :: ns, e2)
  end.

(** The signed quantity an execution contributes to the position of [s]:
    bought quantities count up, sold quantities down. *)
Definition signed_quantity (s : string) (x : Execution.t) : Z :=
  if bool_decide (Execution.symbol x = s) then
    match Execution.side x with
    | Some BUY => Execution.quantity x
    | _ => - Execution.quantity x
    end
  else 0.

Definition position_delta (s : string) (xs : list Execution.t) : Z :=
  foldr (fun x acc => signed_quantity s x + acc) 0 xs.

(** No position carries a realized or an unrealized profit. *)
Definition pnl_free (m : OrderManager) : Prop :=
  forall s p, positions_ m !! s = Some p ->
    Position.realized_pnl p = 0%Q /\ Position.unrealized_pnl p = 0%Q.

(** The entry of the active-order index for a trader and an id. *)
Definition active_order (t : string) (i : Z) (m : OrderManager)
    : option Order.t :=
  match active_orders_ m !! t with
  | Some orders => orders !! i
  | None => None
  end.

(** A book seeded as the tests do, with [add_limit_order]: a bid at 99 and
    an ask at 101, both under the id 0 of synthetic orders. *)
Definition synthetic_book : OrderBook :=
  match (b <- add_limit_order 99 10 BUY (new_book "AAPL") ;;
         add_limit_order 101 10 SELL b) with
  | inr b => b
  | inl _ => new_book "AAPL"
  end.

(** * Properties *)

(** ** Comparisons *)

Lemma Qltb_true (x y : Q) : Qltb x y = true <-> (x < y)%Q.
Proof.
  unfold Qltb. rewrite Qlt_alt. destruct (x ?= y)%Q; split; congruence.
Qed.

Lemma Qltb_false (x y : Q) : Qltb x y = false <-> (y <= x)%Q.
Proof.
  split; intros H.
  - apply Qnot_lt_le. intros Hlt. apply Qltb_true in Hlt. congruence.
  - destruct (Qltb x y) eqn:E; [|reflexivity].
    apply Qltb_true in E. lra.
Qed.

Lemma Qle_bool_false (x y : Q) : Qle_bool x y = false <-> (y < x)%Q.
Proof.
  split; intros H.
  - apply Qnot_le_lt. intros Hle. apply Qle_bool_iff in Hle. congruence.
  - destruct (Qle_bool x y) eqn:E; [|reflexivity].
    apply Qle_bool_iff in E. lra.
Qed.

Lemma u32_small (z : Z) : 0 <= z < 2 ^ 32 -> u32 z = z.
Proof. intros H. unfold u32. apply Z.mod_small. exact H. Qed.

Lemma u64_small (z : Z) : 0 <= z < 2 ^ 64 -> u64 z = z.
Proof. intros H. unfold u64. apply Z.mod_small. exact H. Qed.

(** ** The mutex *)

Lemma lock_free (b : OrderBook) :
  book_mutex_ b = false -> lock b = inr (set_mutex true b).
Proof. intros H. unfold lock. rewrite H. reflexivity. Qed.

Lemma lock_held (b : OrderBook) : book_mutex_ b = true -> lock b = inl Relock.
Proof. intros H. unfold lock. rewrite H. reflexivity. Qed.

Lemma add_order_held (o : Order.t) (b : OrderBook) :
  book_mutex_ b = true -> add_order o b = inl Relock.
Proof. intros H. unfold add_order. rewrite lock_held by exact H. reflexivity. Qed.

(** ** Quantities of a level *)

Lemma sum_quantity_app (os : list Order.t) (o : Order.t) :
  sum_quantity (os ++ [o]) = sum_quantity os + Order.quantity o.
Proof.
  induction os as [|x os IH]; simpl.
  - lia.
  - rewrite IH. lia.
Qed.

Lemma push_order_ok (p : Q) (q : Z) (o : Order.t) (l : PriceLevel.t) :
  Order.quantity o = q ->
  PriceLevel.total_quantity l = u32 (sum_quantity (PriceLevel.orders l)) ->
  level_ok (push_order p q o l).
Proof.
  intros Hq Ht. split; simpl.
  - destruct (PriceLevel.orders l); discriminate.
  - rewrite sum_quantity_app, Ht, Hq. unfold u32.
    rewrite Z.add_mod_idemp_l by lia. reflexivity.
Qed.

Lemma subscript_ok (comp : Q -> Q -> bool) (p : Q) (q : Z) (o : Order.t)
    (m : levels) :
  Order.quantity o = q -> levels_ok m ->
  levels_ok (subscript comp p (push_order p q o) m).
Proof.
  intros Hq. unfold levels_ok.
  induction m as [|[k l] m IH]; intros Hm; simpl.
  - constructor; [|constructor]. apply push_order_ok; [exact Hq | reflexivity].
  - pose proof Hm as Hm0. apply Forall_cons in Hm0 as [Hl Hm'].
    destruct (comp p k).
    + constructor; [|exact Hm]. apply push_order_ok; [exact Hq | reflexivity].
    + destruct (comp k p).
      * constructor; [exact Hl | apply IH; exact Hm'].
      * constructor; [|exact Hm']. apply push_order_ok; [exact Hq | apply Hl].
Qed.

Lemma find_erase_sum (i : Z) (os rest : list Order.t) (o : Order.t) :
  find_erase i os = Some (o, rest) ->
  sum_quantity os = Order.quantity o + sum_quantity rest.
Proof.
  revert rest. induction os as [|x os IH]; intros rest H; simpl in H.
  - discriminate.
  - destruct (Order.id x =? i).
    + inversion H; subst. reflexivity.
    + destruct (find_erase i os) as [[y r]|]; [|discriminate].
      inversion H; subst. simpl. rewrite (IH r eq_refl). lia.
Qed.

Lemma remove_resting_ok (i : Z) (m m' : levels) (o : Order.t) :
  levels_ok m -> remove_resting i m = Some (o, m') -> levels_ok m'.
Proof.
  unfold levels_ok. revert m'.
  induction m as [|[k l] m IH]; intros m' Hm H; simpl in H.
  - discriminate.
  - apply Forall_cons in Hm as [Hl Hm0].
    destruct (find_erase i (PriceLevel.orders l)) as [[x rest]|] eqn:E.
    + inversion H; subst. destruct rest as [|r rest].
      * exact Hm0.
      * constructor; [|exact Hm0]. split; simpl; [discriminate|].
        destruct Hl as [_ Ht]. simpl in Ht. rewrite Ht.
        rewrite (find_erase_sum _ _ _ _ E). unfold u32.
        rewrite Zminus_mod_idemp_l. f_equal. simpl. lia.
    + destruct (remove_resting i m) as [[y m'']|]; [|discriminate].
      inversion H; subst. constructor; [exact Hl|]. apply (IH m'' Hm0 eq_refl).
Qed.

Lemma update_best_prices_ok (b : OrderBook) :
  book_ok (unlock (update_best_prices b)) <->
  levels_ok (bids_ b) /\ levels_ok (asks_ b).
Proof. unfold book_ok. simpl. intuition. Qed.

Lemma add_order_ok (o : Order.t) (b b' : OrderBook) :
  book_ok b -> add_order o b = inr b' -> book_ok b'.
Proof.
  intros (Hf & Hb & Ha) H. unfold add_order in H.
  rewrite lock_free in H by exact Hf. simpl in H. inversion H; subst; clear H.
  apply update_best_prices_ok.
  destruct (Order.side o); simpl; (split; [|]); try assumption;
    apply subscript_ok; auto.
Qed.

Lemma add_limit_order_ok (p : Q) (q : Z) (s : OrderSide) (b b' : OrderBook) :
  book_ok b -> add_limit_order p q s b = inr b' -> book_ok b'.
Proof.
  intros (Hf & Hb & Ha) H. unfold add_limit_order in H.
  rewrite lock_free in H by exact Hf. simpl in H. inversion H; subst; clear H.
  apply update_best_prices_ok.
  destruct s; simpl; (split; [|]); try assumption; apply subscript_ok; auto.
Qed.

Lemma cancel_order_ok (i : Z) (b b' : OrderBook) :
  book_ok b -> cancel_order i b = inr b' -> book_ok b'.
Proof.
  intros (Hf & Hb & Ha) H. unfold cancel_order in H.
  rewrite lock_free in H by exact Hf. simpl in H.
  destruct (remove_resting i (bids_ b)) as [[x m]|] eqn:Eb.
  - inversion H; subst. apply update_best_prices_ok. simpl.
    split; [exact (remove_resting_ok _ _ _ _ Hb Eb) | exact Ha].
  - destruct (remove_resting i (asks_ b)) as [[x m]|] eqn:Ea.
    + inversion H; subst. apply update_best_prices_ok. simpl.
      split; [exact Hb | exact (remove_resting_ok _ _ _ _ Ha Ea)].
    + inversion H; subst. unfold book_ok. simpl. auto.
Qed.

Lemma cancel_order_returns (i : Z) (b : OrderBook) :
  book_mutex_ b = false -> returns (cancel_order i b).
Proof.
  intros Hf. unfold cancel_order. rewrite lock_free by exact Hf. simpl.
  destruct (remove_resting i (bids_ b)) as [[x m]|]; [eexists; reflexivity|].
  destruct (remove_resting i (asks_ b)) as [[x m]|]; eexists; reflexivity.
Qed.

(** A call of [modify_order] that comes back found no order to modify. *)
Lemma modify_order_inr (i : Z) (p : Q) (q : Z) (b b' : OrderBook) :
  book_mutex_ b = false -> modify_order i p q b = inr b' ->
  remove_resting i (bids_ b) = None /\ remove_resting i (asks_ b) = None /\
  b' = b.
Proof.
  intros Hf H. unfold modify_order in H.
  rewrite lock_free in H by exact Hf. cbn [bind] in H.
  change (bids_ (set_mutex true b)) with (bids_ b) in H.
  change (asks_ (set_mutex true b)) with (asks_ b) in H.
  destruct (remove_resting i (bids_ b)) as [[x m]|].
  - rewrite add_order_held in H by reflexivity. discriminate.
  - destruct (remove_resting i (asks_ b)) as [[x m]|].
    + rewrite add_order_held in H by reflexivity. discriminate.
    + inversion H; subst. repeat split; try reflexivity.
      destruct b; simpl in *; subst; reflexivity.
Qed.

Lemma getters_free (b : OrderBook) :
  book_mutex_ b = false ->
  get_best_bid b = inr (best_bid_ b) /\
  get_best_ask b = inr (best_ask_ b) /\
  (forall d, get_bid_levels d b = inr (map snd (take (Z.to_nat d) (bids_ b)))) /\
  (forall d, get_ask_levels d b = inr (map snd (take (Z.to_nat d) (asks_ b)))).
Proof.
  intros Hf.
  unfold get_best_bid, get_best_ask, get_bid_levels, get_ask_levels.
  rewrite lock_free by exact Hf. repeat split.
Qed.

(** ** Book states reached through the public operations of [OrderBook] *)

Lemma reachable_ok (b : OrderBook) : reachable b -> book_ok b.
Proof.
  induction 1 as [s|o b b' _ IH H|i b b' _ IH H|i p q b b' _ IH H
                 |p b b' _ IH H|b b' _ IH H|p q s b b' _ IH H].
  - repeat split; constructor.
  - exact (add_order_ok _ _ _ IH H).
  - exact (cancel_order_ok _ _ _ IH H).
  - destruct IH as (Hf & Hb & Ha).
    destruct (modify_order_inr _ _ _ _ _ Hf H) as (_ & _ & ->).
    repeat split; assumption.
  - destruct IH as (Hf & Hb & Ha). unfold set_last_price in H.
    rewrite lock_free in H by exact Hf. inversion H; subst.
    apply update_best_prices_ok. simpl. auto.
  - destruct IH as (Hf & Hb & Ha). unfold clear_book in H.
    rewrite lock_free in H by exact Hf. inversion H; subst.
    apply update_best_prices_ok. simpl. split; constructor.
  - exact (add_limit_order_ok _ _ _ _ _ IH H).
Qed.

Lemma levels_ok_elem (m : levels) (k : Q) (l : PriceLevel.t) :
  levels_ok m -> (k, l) ∈ m -> level_ok l.
Proof.
  unfold levels_ok. rewrite Forall_forall. intros H Hin. exact (H _ Hin).
Qed.

Lemma book_ok_elem (b : OrderBook) (k : Q) (l : PriceLevel.t) :
  book_ok b -> (k, l) ∈ bids_ b ++ asks_ b -> level_ok l.
Proof.
  intros (_ & Hb & Ha) Hin. apply elem_of_app in Hin as [Hin|Hin].
  - exact (levels_ok_elem _ _ _ Hb Hin).
  - exact (levels_ok_elem _ _ _ Ha Hin).
Qed.

Lemma sum_remaining_unfilled (os : list Order.t) :
  (forall o, o ∈ os -> 0 < Order.quantity o /\ Order.filled_quantity o = 0) ->
  sum_remaining os = sum_quantity os /\ (os <> [] -> 0 < sum_quantity os).
Proof.
  induction os as [|x os IH]; intros H; simpl.
  - split; [reflexivity | congruence].
  - destruct (H x) as [Hq Hfill]; [left|].
    destruct IH as [IH1 IH2].
    { intros o Ho. apply H. right. exact Ho. }
    rewrite IH1, Hfill. split; [lia|]. intros _.
    destruct os as [|y os]; simpl in *; [lia|].
    assert (0 < Order.quantity y + sum_quantity os) by (apply IH2; discriminate).
    lia.
Qed.

(** ** Matching never indexes an empty vector *)

Lemma first_level (kl : Q * PriceLevel.t) (m : levels) :
  map snd (take (Z.to_nat 1) (kl :: m)) = [kl.2].
Proof. reflexivity. Qed.

Lemma match_orders_returns (s : string) (e : MatchingEngine) (b : OrderBook) :
  order_books_ e !! s = Some b -> book_ok b -> returns (match_orders s e).
Proof.
  intros Hlk Hok. pose proof Hok as (Hf & Hb & Ha).
  destruct (getters_free b Hf) as (Gb & Ga & Gbl & Gal).
  unfold match_orders, get_order_book. rewrite Hlk, Gb, Ga. cbn [bind].
  destruct (Qle_bool (best_bid_ b) 0 || Qle_bool (best_ask_ b) 0);
    [eexists; reflexivity|].
  destruct (Qle_bool (best_ask_ b) (best_bid_ b)); [|eexists; reflexivity].
  rewrite Gbl, Gal. cbn [bind].
  destruct (bids_ b) as [|[kb lb] B] eqn:EB; [eexists; reflexivity|].
  destruct (asks_ b) as [|[ka la] A] eqn:EA; [eexists; reflexivity|].
  rewrite !first_level. cbn [snd].
  case_positive; [|eexists; reflexivity].
  cbn [generate_execution_id].
  apply Forall_cons in Hb as [[Hlb _] _]. apply Forall_cons in Ha as [[Hla _] _].
  simpl in Hlb, Hla.
  destruct (PriceLevel.orders lb) as [|ob rb]; [congruence|].
  destruct (PriceLevel.orders la) as [|oa ra]; [congruence|].
  cbn [front bind ret].
  destruct (cancel_order_returns (Order.id ob) b Hf) as [b1 H1]. rewrite H1.
  pose proof (cancel_order_ok _ _ _ Hok H1) as (Hf1 & _). cbn [bind].
  destruct (cancel_order_returns (Order.id oa) b1 Hf1) as [b2 H2]. rewrite H2.
  eexists; reflexivity.
Qed.

Lemma process_market_order_returns (o : Order.t) (e : MatchingEngine)
    (b : OrderBook) :
  order_books_ e !! Order.symbol o = Some b -> book_ok b ->
  returns (process_market_order o e).
Proof.
  intros Hlk Hok. pose proof Hok as (Hf & Hb & Ha).
  destruct (getters_free b Hf) as (Gb & Ga & Gbl & Gal).
  unfold process_market_order, get_order_book. rewrite Hlk.
  destruct (Order.side o).
  - rewrite Ga. cbn [bind].
    destruct (Qltb 0 (best_ask_ b)); [|eexists; reflexivity].
    rewrite Gal. cbn [bind].
    destruct (asks_ b) as [|[ka la] A]; [eexists; reflexivity|].
    rewrite first_level. cbn [snd].
    case_positive; [|eexists; reflexivity].
    cbn [generate_execution_id].
    destruct (PriceLevel.orders la) as [|oa ra]; [eexists; reflexivity|].
    destruct (cancel_order_returns (Order.id oa) b Hf) as [b1 H1]. rewrite H1.
    eexists; reflexivity.
  - rewrite Gb. cbn [bind].
    destruct (Qltb 0 (best_bid_ b)); [|eexists; reflexivity].
    rewrite Gbl. cbn [bind].
    destruct (bids_ b) as [|[kb lb] B]; [eexists; reflexivity|].
    rewrite first_level. cbn [snd].
    case_positive; [|eexists; reflexivity].
    cbn [generate_execution_id].
    destruct (PriceLevel.orders lb) as [|ob rb]; [eexists; reflexivity|].
    destruct (cancel_order_returns (Order.id ob) b Hf) as [b1 H1]. rewrite H1.
    eexists; reflexivity.
Qed.

(** ** The quantities of a level, and levels that are never empty *)

Lemma one_bid_book_reachable : reachable one_bid_book.
Proof.
  apply (reach_add_order (limit_order BUY 150 100 "T1") (new_book "AAPL")).
  - apply reach_new.
  - reflexivity.
Qed.

(** C7, as amended.  In every book reached through the public operations,
    every price level holds at least one order and its [total_quantity] is
    the sum of the [quantity] fields of its orders reduced modulo 2^32;
    [filled_quantity] is not consulted.  When every order of the level has a
    positive quantity and nothing filled, and the sum stays below 2^32, this
    is the sum of the remaining quantities and it is positive. *)
Theorem level_total_quantity (b : OrderBook) (k : Q) (l : PriceLevel.t) :
  reachable b -> (k, l) ∈ bids_ b ++ asks_ b ->
  PriceLevel.orders l <> [] /\
  PriceLevel.total_quantity l = u32 (sum_quantity (PriceLevel.orders l)) /\
  ((forall o, o ∈ PriceLevel.orders l ->
      0 < Order.quantity o /\ Order.filled_quantity o = 0) ->
   sum_quantity (PriceLevel.orders l) < 2 ^ 32 ->
   PriceLevel.total_quantity l = sum_remaining (PriceLevel.orders l) /\
   0 < PriceLevel.total_quantity l).
Proof.
  intros Hr Hin.
  destruct (book_ok_elem b k l (reachable_ok b Hr) Hin) as [Hne Ht].
  split; [exact Hne|]. split; [exact Ht|].
  intros Hall Hlt.
  destruct (sum_remaining_unfilled _ Hall) as [Hrem Hpos].
  specialize (Hpos Hne).
  rewrite Ht, u32_small by lia. split; [symmetry; exact Hrem | exact Hpos].
Qed.

Lemma level_total_quantity_witness :
  reachable one_bid_book /\
  (150%Q, one_bid_level) ∈ bids_ one_bid_book ++ asks_ one_bid_book /\
  PriceLevel.total_quantity one_bid_level = 100 /\
  stated_level_invariant one_bid_level.
Proof.
  assert (Hin : (150%Q, one_bid_level) ∈ bids_ one_bid_book ++ asks_ one_bid_book)
    by (simpl; left).
  split; [exact one_bid_book_reachable|]. split; [exact Hin|].
  destruct (level_total_quantity one_bid_book 150 one_bid_level
              one_bid_book_reachable Hin) as (_ & _ & H).
  split; [reflexivity|]. apply H.
  - intros o Ho. apply list_elem_of_singleton in Ho. subst o. simpl. lia.
  - reflexivity.
Defined.

(** C7 as stated fails.  [add_order] adds [order.quantity] whatever
    [filled_quantity] says, accepts a quantity of 0, and adds in 32 bits. *)
Lemma level_total_quantity_counterexample :
  (exists b l,
     add_order (Order.mk 0 "AAPL" BUY LIMIT 150 100 30 PARTIAL "T1")
               (new_book "AAPL") = inr b /\
     bids_ b = [(150%Q, l)] /\ ~ stated_level_invariant l) /\
  (exists b l,
     add_order (limit_order BUY 150 0 "T1") (new_book "AAPL") = inr b /\
     bids_ b = [(150%Q, l)] /\ ~ stated_level_invariant l) /\
  (exists b b' l,
     add_order (limit_order SELL 100 (2 ^ 31) "T1") (new_book "AAPL") = inr b /\
     add_order (limit_order SELL 100 (2 ^ 31) "T2") b = inr b' /\
     asks_ b' = [(100%Q, l)] /\ ~ stated_level_invariant l).
Proof.
  split; [|split].
  - eexists _, _. split; [reflexivity|]. split; [reflexivity|].
    unfold stated_level_invariant. vm_compute. intros [H _]. discriminate.
  - eexists _, _. split; [reflexivity|]. split; [reflexivity|].
    unfold stated_level_invariant. vm_compute. intros [_ H]. discriminate.
  - eexists _, _, _. split; [reflexivity|]. split; [reflexivity|].
    split; [reflexivity|]. unfold stated_level_invariant.
    vm_compute. intros [H _]. discriminate.
Qed.

(** C10.  In every book reached through the public operations every price
    level of either side holds at least one order, and on an engine whose
    book for the symbol is such a book [match_orders] and
    [process_market_order] return: no [orders[0]] of theirs is out of
    bounds. *)
Theorem levels_never_empty (b : OrderBook) :
  reachable b ->
  (forall k l, (k, l) ∈ bids_ b ++ asks_ b -> PriceLevel.orders l <> []) /\
  (forall e s, order_books_ e !! s = Some b ->
     returns (match_orders s e) /\
     match_orders s e <> inl OutOfBounds /\
     forall o, Order.symbol o = s ->
       returns (process_market_order o e) /\
       process_market_order o e <> inl OutOfBounds).
Proof.
  intros Hr. pose proof (reachable_ok b Hr) as Hok. split.
  - intros k l Hin. exact (proj1 (book_ok_elem b k l Hok Hin)).
  - intros e s Hlk.
    destruct (match_orders_returns s e b Hlk Hok) as [r Hm].
    split; [exists r; exact Hm|]. split; [rewrite Hm; discriminate|].
    intros o Ho. subst s.
    destruct (process_market_order_returns o e b Hlk Hok) as [r' Hp].
    split; [exists r'; exact Hp | rewrite Hp; discriminate].
Qed.

Lemma levels_never_empty_witness :
  reachable one_bid_book /\
  PriceLevel.orders one_bid_level <> [] /\
  returns (match_orders "AAPL"
             (put_order_book "AAPL" one_bid_book new_engine)).
Proof.
  split; [exact one_bid_book_reachable|].
  destruct (levels_never_empty one_bid_book one_bid_book_reachable) as [H1 H2].
  split.
  - apply (H1 150%Q). simpl. left.
  - apply H2. reflexivity.
Defined.

(** ** MatchingEngine::cancel_order *)

Lemma drain_cancel_spec (i : Z) (t : string) (queue temp : list Order.t)
    (found : bool) :
  Engine.drain_cancel i t queue temp found =
  (temp ++ List.filter (fun o => negb (Engine.queued_match i t o)) queue,
   found || existsb (Engine.queued_match i t) queue).
Proof.
  revert temp found. induction queue as [|o queue IH]; intros temp found; simpl.
  - rewrite app_nil_r, orb_false_r. reflexivity.
  - destruct (Engine.queued_match i t o); simpl; rewrite IH.
    + rewrite orb_true_r. reflexivity.
    + rewrite <- app_assoc. reflexivity.
Qed.

Lemma queued_match_iff (i : Z) (t : string) (o : Order.t) :
  Engine.queued_match i t o = true <-> Order.id o = i /\ Order.trader_id o = t.
Proof.
  unfold Engine.queued_match.
  rewrite andb_true_iff, Z.eqb_eq, bool_decide_eq_true. reflexivity.
Qed.

(** C3, as amended.  [MatchingEngine::cancel_order] returns [true] exactly
    when an order with this id and this trader id is still in the
    submission queue; it removes those orders from the queue, keeps the
    others in their order, and neither reads nor changes any book. *)
Theorem engine_cancel_order_queue_only (i : Z) (t : string)
    (e : MatchingEngine) :
  ((Engine.cancel_order i t e).1 = true <->
   exists o, o ∈ order_queue_ e /\ Order.id o = i /\ Order.trader_id o = t) /\
  order_queue_ (Engine.cancel_order i t e).2 =
    List.filter (fun o => negb (Engine.queued_match i t o)) (order_queue_ e) /\
  order_books_ (Engine.cancel_order i t e).2 = order_books_ e.
Proof.
  unfold Engine.cancel_order. rewrite drain_cancel_spec. simpl.
  split; [|split; reflexivity].
  rewrite existsb_exists. split.
  - intros (o & Hin & Hm). exists o. apply queued_match_iff in Hm.
    split; [apply list_elem_of_In; exact Hin | exact Hm].
  - intros (o & Hin & Hm). exists o.
    split; [apply list_elem_of_In; exact Hin | apply queued_match_iff; exact Hm].
Qed.

Lemma engine_one_bid_run :
  exists e1,
    submit_order (limit_order BUY 150 100 "T1") (add_symbol "AAPL" new_engine)
      = (1, e1) /\
    matching_step e1 = Some (inr (engine_one_bid, [])).
Proof. eexists. split; reflexivity. Qed.

(** C3 as stated fails: the order with id 1 of trader T1 rests in a book of
    the engine, and [cancel_order] answers [false] and leaves it there. *)
Lemma engine_cancel_order_counterexample :
  resting_in_books 1 engine_one_bid /\
  Engine.cancel_order 1 "T1" engine_one_bid = (false, engine_one_bid).
Proof.
  split; [|reflexivity].
  exists "AAPL", one_bid_book, 150%Q, one_bid_level,
         (Order.with_id 1 (limit_order BUY 150 100 "T1")).
  split; [reflexivity|]. split; [simpl; left|]. split; [simpl; left | reflexivity].
Qed.

(** ** OrderManager::place_order *)

(** C9.  When [check_risk_limits] rejects the order, [place_order] returns
    0 and the manager it leaves is the manager it was given: the active
    orders, the books of the engine and the positions are the same. *)
Theorem place_order_rejected (o : Order.t) (m : OrderManager) :
  Manager.check_risk_limits o m = false ->
  (Manager.place_order o m).1 = 0 /\
  active_orders_ (Manager.place_order o m).2 = active_orders_ m /\
  order_books_ (matching_engine_ (Manager.place_order o m).2) =
    order_books_ (matching_engine_ m) /\
  positions_ (Manager.place_order o m).2 = positions_ m /\
  (Manager.place_order o m).2 = m.
Proof.
  intros H. unfold Manager.place_order. rewrite H. simpl. repeat split.
Qed.

Lemma place_order_rejected_witness :
  Manager.check_risk_limits (limit_order BUY 150 500 "T1") manager_small = false /\
  Manager.place_order (limit_order BUY 150 500 "T1") manager_small
    = (0, manager_small).
Proof.
  split; [reflexivity|].
  destruct (place_order_rejected (limit_order BUY 150 500 "T1") manager_small
              eq_refl) as (H0 & _ & _ & _ & Hm).
  rewrite (surjective_pairing (Manager.place_order _ _)), H0, Hm. reflexivity.
Defined.

(** C4 at the failing input.  The notional of [big_value] exceeds
    [max_position_value], both checks pass, the order is queued in the
    engine under id 1 and [place_order] returns 1. *)
Theorem place_order_ignores_notional :
  (RiskLimits.max_position_value (risk_limits_ manager_test_limits)
     < Order.price big_value * inject_Z (Order.quantity big_value))%Q /\
  Manager.check_risk_limits big_value manager_test_limits = true /\
  (Manager.place_order big_value manager_test_limits).1 = 1 /\
  order_queue_ (matching_engine_ (Manager.place_order big_value manager_test_limits).2)
    = [Order.with_id 1 big_value].
Proof. repeat split. Qed.

(** ** The execution of a limit-limit cross *)

(** C5 at the failing input.  [match_orders] emits one execution for the
    cross; its [order_id] is 0, its [trader_id] is empty and its [side] was
    never assigned, where the taker has id 2, trader T2 and side SELL.  The
    execution of a market order carries the three fields of its order. *)
Theorem cross_execution_untagged :
  exists e x,
    process_order taker_sell engine_one_bid = inr (e, [x]) /\
    Execution.quantity x = 100 /\
    Execution.order_id x = 0 /\ Order.id taker_sell = 2 /\
    Execution.trader_id x = "" /\ Order.trader_id taker_sell = "T2" /\
    Execution.side x = None /\
    exists e' y,
      process_order (Order.with_id 2 (market_order SELL 100 "T2")) engine_one_bid
        = inr (e', [y]) /\
      Execution.order_id y = 2 /\ Execution.trader_id y = "T2" /\
      Execution.side y = Some SELL.
Proof.
  eexists _, _. split; [reflexivity|]. repeat split.
  eexists _, _. split; [reflexivity|]. repeat split.
Qed.

(** ** The counters of the order manager *)

Lemma on_execution_counters (x : Execution.t) (m m' : OrderManager) :
  Manager.on_execution x m = inr m' ->
  daily_pnl_ m' = daily_pnl_ m /\ max_drawdown_ m' = max_drawdown_ m /\
  peak_equity_ m' = peak_equity_ m.
Proof.
  unfold Manager.on_execution, Manager.update_position.
  destruct (Execution.side x); [|discriminate].
  intros H. inversion H; subst. repeat split.
Qed.

(** C6 at the failing input.  Both executions are delivered to
    [on_execution]: the position moves to 100 and back to 0, and
    [get_daily_pnl] and [get_max_drawdown] return 0 before, between and
    after. *)
Theorem on_execution_leaves_counters :
  exists m1 m2,
    Manager.on_execution bought manager_test_limits = inr m1 /\
    Manager.on_execution sold m1 = inr m2 /\
    Position.quantity (Manager.get_position "AAPL" m1) = 100 /\
    Position.quantity (Manager.get_position "AAPL" m2) = 0 /\
    Manager.get_daily_pnl manager_test_limits = 0%Q /\
    Manager.get_daily_pnl m1 = 0%Q /\ Manager.get_daily_pnl m2 = 0%Q /\
    Manager.get_max_drawdown manager_test_limits = 0%Q /\
    Manager.get_max_drawdown m1 = 0%Q /\ Manager.get_max_drawdown m2 = 0%Q.
Proof.
  eexists _, _. split; [reflexivity|]. split; [reflexivity|]. repeat split.
Qed.

(** ** OrderBook::modify_order *)

Lemma modify_order_resting (i : Z) (p : Q) (q : Z) (b : OrderBook) :
  book_mutex_ b = false ->
  remove_resting i (bids_ b) <> None \/ remove_resting i (asks_ b) <> None ->
  modify_order i p q b = inl Relock.
Proof.
  intros Hf H. unfold modify_order. rewrite lock_free by exact Hf. cbn [bind].
  change (bids_ (set_mutex true b)) with (bids_ b).
  change (asks_ (set_mutex true b)) with (asks_ b).
  destruct (remove_resting i (bids_ b)) as [[x m]|].
  - rewrite add_order_held by reflexivity. reflexivity.
  - destruct (remove_resting i (asks_ b)) as [[x m]|].
    + rewrite add_order_held by reflexivity. reflexivity.
    + destruct H as [H|H]; congruence.
Qed.

Lemma modify_order_absent (i : Z) (p : Q) (q : Z) (b : OrderBook) :
  book_mutex_ b = false ->
  remove_resting i (bids_ b) = None -> remove_resting i (asks_ b) = None ->
  modify_order i p q b = inr b.
Proof.
  intros Hf Hb Ha. unfold modify_order. rewrite lock_free by exact Hf.
  cbn [bind].
  change (bids_ (set_mutex true b)) with (bids_ b).
  change (asks_ (set_mutex true b)) with (asks_ b).
  rewrite Hb, Ha. destruct b; simpl in *; subst; reflexivity.
Qed.

(** C8 at the failing input.  The book holds BUY 100 @ 150 under id 1.
    [cancel_order(1)] followed by [add_order] of that order at 151 gives a
    book with one bid level at 151; [modify_order(1, 151, 100)] gives no
    book: it calls [add_order] while it holds [book_mutex_].  For an id
    that rests nowhere [modify_order] returns the book unchanged. *)
Theorem modify_order_relocks :
  modify_order 1 151 100 one_bid_book = inl Relock /\
  (exists b1 b2 l,
     cancel_order 1 one_bid_book = inr b1 /\
     add_order (Order.with_price_quantity 151 100
                  (Order.with_id 1 (limit_order BUY 150 100 "T1"))) b1 = inr b2 /\
     bids_ b2 = [(151%Q, l)] /\ PriceLevel.total_quantity l = 100) /\
  modify_order 7 151 100 one_bid_book = inr one_bid_book.
Proof.
  split; [reflexivity|]. split; [|reflexivity].
  eexists _, _, _. repeat split.
Qed.

(** ** The two sides of a book *)

Lemma elem_of_resting (x : Order.t) (m : levels) :
  x ∈ resting m <-> exists k l, (k, l) ∈ m /\ x ∈ PriceLevel.orders l.
Proof.
  unfold resting. rewrite list_elem_of_In, in_flat_map. split.
  - intros ([k l] & Hin & Hx). exists k, l.
    split; [apply list_elem_of_In; exact Hin | apply list_elem_of_In; exact Hx].
  - intros (k & l & Hin & Hx). exists (k, l).
    split; [apply list_elem_of_In; exact Hin | apply list_elem_of_In; exact Hx].
Qed.

Lemma resting_cons (k : Q) (l : PriceLevel.t) (m : levels) :
  resting ((k, l) :: m) = PriceLevel.orders l ++ resting m.
Proof. reflexivity. Qed.

Lemma sum_quantity_positive (os : list Order.t) :
  Forall (fun o => 0 < Order.quantity o) os ->
  0 <= sum_quantity os /\ (os <> [] -> 0 < sum_quantity os).
Proof.
  induction 1 as [|o os Ho _ [IH _]]; simpl.
  - split; [lia | congruence].
  - split; [lia | intros _; lia].
Qed.

Lemma level_full_positive (l : PriceLevel.t) :
  level_full l -> 0 < PriceLevel.total_quantity l.
Proof.
  intros (Hne & Hq & Ht). rewrite Ht.
  exact (proj2 (sum_quantity_positive _ Hq) Hne).
Qed.

Lemma side_quantity_nonneg (m : levels) :
  Forall (fun kl => level_full kl.2) m -> 0 <= side_quantity m.
Proof.
  induction 1 as [|[k l] m Hl _ IH]; simpl.
  - lia.
  - pose proof (level_full_positive l Hl). lia.
Qed.

(** *** [operator[]] followed by [push_back] *)

Section Subscript.
Variable comp : Q -> Q -> bool.
Hypothesis comp_trans :
  forall a b c, comp a b = true -> comp b c = true -> comp a c = true.

Lemma subscript_keys (P : Q -> Prop) (p : Q)
    (f : PriceLevel.t -> PriceLevel.t) (m : levels) :
  P p -> Forall (fun kl => P kl.1) m ->
  Forall (fun kl => P kl.1) (subscript comp p f m).
Proof.
  intros Hp. induction m as [|[k l] m IH]; intros Hm; simpl.
  - constructor; [exact Hp | constructor].
  - pose proof Hm as Hm0. apply Forall_cons in Hm0 as [Hk Hm'].
    destruct (comp p k); [constructor; [exact Hp | exact Hm]|].
    destruct (comp k p); constructor; auto.
Qed.

Lemma subscript_sorted (p : Q) (f : PriceLevel.t -> PriceLevel.t)
    (m : levels) :
  sorted_by comp m -> sorted_by comp (subscript comp p f m).
Proof.
  unfold sorted_by. induction m as [|[k l] m IH]; intros Hm; simpl.
  - repeat constructor.
  - pose proof Hm as Hm0. apply StronglySorted_inv in Hm0 as [Hs Hk].
    destruct (comp p k) eqn:Epk.
    + constructor; [exact Hm|]. constructor; [exact Epk|].
      eapply Forall_impl; [exact Hk|]. intros [k' l'] H. simpl in *.
      exact (comp_trans _ _ _ Epk H).
    + destruct (comp k p) eqn:Ekp.
      * constructor; [exact (IH Hs)|].
        apply (subscript_keys (fun x => comp k x = true)); assumption.
      * constructor; assumption.
Qed.

Lemma subscript_first_key (p : Q) (f : PriceLevel.t -> PriceLevel.t)
    (m : levels) :
  first_key (subscript comp p f m) =
  match m with
  | [] => p
  | (k, _) :: _ => if comp p k then p else k
  end.
Proof.
  destruct m as [|[k l] m]; simpl; [reflexivity|].
  destruct (comp p k); [reflexivity|]. destruct (comp k p); reflexivity.
Qed.

Lemma subscript_resting (p : Q) (q : Z) (o x : Order.t) (m : levels) :
  x ∈ resting (subscript comp p (push_order p q o) m) ->
  x = o \/ x ∈ resting m.
Proof.
  induction m as [|[k l] m IH]; cbn [subscript].
  - rewrite resting_cons. cbn. intros H.
    apply list_elem_of_singleton in H. left. exact H.
  - destruct (comp p k).
    + rewrite (resting_cons p). cbn [push_order PriceLevel.orders PriceLevel.make].
      cbn [app]. intros H.
      apply elem_of_cons in H as [H|H]; [left; exact H | right; exact H].
    + destruct (comp k p); rewrite !resting_cons; intros H.
      * apply elem_of_app in H as [H|H].
        -- right. apply elem_of_app. left. exact H.
        -- destruct (IH H) as [E|E]; [left; exact E|].
           right. apply elem_of_app. right. exact E.
      * cbn [push_order PriceLevel.orders] in H. rewrite <- app_assoc in H.
        apply elem_of_app in H as [H|H].
        -- right. apply elem_of_app. left. exact H.
        -- apply elem_of_cons in H as [H|H]; [left; exact H|].
           right. apply elem_of_app. right. exact H.
Qed.

Lemma subscript_full (p : Q) (q : Z) (o : Order.t) (m : levels) :
  Order.quantity o = q -> 0 < q ->
  Forall (fun kl => level_full kl.2) m ->
  side_quantity m + q < 2 ^ 32 ->
  Forall (fun kl => level_full kl.2) (subscript comp p (push_order p q o) m) /\
  side_quantity (subscript comp p (push_order p q o) m) = side_quantity m + q.
Proof.
  intros Hq Hpos.
  assert (Hnew : forall l, level_full l ->
            PriceLevel.total_quantity l + q < 2 ^ 32 ->
            level_full (push_order p q o l) /\
            PriceLevel.total_quantity (push_order p q o l)
              = PriceLevel.total_quantity l + q).
  { intros l (Hne & Hall & Ht) Hlt.
    pose proof (sum_quantity_positive _ Hall) as [H0 _].
    unfold level_full, push_order. simpl.
    rewrite u32_small by lia. repeat split.
    - destruct (PriceLevel.orders l); discriminate.
    - apply Forall_app. split; [exact Hall|]. constructor; [lia | constructor].
    - rewrite sum_quantity_app, Ht, Hq. reflexivity. }
  assert (Hfresh : q < 2 ^ 32 ->
            level_full (push_order p q o (PriceLevel.make 0)) /\
            PriceLevel.total_quantity (push_order p q o (PriceLevel.make 0)) = q).
  { intros Hlt. unfold level_full, push_order. simpl.
    rewrite u32_small by lia. repeat split.
    - discriminate.
    - constructor; [lia | constructor].
    - rewrite Hq. lia. }
  induction m as [|[k l] m IH]; intros Hm Hlt; simpl in *.
  - destruct (Hfresh ltac:(lia)) as [H1 H2]. split.
    + constructor; [exact H1 | constructor].
    + rewrite H2. lia.
  - pose proof Hm as Hm0. apply Forall_cons in Hm0 as [Hl Hm'].
    pose proof (side_quantity_nonneg _ Hm') as Hge.
    pose proof (level_full_positive _ Hl) as Hlp. simpl in Hlp.
    destruct (comp p k).
    + destruct (Hfresh ltac:(lia)) as [H1 H2]. split.
      * constructor; [exact H1 | exact Hm].
      * simpl. rewrite H2. lia.
    + destruct (comp k p).
      * destruct (IH Hm' ltac:(lia)) as [H1 H2]. split.
        -- constructor; [exact Hl | exact H1].
        -- simpl. rewrite H2. lia.
      * destruct (Hnew l Hl ltac:(lia)) as [H1 H2]. split.
        -- constructor; [exact H1 | exact Hm'].
        -- simpl. rewrite H2. lia.
Qed.
End Subscript.

(** *** The removal of a resting order *)

Lemma find_erase_elem (i : Z) (os rest : list Order.t) (o : Order.t) :
  find_erase i os = Some (o, rest) ->
  Order.id o = i /\ o ∈ os /\ (forall x, x ∈ rest -> x ∈ os).
Proof.
  revert rest. induction os as [|y os IH]; intros rest H; simpl in H.
  - discriminate.
  - destruct (Order.id y =? i) eqn:E.
    + inversion H; subst. apply Z.eqb_eq in E.
      split; [exact E|]. split; [left|]. intros x Hx. right. exact Hx.
    + destruct (find_erase i os) as [[z r]|]; [|discriminate].
      inversion H; subst. destruct (IH r eq_refl) as (Hi & Ho & Hsub).
      split; [exact Hi|]. split; [right; exact Ho|].
      intros x Hx. apply elem_of_cons in Hx as [->|Hx]; [left|].
      right. exact (Hsub x Hx).
Qed.

Lemma find_erase_none (i : Z) (os : list Order.t) :
  (forall x, x ∈ os -> Order.id x <> i) -> find_erase i os = None.
Proof.
  induction os as [|y os IH]; intros H; simpl; [reflexivity|].
  destruct (Order.id y =? i) eqn:E.
  - apply Z.eqb_eq in E. exfalso. apply (H y); [left | exact E].
  - rewrite IH; [reflexivity|]. intros x Hx. apply H. right. exact Hx.
Qed.

Lemma remove_resting_elem (i : Z) (m m' : levels) (o : Order.t) :
  remove_resting i m = Some (o, m') ->
  Order.id o = i /\ o ∈ resting m /\ (forall x, x ∈ resting m' -> x ∈ resting m).
Proof.
  revert m'. induction m as [|[k l] m IH]; intros m' H; simpl in H.
  - discriminate.
  - rewrite resting_cons.
    destruct (find_erase i (PriceLevel.orders l)) as [[y rest]|] eqn:E.
    + inversion H; subst. destruct (find_erase_elem _ _ _ _ E) as (Hi & Ho & Hs).
      split; [exact Hi|]. split; [apply elem_of_app; left; exact Ho|].
      intros x Hx. apply elem_of_app. destruct rest as [|r rest].
      * right. exact Hx.
      * rewrite resting_cons in Hx. cbn [PriceLevel.orders] in Hx.
        apply elem_of_app in Hx as [Hx|Hx]; [left; exact (Hs x Hx) | right; exact Hx].
    + destruct (remove_resting i m) as [[y m'']|]; [|discriminate].
      inversion H; subst. destruct (IH m'' eq_refl) as (Hi & Ho & Hs).
      split; [exact Hi|]. split; [apply elem_of_app; right; exact Ho|].
      intros x Hx. rewrite resting_cons in Hx. apply elem_of_app.
      apply elem_of_app in Hx as [Hx|Hx]; [left; exact Hx | right; exact (Hs x Hx)].
Qed.

Lemma remove_resting_none (i : Z) (m : levels) :
  (forall x, x ∈ resting m -> Order.id x <> i) -> remove_resting i m = None.
Proof.
  induction m as [|[k l] m IH]; intros H; simpl; [reflexivity|].
  rewrite resting_cons in H.
  rewrite find_erase_none.
  - rewrite IH; [reflexivity|]. intros x Hx. apply H, elem_of_app. right. exact Hx.
  - intros x Hx. apply H, elem_of_app. left. exact Hx.
Qed.

Lemma remove_resting_head (k : Q) (l : PriceLevel.t) (m : levels)
    (o : Order.t) (rest : list Order.t) :
  PriceLevel.orders l = o :: rest ->
  remove_resting (Order.id o) ((k, l) :: m) =
  Some (o, match rest with
           | [] => m
           | _ :: _ =>
               (k, PriceLevel.mk (PriceLevel.price l)
                     (u32 (PriceLevel.total_quantity l - Order.quantity o)) rest)
               :: m
           end).
Proof. intros H. simpl. rewrite H. simpl. rewrite Z.eqb_refl. reflexivity. Qed.

Lemma remove_resting_keys (P : Q -> Prop) (i : Z) (m m' : levels) (o : Order.t) :
  remove_resting i m = Some (o, m') ->
  Forall (fun kl => P kl.1) m -> Forall (fun kl => P kl.1) m'.
Proof.
  revert m'. induction m as [|[k l] m IH]; intros m' H Hm; simpl in H.
  - discriminate.
  - apply Forall_cons in Hm as [Hk Hm].
    destruct (find_erase i (PriceLevel.orders l)) as [[y rest]|].
    + inversion H; subst. destruct rest; [exact Hm|]. constructor; assumption.
    + destruct (remove_resting i m) as [[y m'']|]; [|discriminate].
      inversion H; subst. constructor; [exact Hk | exact (IH m'' eq_refl Hm)].
Qed.

Lemma remove_resting_sorted (comp : Q -> Q -> bool) (i : Z) (m m' : levels)
    (o : Order.t) :
  remove_resting i m = Some (o, m') -> sorted_by comp m -> sorted_by comp m'.
Proof.
  unfold sorted_by.
  revert m'. induction m as [|[k l] m IH]; intros m' H Hm; simpl in H.
  - discriminate.
  - apply StronglySorted_inv in Hm as [Hs Hk].
    destruct (find_erase i (PriceLevel.orders l)) as [[y rest]|].
    + inversion H; subst. destruct rest; [exact Hs|]. constructor; assumption.
    + destruct (remove_resting i m) as [[y m'']|] eqn:E; [|discriminate].
      inversion H; subst. constructor; [exact (IH m'' eq_refl Hs)|].
      exact (remove_resting_keys (fun x => comp k x = true) _ _ _ _ E Hk).
Qed.

Lemma remove_resting_first_key (comp : Q -> Q -> bool) (i : Z) (m m' : levels)
    (o : Order.t) :
  remove_resting i m = Some (o, m') -> sorted_by comp m ->
  m' = [] \/ first_key m' = first_key m \/
  comp (first_key m) (first_key m') = true.
Proof.
  unfold sorted_by. intros H Hm. destruct m as [|[k l] m]; simpl in H.
  - discriminate.
  - apply StronglySorted_inv in Hm as [_ Hk].
    destruct (find_erase i (PriceLevel.orders l)) as [[y rest]|].
    + inversion H; subst. destruct rest.
      * destruct m as [|[k' l'] m0]; [left; reflexivity|].
        right. right. apply Forall_cons in Hk as [Hk _]. exact Hk.
      * right. left. reflexivity.
    + destruct (remove_resting i m) as [[y m'']|]; [|discriminate].
      inversion H; subst. right. left. reflexivity.
Qed.

Lemma side_quantity_cons (k : Q) (l : PriceLevel.t) (m : levels) :
  side_quantity ((k, l) :: m) = PriceLevel.total_quantity l + side_quantity m.
Proof. reflexivity. Qed.

Lemma remove_resting_full (i : Z) (m m' : levels) (o : Order.t) :
  remove_resting i m = Some (o, m') ->
  Forall (fun kl => level_full kl.2) m -> side_quantity m < 2 ^ 32 ->
  Forall (fun kl => level_full kl.2) m' /\
  side_quantity m' = side_quantity m - Order.quantity o /\
  0 < Order.quantity o.
Proof.
  revert m'. induction m as [|[k l] m IH]; intros m' H Hm Hlt; simpl in H.
  - discriminate.
  - apply Forall_cons in Hm as [Hl Hm]. simpl in Hl, Hlt.
    pose proof (side_quantity_nonneg _ Hm) as Hge.
    destruct Hl as (Hne & Hall & Ht). rewrite (side_quantity_cons k l).
    destruct (find_erase i (PriceLevel.orders l)) as [[y rest]|] eqn:E.
    + inversion H; subst.
      pose proof (find_erase_sum _ _ _ _ E) as Hsum.
      destruct (find_erase_elem _ _ _ _ E) as (_ & Ho & Hsub).
      assert (Hqo : 0 < Order.quantity o).
      { rewrite Forall_forall in Hall. exact (Hall o Ho). }
      assert (Hrest : Forall (fun o => 0 < Order.quantity o) rest).
      { rewrite Forall_forall in Hall |- *. intros x Hx. exact (Hall x (Hsub x Hx)). }
      pose proof (sum_quantity_positive _ Hrest) as [Hr0 Hr1].
      destruct rest as [|r rest].
      * simpl in Hsum. split; [exact Hm|]. split; [lia | exact Hqo].
      * split; [|split; [|exact Hqo]].
        -- constructor; [|exact Hm]. unfold level_full. simpl.
           split; [discriminate|]. split; [exact Hrest|].
           rewrite u32_small by lia. simpl in Hsum. lia.
        -- rewrite side_quantity_cons. simpl. rewrite u32_small by lia. lia.
    + destruct (remove_resting i m) as [[y m'']|]; [|discriminate].
      inversion H; subst.
      pose proof (sum_quantity_positive _ Hall) as [Hs0 _].
      destruct (IH m'' eq_refl Hm ltac:(lia)) as (H1 & H2 & H3).
      split; [|split; [|exact H3]].
      * constructor; [|exact H1]. repeat split; assumption.
      * rewrite side_quantity_cons. lia.
Qed.

(** ** What a book operation leaves *)

Lemma shrunk_side_resting (m m' : levels) (x : Order.t) :
  shrunk_side m m' -> x ∈ resting m' -> x ∈ resting m.
Proof.
  intros [->|(i & o & H)] Hx; [exact Hx|].
  exact (proj2 (proj2 (remove_resting_elem _ _ _ _ H)) x Hx).
Qed.

Lemma shrunk_resting (b b' : OrderBook) (x : Order.t) :
  shrunk b b' -> x ∈ resting_orders b' -> x ∈ resting_orders b.
Proof.
  intros (Hb & Ha) Hx. unfold resting_orders in *.
  apply elem_of_app in Hx as [Hx|Hx]; apply elem_of_app.
  - left. exact (shrunk_side_resting _ _ _ Hb Hx).
  - right. exact (shrunk_side_resting _ _ _ Ha Hx).
Qed.

Lemma cancel_order_facts (i : Z) (b : OrderBook) :
  book_mutex_ b = false ->
  exists b',
    cancel_order i b = inr b' /\ book_mutex_ b' = false /\
    sequence_number_ b' = sequence_number_ b /\
    match remove_resting i (bids_ b) with
    | Some (_, B') => bids_ b' = B' /\ asks_ b' = asks_ b /\ cached b'
    | None =>
        bids_ b' = bids_ b /\
        match remove_resting i (asks_ b) with
        | Some (_, A') => asks_ b' = A' /\ cached b'
        | None => b' = b
        end
    end.
Proof.
  intros Hf. unfold cancel_order. rewrite lock_free by exact Hf. cbn [bind].
  change (bids_ (set_mutex true b)) with (bids_ b).
  change (asks_ (set_mutex true b)) with (asks_ b).
  destruct (remove_resting i (bids_ b)) as [[x B']|].
  - eexists. split; [reflexivity|]. repeat split.
  - destruct (remove_resting i (asks_ b)) as [[x A']|].
    + eexists. split; [reflexivity|]. repeat split.
    + exists b. split.
      * destruct b; simpl in *; subst; reflexivity.
      * repeat split; assumption.
Qed.

Lemma cancel_order_shrunk (i : Z) (b b' : OrderBook) :
  book_mutex_ b = false -> cancel_order i b = inr b' ->
  shrunk b b' /\ book_mutex_ b' = false /\ (cached b -> cached b') /\
  sequence_number_ b' = sequence_number_ b.
Proof.
  intros Hf H. destruct (cancel_order_facts i b Hf) as (b0 & H0 & Hf0 & Hs & Hm).
  rewrite H0 in H. inversion H; subst b0. clear H.
  unfold shrunk.
  destruct (remove_resting i (bids_ b)) as [[x B']|] eqn:EB.
  - destruct Hm as (HB & HA & Hc). rewrite HB, HA.
    split; [|split; [exact Hf0 | split; [intros _; exact Hc | exact Hs]]].
    split; [right; exists i, x; exact EB | left; reflexivity].
  - destruct Hm as (HB & Hm). rewrite HB.
    destruct (remove_resting i (asks_ b)) as [[x A']|] eqn:EA.
    + destruct Hm as (HA & Hc). rewrite HA.
      split; [|split; [exact Hf0 | split; [intros _; exact Hc | exact Hs]]].
      split; [left; reflexivity | right; exists i, x; exact EA].
    + subst b'.
      split; [|split; [exact Hf0 | split; [intros Hc; exact Hc | reflexivity]]].
      split; left; reflexivity.
Qed.

Lemma add_order_facts (o : Order.t) (b : OrderBook) :
  book_mutex_ b = false ->
  exists b',
    add_order o b = inr b' /\ book_mutex_ b' = false /\ cached b' /\
    sequence_number_ b' = u64 (sequence_number_ b + 1) /\
    let push :=
      push_order (Order.price o) (Order.quantity o)
                 (Order.with_id (u64 (sequence_number_ b + 1)) o) in
    match Order.side o with
    | BUY =>
        bids_ b' = subscript greater (Order.price o) push (bids_ b) /\
        asks_ b' = asks_ b
    | SELL =>
        bids_ b' = bids_ b /\
        asks_ b' = subscript less (Order.price o) push (asks_ b)
    end.
Proof.
  intros Hf. unfold add_order. rewrite lock_free by exact Hf. cbn [bind].
  eexists. split; [reflexivity|].
  destruct (Order.side o); repeat split.
Qed.

(** ** Market orders *)

Lemma shrunk_refl (b : OrderBook) : shrunk b b.
Proof. split; left; reflexivity. Qed.

(** C2, as amended.  A market order does not rest and is not queued again:
    the book of its symbol keeps its sequence number and every order that
    rests in it afterwards rested before.  At most one execution is
    emitted, against the first level of the opposite side only, at the
    cached best price of that side, for the minimum of the order's quantity
    and that level's [total_quantity], and tagged with the order; none is
    emitted when that price is not positive, the side is empty or the
    minimum is 0. *)
Theorem market_order_best_level (o : Order.t) (e : MatchingEngine)
    (b : OrderBook) :
  Order.type o = MARKET ->
  order_books_ e !! Order.symbol o = Some b -> book_mutex_ b = false ->
  exists e' xs b',
    process_order o e = inr (e', xs) /\
    order_books_ e' !! Order.symbol o = Some b' /\
    order_queue_ e' = order_queue_ e /\
    sequence_number_ b' = sequence_number_ b /\
    (forall x, x ∈ resting_orders b' -> x ∈ resting_orders b) /\
    xs = match best_opposite (Order.side o) b with
         | Some (px, l) =>
             let q := Z.min (Order.quantity o) (PriceLevel.total_quantity l) in
             if 0 <? q then
               [Execution.mk (Order.id o) (u64 (execution_id_counter_ e + 1))
                  (Order.symbol o) (Some (Order.side o)) px q
                  (Order.trader_id o)]
             else []
         | None => []
         end.
Proof.
  intros Ht Hlk Hf.
  set (P := fun (r : result (MatchingEngine * list Execution.t))
                (expected : list Execution.t) =>
         exists e' xs b',
           r = inr (e', xs) /\
           order_books_ e' !! Order.symbol o = Some b' /\
           order_queue_ e' = order_queue_ e /\
           sequence_number_ b' = sequence_number_ b /\
           (forall x, x ∈ resting_orders b' -> x ∈ resting_orders b) /\
           xs = expected).
  match goal with |- exists e' xs b', _ /\ _ /\ _ /\ _ /\ _ /\ xs = ?x =>
    change (P (process_order o e) x) end.
  assert (Hsame : P (ret (e, [])) []).
  { exists e, [], b. repeat split; auto. }
  assert (Hcancel : forall i x e0, order_queue_ e0 = order_queue_ e ->
            P (order_book <- cancel_order i b ;;
               ret (put_order_book (Order.symbol o) order_book e0, [x])) [x]).
  { intros i x e0 Hq. destruct (cancel_order_returns i b Hf) as [b1 H1].
    destruct (cancel_order_shrunk i b b1 Hf H1) as (Hsh & _ & _ & Hseq).
    rewrite H1. cbn [bind ret]. eexists _, _, b1. split; [reflexivity|].
    split; [apply lookup_insert_eq|]. split; [exact Hq|].
    split; [exact Hseq|]. split; [|reflexivity].
    intros y. exact (shrunk_resting b b1 y Hsh). }
  destruct (getters_free b Hf) as (Gb & Ga & Gbl & Gal).
  unfold process_order. rewrite Ht.
  unfold process_market_order, get_order_book, best_opposite. rewrite Hlk.
  destruct (Order.side o).
  - rewrite Ga. cbn [bind].
    destruct (Qltb 0 (best_ask_ b)); [|exact Hsame].
    rewrite Gal. cbn [bind].
    destruct (asks_ b) as [|[ka la] A]; [exact Hsame|].
    rewrite first_level. cbn [snd]. cbv zeta.
    case_positive; [|exact Hsame].
    cbn [generate_execution_id].
    destruct (PriceLevel.orders la) as [|oa ra].
    + cbn [bind ret]. eexists _, _, b. split; [reflexivity|].
      split; [apply lookup_insert_eq|]. repeat split; auto.
    + apply Hcancel. reflexivity.
  - rewrite Gb. cbn [bind].
    destruct (Qltb 0 (best_bid_ b)); [|exact Hsame].
    rewrite Gbl. cbn [bind].
    destruct (bids_ b) as [|[kb lb] B]; [exact Hsame|].
    rewrite first_level. cbn [snd]. cbv zeta.
    case_positive; [|exact Hsame].
    cbn [generate_execution_id].
    destruct (PriceLevel.orders lb) as [|ob rb].
    + cbn [bind ret]. eexists _, _, b. split; [reflexivity|].
      split; [apply lookup_insert_eq|]. repeat split; auto.
    + apply Hcancel. reflexivity.
Qed.

Lemma market_order_best_level_witness :
  Order.type (Order.with_id 2 (market_order SELL 100 "T2")) = MARKET /\
  order_books_ engine_one_bid !! "AAPL" = Some one_bid_book /\
  book_mutex_ one_bid_book = false /\
  exists e' xs,
    process_order (Order.with_id 2 (market_order SELL 100 "T2")) engine_one_bid
      = inr (e', xs) /\
    xs = [Execution.mk 2 1 "AAPL" (Some SELL) 150 100 "T2"].
Proof.
  assert (H1 : Order.type (Order.with_id 2 (market_order SELL 100 "T2")) = MARKET)
    by reflexivity.
  assert (H2 : order_books_ engine_one_bid !! "AAPL" = Some one_bid_book)
    by reflexivity.
  assert (H3 : book_mutex_ one_bid_book = false) by reflexivity.
  split; [exact H1|]. split; [exact H2|]. split; [exact H3|].
  destruct (market_order_best_level _ engine_one_bid one_bid_book H1 H2 H3)
    as (e' & xs & b' & Hp & _ & _ & _ & _ & Hxs).
  exists e', xs. split; [exact Hp | exact Hxs].
Defined.

(** C2 as stated fails on scenario S3: MARKET BUY 60 against 90 resting
    units executes 10, at 101 only, and the levels at 102 and 103 are not
    visited. *)
Lemma market_order_counterexample :
  exists b e' b' xs,
    order_books_ engine_three_asks !! "AAPL" = Some b /\
    side_quantity (asks_ b) = 90 /\
    process_order (Order.with_id 4 (market_order BUY 60 "T4")) engine_three_asks
      = inr (e', xs) /\
    order_books_ e' !! "AAPL" = Some b' /\
    map fst (asks_ b') = [102%Q; 103%Q] /\
    executed xs = 10 /\
    executed xs <> Z.min 60 (side_quantity (asks_ b)).
Proof.
  eexists _, _, _, _. split; [vm_compute; reflexivity|].
  split; [reflexivity|]. split; [vm_compute; reflexivity|].
  split; [vm_compute; reflexivity|]. split; [reflexivity|].
  split; [reflexivity|]. vm_compute. discriminate.
Qed.

(** ** The crossing invariant *)

Lemma greater_trans (a b c : Q) :
  greater a b = true -> greater b c = true -> greater a c = true.
Proof. unfold greater. rewrite !Qltb_true. lra. Qed.

Lemma less_trans (a b c : Q) :
  less a b = true -> less b c = true -> less a c = true.
Proof. unfold less. rewrite !Qltb_true. lra. Qed.

Lemma shrunk_side_inv (comp : Q -> Q -> bool) (m m' : levels) :
  shrunk_side m m' -> side_inv comp m -> side_quantity m < 2 ^ 32 ->
  side_inv comp m' /\ side_quantity m' <= side_quantity m.
Proof.
  intros [->|(i & o & H)] (Hs & Hk & Hl) Hlt.
  - split; [repeat split; assumption | lia].
  - destruct (remove_resting_full _ _ _ _ H Hl Hlt) as (Hl' & Hq & Hpos).
    split; [|lia]. split; [exact (remove_resting_sorted _ _ _ _ _ H Hs)|].
    split; [exact (remove_resting_keys _ _ _ _ _ H Hk) | exact Hl'].
Qed.

Lemma shrunk_side_empty (m' : levels) : shrunk_side [] m' -> m' = [].
Proof. intros [->|(i & o & H)]; [reflexivity | discriminate]. Qed.

Lemma shrunk_side_first_key (comp : Q -> Q -> bool) (m m' : levels) :
  shrunk_side m m' -> sorted_by comp m ->
  m' = [] \/ first_key m' = first_key m \/
  comp (first_key m) (first_key m') = true.
Proof.
  intros [->|(i & o & H)] Hs.
  - right. left. reflexivity.
  - exact (remove_resting_first_key _ _ _ _ _ H Hs).
Qed.

Lemma shrunk_uncrossed (B A B' A' : levels) :
  sorted_by greater B -> sorted_by less A ->
  shrunk_side B B' -> shrunk_side A A' ->
  uncrossed B A -> uncrossed B' A'.
Proof.
  intros HsB HsA HB HA [->|[->|Hlt]].
  - left. exact (shrunk_side_empty _ HB).
  - right. left. exact (shrunk_side_empty _ HA).
  - destruct (shrunk_side_first_key _ _ _ HB HsB) as [E|[E|E]];
      [left; exact E | |];
      (destruct (shrunk_side_first_key _ _ _ HA HsA) as [F|[F|F]];
       [right; left; exact F | |]);
      right; right; unfold greater, less in *;
      rewrite ?Qltb_true in *; rewrite ?E, ?F; lra.
Qed.

Lemma shrunk_wf (b b' : OrderBook) :
  book_wf b -> shrunk b b' -> book_mutex_ b' = false -> cached b' ->
  sequence_number_ b <= sequence_number_ b' ->
  book_wf b'.
Proof.
  intros [Hf Hc Hs HB HA Hq HiB HiA Hd] [ShB ShA] Hf' Hc' Hseq.
  pose proof (side_quantity_nonneg _ (proj2 (proj2 HB))) as HqB.
  pose proof (side_quantity_nonneg _ (proj2 (proj2 HA))) as HqA.
  destruct (shrunk_side_inv _ _ _ ShB HB ltac:(lia)) as [HB' HqB'].
  destruct (shrunk_side_inv _ _ _ ShA HA ltac:(lia)) as [HA' HqA'].
  constructor; try assumption.
  - lia.
  - lia.
  - intros x Hx. pose proof (HiB x (shrunk_side_resting _ _ _ ShB Hx)). lia.
  - intros x Hx. pose proof (HiA x (shrunk_side_resting _ _ _ ShA Hx)). lia.
  - intros x y Hx Hy.
    exact (Hd x y (shrunk_side_resting _ _ _ ShB Hx)
                  (shrunk_side_resting _ _ _ ShA Hy)).
Qed.

Lemma cancel_order_wf (i : Z) (b b' : OrderBook) :
  book_wf b -> cancel_order i b = inr b' -> book_wf b' /\ shrunk b b'.
Proof.
  intros Hwf H.
  destruct (cancel_order_shrunk i b b' (wf_free b Hwf) H) as (Hsh & Hf & Hc & Hs).
  split; [|exact Hsh].
  apply (shrunk_wf b b' Hwf Hsh Hf (Hc (wf_cached b Hwf))). lia.
Qed.

Lemma add_order_wf (o : Order.t) (b : OrderBook) :
  book_wf b ->
  (0 < Order.price o)%Q -> 0 < Order.quantity o ->
  side_quantity (bids_ b) + side_quantity (asks_ b) + Order.quantity o < 2 ^ 32 ->
  sequence_number_ b + 1 < 2 ^ 64 ->
  exists b',
    add_order o b = inr b' /\ book_wf b' /\
    sequence_number_ b' = sequence_number_ b + 1 /\
    let push :=
      push_order (Order.price o) (Order.quantity o)
                 (Order.with_id (sequence_number_ b + 1) o) in
    match Order.side o with
    | BUY =>
        bids_ b' = subscript greater (Order.price o) push (bids_ b) /\
        asks_ b' = asks_ b
    | SELL =>
        bids_ b' = bids_ b /\
        asks_ b' = subscript less (Order.price o) push (asks_ b)
    end.
Proof.
  intros [Hf Hc Hs (HsB & HkB & HlB) (HsA & HkA & HlA) Hq HiB HiA Hd]
         Hp Hpos Hvol Hseq.
  destruct (add_order_facts o b Hf) as (b' & Hadd & Hf' & Hc' & Hs' & Hsides).
  rewrite u64_small in Hs', Hsides by lia.
  exists b'. split; [exact Hadd|]. split; [|split; [exact Hs' | exact Hsides]].
  pose proof (side_quantity_nonneg _ HlB) as HqB.
  pose proof (side_quantity_nonneg _ HlA) as HqA.
  set (new_order := Order.with_id (sequence_number_ b + 1) o) in *.
  assert (Hnq : Order.quantity new_order = Order.quantity o) by reflexivity.
  assert (Hnid : Order.id new_order = sequence_number_ b + 1) by reflexivity.
  cbv zeta in Hsides.
  destruct (Order.side o); destruct Hsides as [EB EA].
  - destruct (subscript_full greater (Order.price o) (Order.quantity o)
                new_order (bids_ b) Hnq Hpos HlB ltac:(lia)) as [Hfull Hsum].
    constructor; try assumption; rewrite ?EB, ?EA, ?Hs'.
    + lia.
    + split; [apply subscript_sorted; [exact greater_trans | exact HsB]|].
      split; [apply (subscript_keys greater (fun k => (0 < k)%Q)); assumption|].
      exact Hfull.
    + repeat split; assumption.
    + rewrite Hsum. lia.
    + intros x Hx. apply subscript_resting in Hx as [->|Hx]; [lia|].
      pose proof (HiB x Hx). lia.
    + intros x Hx. pose proof (HiA x Hx). lia.
    + intros x y Hx Hy. apply subscript_resting in Hx as [->|Hx].
      * pose proof (HiA y Hy). lia.
      * exact (Hd x y Hx Hy).
  - destruct (subscript_full less (Order.price o) (Order.quantity o)
                new_order (asks_ b) Hnq Hpos HlA ltac:(lia)) as [Hfull Hsum].
    constructor; try assumption; rewrite ?EB, ?EA, ?Hs'.
    + lia.
    + repeat split; assumption.
    + split; [apply subscript_sorted; [exact less_trans | exact HsA]|].
      split; [apply (subscript_keys less (fun k => (0 < k)%Q)); assumption|].
      exact Hfull.
    + rewrite Hsum. lia.
    + intros x Hx. pose proof (HiB x Hx). lia.
    + intros x Hx. apply subscript_resting in Hx as [->|Hx]; [lia|].
      pose proof (HiA x Hx). lia.
    + intros x y Hx Hy. apply subscript_resting in Hy as [->|Hy].
      * pose proof (HiB x Hx). lia.
      * exact (Hd x y Hx Hy).
Qed.

Lemma first_key_positive (m : levels) :
  Forall (fun kl => (0 < kl.1)%Q) m -> Qle_bool (first_key m) 0 = true -> m = [].
Proof.
  intros Hk H. destruct m as [|[k l] m]; [reflexivity|].
  apply Forall_cons in Hk as [Hk _]. apply Qle_bool_iff in H. simpl in *. lra.
Qed.

(** One call of [match_orders] on a well-formed book: either nothing is
    matched and the book is not crossed, or the first order of the best bid
    level and the first order of the best ask level are removed. *)
Lemma match_orders_wf (s : string) (e : MatchingEngine) (b : OrderBook) :
  order_books_ e !! s = Some b -> book_wf b ->
  exists e' xs b',
    match_orders s e = inr (e', xs) /\
    order_books_ e' = <[s := b']> (order_books_ e) /\
    book_wf b' /\ sequence_number_ b' = sequence_number_ b /\
    ((b' = b /\ uncrossed (bids_ b) (asks_ b)) \/
     exists kb lb B ob rb ka la A oa ra,
       bids_ b = (kb, lb) :: B /\ PriceLevel.orders lb = ob :: rb /\
       asks_ b = (ka, la) :: A /\ PriceLevel.orders la = oa :: ra /\
       (ka <= kb)%Q /\
       remove_resting (Order.id ob) (bids_ b) = Some (ob, bids_ b') /\
       remove_resting (Order.id oa) (asks_ b) = Some (oa, asks_ b')).
Proof.
  intros Hlk Hwf. pose proof Hwf as [Hf [Hcb Hca] Hs HB HA Hq HiB HiA Hd].
  destruct (getters_free b Hf) as (Gb & Ga & Gbl & Gal).
  set (P := fun (r : result (MatchingEngine * list Execution.t)) =>
    exists e' xs b',
      r = inr (e', xs) /\
      order_books_ e' = <[s := b']> (order_books_ e) /\
      book_wf b' /\ sequence_number_ b' = sequence_number_ b /\
      ((b' = b /\ uncrossed (bids_ b) (asks_ b)) \/
       exists kb lb B ob rb ka la A oa ra,
         bids_ b = (kb, lb) :: B /\ PriceLevel.orders lb = ob :: rb /\
         asks_ b = (ka, la) :: A /\ PriceLevel.orders la = oa :: ra /\
         (ka <= kb)%Q /\
         remove_resting (Order.id ob) (bids_ b) = Some (ob, bids_ b') /\
         remove_resting (Order.id oa) (asks_ b) = Some (oa, asks_ b'))).
  change (P (match_orders s e)).
  assert (Hquiet : uncrossed (bids_ b) (asks_ b) -> P (ret (e, []))).
  { intros Hu. exists e, (@nil Execution.t), b. split; [reflexivity|].
    split; [symmetry; apply insert_id; exact Hlk|].
    split; [exact Hwf|]. split; [reflexivity|]. left. split; [reflexivity | exact Hu]. }
  unfold match_orders, get_order_book. rewrite Hlk, Gb, Ga. cbn [bind].
  rewrite Hcb, Hca.
  destruct (Qle_bool (first_key (bids_ b)) 0) eqn:T1.
  { apply Hquiet. left. exact (first_key_positive _ (proj1 (proj2 HB)) T1). }
  destruct (Qle_bool (first_key (asks_ b)) 0) eqn:T2.
  { apply Hquiet. right. left. exact (first_key_positive _ (proj1 (proj2 HA)) T2). }
  cbn [orb].
  destruct (Qle_bool (first_key (asks_ b)) (first_key (bids_ b))) eqn:T3.
  2:{ apply Hquiet. right. right. apply Qle_bool_false in T3. exact T3. }
  rewrite Gbl, Gal. cbn [bind].
  destruct (bids_ b) as [|[kb lb] B] eqn:EB; [discriminate T1|].
  destruct (asks_ b) as [|[ka la] A] eqn:EA; [discriminate T2|].
  rewrite !first_level. cbn [snd].
  destruct HB as (_ & _ & HlB). destruct HA as (_ & _ & HlA).
  apply Forall_cons in HlB as [Hlb _]. apply Forall_cons in HlA as [Hla _].
  pose proof (level_full_positive _ Hlb) as Hpb.
  pose proof (level_full_positive _ Hla) as Hpa. simpl in Hpb, Hpa.
  destruct (0 <? PriceLevel.total_quantity lb `min` PriceLevel.total_quantity la)
    eqn:Tq; [|apply Z.ltb_ge in Tq; lia].
  cbn [generate_execution_id].
  destruct Hlb as (Hnb & _). destruct Hla as (Hna & _). simpl in Hnb, Hna.
  destruct (PriceLevel.orders lb) as [|ob rb] eqn:Eob; [congruence|].
  destruct (PriceLevel.orders la) as [|oa ra] eqn:Eoa; [congruence|].
  cbn [front bind ret].
  pose proof (remove_resting_head kb lb B ob rb Eob) as Rb.
  pose proof (remove_resting_head ka la A oa ra Eoa) as Ra.
  rewrite <- EB in Rb. rewrite <- EA in Ra.
  destruct (cancel_order_facts (Order.id ob) b Hf) as (b1 & C1 & Hf1 & Hs1 & F1).
  rewrite Rb in F1. destruct F1 as (EB1 & EA1 & Hc1).
  destruct (cancel_order_wf _ _ _ Hwf C1) as [Hwf1 _].
  rewrite C1. cbn [bind].
  assert (Hnone : remove_resting (Order.id oa) (bids_ b1) = None).
  { apply remove_resting_none. intros x Hx.
    apply (wf_disjoint b1 Hwf1 x oa Hx).
    rewrite EA1, EA, resting_cons, Eoa. left. }
  destruct (cancel_order_facts (Order.id oa) b1 Hf1) as (b2 & C2 & Hf2 & Hs2 & F2).
  rewrite Hnone, EA1, Ra in F2. destruct F2 as (EB2 & EA2 & Hc2).
  destruct (cancel_order_wf _ _ _ Hwf1 C2) as [Hwf2 _].
  rewrite C2. cbn [bind].
  eexists _, _, b2. split; [reflexivity|]. split; [reflexivity|].
  split; [exact Hwf2|]. split; [congruence|]. right.
  exists kb, lb, B, ob, rb, ka, la, A, oa, ra.
  rewrite <- EB, <- EA.
  apply Qle_bool_iff in T3. simpl in T3.
  repeat split; try assumption; try reflexivity.
  - rewrite EB2, EB1. exact Rb.
  - rewrite EA2. exact Ra.
Qed.

Lemma process_market_order_wf (o : Order.t) (e : MatchingEngine)
    (b : OrderBook) :
  order_books_ e !! Order.symbol o = Some b -> book_wf b ->
  exists e' xs b',
    process_market_order o e = inr (e', xs) /\
    order_books_ e' = <[Order.symbol o := b']> (order_books_ e) /\
    book_wf b' /\ shrunk b b'.
Proof.
  intros Hlk Hwf. pose proof (wf_free b Hwf) as Hf.
  set (P := fun (r : result (MatchingEngine * list Execution.t)) =>
    exists e' xs b',
      r = inr (e', xs) /\
      order_books_ e' = <[Order.symbol o := b']> (order_books_ e) /\
      book_wf b' /\ shrunk b b').
  change (P (process_market_order o e)).
  assert (Hsame : P (ret (e, []))).
  { exists e, [], b. split; [reflexivity|].
    split; [symmetry; apply insert_id; exact Hlk|].
    split; [exact Hwf | apply shrunk_refl]. }
  assert (Hcancel : forall i x e0, order_books_ e0 = order_books_ e ->
            P (order_book <- cancel_order i b ;;
               ret (put_order_book (Order.symbol o) order_book e0, [x]))).
  { intros i x e0 He0. destruct (cancel_order_returns i b Hf) as [b1 H1].
    destruct (cancel_order_wf i b b1 Hwf H1) as [Hwf1 Hsh].
    rewrite H1. cbn [bind ret]. eexists _, _, b1. split; [reflexivity|].
    split; [simpl; rewrite He0; reflexivity|]. split; assumption. }
  destruct (getters_free b Hf) as (Gb & Ga & Gbl & Gal).
  unfold process_market_order, get_order_book. rewrite Hlk.
  destruct (Order.side o).
  - rewrite Ga. cbn [bind].
    destruct (Qltb 0 (best_ask_ b)); [|exact Hsame].
    rewrite Gal. cbn [bind].
    destruct (asks_ b) as [|[ka la] A]; [exact Hsame|].
    rewrite first_level. cbn [snd].
    case_positive; [|exact Hsame].
    cbn [generate_execution_id].
    destruct (PriceLevel.orders la) as [|oa ra].
    + cbn [bind ret]. eexists _, _, b. split; [reflexivity|].
      split; [reflexivity|]. split; [exact Hwf | apply shrunk_refl].
    + apply Hcancel. reflexivity.
  - rewrite Gb. cbn [bind].
    destruct (Qltb 0 (best_bid_ b)); [|exact Hsame].
    rewrite Gbl. cbn [bind].
    destruct (bids_ b) as [|[kb lb] B]; [exact Hsame|].
    rewrite first_level. cbn [snd].
    case_positive; [|exact Hsame].
    cbn [generate_execution_id].
    destruct (PriceLevel.orders lb) as [|ob rb].
    + cbn [bind ret]. eexists _, _, b. split; [reflexivity|].
      split; [reflexivity|]. split; [exact Hwf | apply shrunk_refl].
    + apply Hcancel. reflexivity.
Qed.

Lemma shrunk_inv (b b' : OrderBook) :
  book_inv b -> book_wf b' -> shrunk b b' -> book_inv b'.
Proof.
  intros [Hwf Hu] Hwf' [ShB ShA]. split; [exact Hwf'|].
  exact (shrunk_uncrossed _ _ _ _ (proj1 (wf_bids b Hwf)) (proj1 (wf_asks b Hwf))
           ShB ShA Hu).
Qed.

(** The level that [operator[]] creates in front of a side, with the order
    pushed into it. *)
Lemma subscript_front (comp : Q -> Q -> bool) (p : Q)
    (f : PriceLevel.t -> PriceLevel.t) (m : levels) :
  (m = [] \/ comp p (first_key m) = true) ->
  subscript comp p f m = (p, f (PriceLevel.make 0)) :: m.
Proof.
  destruct m as [|[k l] m]; simpl; [reflexivity|].
  intros [H|H]; [discriminate | rewrite H; reflexivity].
Qed.

Lemma subscript_keeps_front (comp : Q -> Q -> bool) (p : Q)
    (f : PriceLevel.t -> PriceLevel.t) (m : levels) :
  m <> [] -> comp p (first_key m) = false ->
  first_key (subscript comp p f m) = first_key m.
Proof.
  intros Hne H. rewrite subscript_first_key.
  destruct m as [|[k l] m]; [congruence|]. simpl in H. rewrite H. reflexivity.
Qed.

Lemma added_then_removed (comp : Q -> Q -> bool) (p : Q) (q : Z)
    (o x : Order.t) (m m0 m' : levels) (k : Q) (l : PriceLevel.t)
    (rest : list Order.t) :
  (m = [] \/ comp p (first_key m) = true) ->
  subscript comp p (push_order p q o) m = (k, l) :: m0 ->
  PriceLevel.orders l = x :: rest ->
  remove_resting (Order.id x) ((k, l) :: m0) = Some (x, m') ->
  m' = m.
Proof.
  intros Hfront Hsub Hl Hr. rewrite subscript_front in Hsub by exact Hfront.
  inversion Hsub; subst k l m0. simpl in Hl. inversion Hl; subst x rest.
  rewrite (remove_resting_head _ _ _ o []) in Hr by reflexivity.
  inversion Hr. reflexivity.
Qed.

(** A limit order on a book that is well formed and not crossed. *)
Lemma process_limit_order (o : Order.t) (e : MatchingEngine) (b : OrderBook) :
  Order.type o <> MARKET ->
  order_books_ e !! Order.symbol o = Some b -> book_inv b ->
  (0 < Order.price o)%Q -> 0 < Order.quantity o ->
  side_quantity (bids_ b) + side_quantity (asks_ b) + Order.quantity o < 2 ^ 32 ->
  sequence_number_ b + 1 < 2 ^ 64 ->
  exists e' xs b',
    process_order o e = inr (e', xs) /\
    order_books_ e' = <[Order.symbol o := b']> (order_books_ e) /\
    book_inv b'.
Proof.
  intros Ht Hlk [Hwf Hu] Hp Hpos Hvol Hseq.
  destruct (add_order_wf o b Hwf Hp Hpos Hvol Hseq)
    as (b1 & Hadd & Hwf1 & Hs1 & Hsides).
  assert (Hbody : process_order o e =
            match_orders (Order.symbol o) (put_order_book (Order.symbol o) b1 e)).
  { unfold process_order, get_order_book. rewrite Hlk, Hadd.
    destruct (Order.type o); [congruence| | |]; reflexivity. }
  rewrite Hbody.
  destruct (match_orders_wf (Order.symbol o)
              (put_order_book (Order.symbol o) b1 e) b1
              (lookup_insert_eq _ _ _) Hwf1)
    as (e' & xs & b' & Hm & Hbooks & Hwf' & Hs' & Hcase).
  exists e', xs, b'. split; [exact Hm|].
  split; [rewrite Hbooks; simpl; apply insert_insert_eq|].
  split; [exact Hwf'|].
  destruct Hcase as [[-> Hu1]|Hcross]; [exact Hu1|].
  destruct Hcross as (kb & lb & B & ob & rb & ka & la & A & oa & ra
                      & EB & Eob & EA & Eoa & Hle & Rb & Ra).
  pose proof (wf_bids b Hwf) as (HsB & _).
  pose proof (wf_asks b Hwf) as (HsA & _).
  cbv zeta in Hsides.
  destruct (Order.side o); destruct Hsides as [EB1 EA1].
  - (* the bid that was added is the one removed *)
    assert (Hfront : bids_ b = [] \/
              greater (Order.price o) (first_key (bids_ b)) = true).
    { destruct (bids_ b) as [|[k0 l0] B0] eqn:E0; [left; reflexivity|]. right.
      destruct (greater (Order.price o) (first_key ((k0, l0) :: B0))) eqn:G;
        [reflexivity|]. exfalso.
      pose proof (subscript_keeps_front greater (Order.price o)
                    (push_order (Order.price o) (Order.quantity o)
                       (Order.with_id (sequence_number_ b + 1) o))
                    ((k0, l0) :: B0) ltac:(discriminate) G) as Hk.
      rewrite <- EB1, EB in Hk. simpl in Hk.
      destruct Hu as [Hu|[Hu|Hu]]; [discriminate| |].
      - rewrite <- EA1, EA in Hu. discriminate.
      - rewrite <- EA1, EA in Hu. simpl in Hu. subst kb. lra. }
    rewrite EB in Rb. rewrite EB in EB1. symmetry in EB1.
    pose proof (added_then_removed _ _ _ _ _ _ _ _ _ _ _ Hfront EB1 Eob Rb) as E.
    apply (shrunk_uncrossed (bids_ b) (asks_ b)); try assumption.
    + left. exact E.
    + right. exists (Order.id oa), oa. rewrite <- EA1. exact Ra.
  - (* the ask that was added is the one removed *)
    assert (Hfront : asks_ b = [] \/
              less (Order.price o) (first_key (asks_ b)) = true).
    { destruct (asks_ b) as [|[k0 l0] A0] eqn:E0; [left; reflexivity|]. right.
      destruct (less (Order.price o) (first_key ((k0, l0) :: A0))) eqn:G;
        [reflexivity|]. exfalso.
      pose proof (subscript_keeps_front less (Order.price o)
                    (push_order (Order.price o) (Order.quantity o)
                       (Order.with_id (sequence_number_ b + 1) o))
                    ((k0, l0) :: A0) ltac:(discriminate) G) as Hk.
      rewrite <- EA1, EA in Hk. simpl in Hk.
      destruct Hu as [Hu|[Hu|Hu]]; [|discriminate|].
      - rewrite <- EB1, EB in Hu. discriminate.
      - rewrite <- EB1, EB in Hu. simpl in Hu. subst ka. lra. }
    rewrite EA in Ra. rewrite EA in EA1. symmetry in EA1.
    pose proof (added_then_removed _ _ _ _ _ _ _ _ _ _ _ Hfront EA1 Eoa Ra) as E.
    apply (shrunk_uncrossed (bids_ b) (asks_ b)); try assumption.
    + right. exists (Order.id ob), ob. rewrite <- EB1. exact Rb.
    + left. exact E.
Qed.

Lemma book_inv_new (s : string) : book_inv (new_book s).
Proof.
  split; [|left; reflexivity].
  constructor; simpl; try reflexivity; try lia.
  - split; reflexivity.
  - repeat split; constructor.
  - repeat split; constructor.
  - intros x Hx. apply elem_of_nil in Hx. contradiction.
  - intros x Hx. apply elem_of_nil in Hx. contradiction.
  - intros x y Hx. apply elem_of_nil in Hx. contradiction.
Qed.

Lemma engine_inv_new : engine_inv new_engine.
Proof. intros s b H. simpl in H. rewrite lookup_empty in H. discriminate. Qed.

Lemma engine_inv_insert (s : string) (b : OrderBook) (e e' : MatchingEngine) :
  engine_inv e -> book_inv b ->
  order_books_ e' = <[s := b]> (order_books_ e) -> engine_inv e'.
Proof.
  intros He Hb Hbooks s' b' H. rewrite Hbooks in H.
  destruct (decide (s = s')) as [->|Hne].
  - rewrite lookup_insert_eq in H. inversion H; subst. exact Hb.
  - rewrite lookup_insert_ne in H by exact Hne. exact (He s' b' H).
Qed.

Lemma engine_inv_add_symbol (s : string) (e : MatchingEngine) :
  engine_inv e -> engine_inv (add_symbol s e).
Proof.
  intros He. unfold add_symbol. destruct (order_books_ e !! s); [exact He|].
  apply (engine_inv_insert s (new_book s) e); [exact He | apply book_inv_new|].
  reflexivity.
Qed.

(** [operator[]] on an absent symbol: the rest of [process_order] runs on
    the engine that holds the default-constructed book. *)
Lemma process_order_absent (o : Order.t) (e : MatchingEngine) :
  order_books_ e !! Order.symbol o = None ->
  process_order o e =
  process_order o (set_books (<[Order.symbol o := new_book ""]> (order_books_ e)) e).
Proof.
  intros H.
  unfold process_order, process_market_order, get_order_book. simpl.
  rewrite H, lookup_insert_eq.
  destruct (Order.type o); reflexivity.
Qed.

Lemma book_inv_not_crossed (b : OrderBook) : book_inv b -> not_crossed b.
Proof.
  intros [Hwf Hu]. destruct (wf_cached b Hwf) as [Hb Ha].
  destruct (getters_free b (wf_free b Hwf)) as (Gb & Ga & _).
  exists (best_bid_ b), (best_ask_ b). split; [exact Gb|]. split; [exact Ga|].
  rewrite Hb, Ha.
  destruct Hu as [->|[->|Hu]].
  - right. left. reflexivity.
  - right. right. reflexivity.
  - left. exact Hu.
Qed.

Lemma process_order_found (o : Order.t) (e : MatchingEngine) (b : OrderBook) :
  order_books_ e !! Order.symbol o = Some b -> book_inv b -> valid_intent o b ->
  exists e' xs b',
    process_order o e = inr (e', xs) /\
    order_books_ e' = <[Order.symbol o := b']> (order_books_ e) /\
    book_inv b'.
Proof.
  intros Hlk Hinv Hv.
  assert (Hdec : Order.type o = MARKET \/ Order.type o <> MARKET)
    by (destruct (Order.type o); auto; right; discriminate).
  destruct Hdec as [Ht|Ht].
  - destruct (process_market_order_wf o e b Hlk (proj1 Hinv))
      as (e' & xs & b' & Hp & Hbooks & Hwf' & Hsh).
    exists e', xs, b'. unfold process_order. rewrite Ht.
    split; [exact Hp|]. split; [exact Hbooks|].
    exact (shrunk_inv b b' Hinv Hwf' Hsh).
  - destruct Hv as [Hv|(Hp & Hq & Hvol & Hseq)]; [congruence|].
    exact (process_limit_order o e b Ht Hlk Hinv Hp Hq Hvol Hseq).
Qed.

(** C1, as amended.  Take an engine in which every book is well formed and
    not crossed, as it is in a new engine and after every step of this
    kind, and an intent that is a market order, or has a positive price and
    a positive quantity and overflows neither the 32-bit quantities nor the
    64-bit sequence number of its book.  Then [process_order] returns, every
    book is again well formed and not crossed, and on the book of the
    symbol [get_best_bid] is below [get_best_ask] or one of the two is 0. *)
Theorem process_order_not_crossed (o : Order.t) (e : MatchingEngine) :
  engine_inv e ->
  valid_intent o (get_order_book (Order.symbol o) e).1 ->
  exists e' xs b',
    process_order o e = inr (e', xs) /\
    engine_inv e' /\
    order_books_ e' !! Order.symbol o = Some b' /\
    not_crossed b'.
Proof.
  intros He Hv. unfold get_order_book in Hv.
  destruct (order_books_ e !! Order.symbol o) as [b|] eqn:Hlk; simpl in Hv.
  - destruct (process_order_found o e b Hlk (He _ _ Hlk) Hv)
      as (e' & xs & b' & Hp & Hbooks & Hinv).
    exists e', xs, b'. split; [exact Hp|].
    split; [exact (engine_inv_insert _ _ _ _ He Hinv Hbooks)|].
    split; [rewrite Hbooks; apply lookup_insert_eq|].
    exact (book_inv_not_crossed b' Hinv).
  - rewrite (process_order_absent o e Hlk).
    set (e1 := set_books (<[Order.symbol o := new_book ""]> (order_books_ e)) e).
    assert (He1 : engine_inv e1).
    { apply (engine_inv_insert (Order.symbol o) (new_book "") e);
        [exact He | apply book_inv_new | reflexivity]. }
    assert (Hlk1 : order_books_ e1 !! Order.symbol o = Some (new_book ""))
      by apply lookup_insert_eq.
    destruct (process_order_found o e1 (new_book "") Hlk1 (book_inv_new "") Hv)
      as (e' & xs & b' & Hp & Hbooks & Hinv).
    exists e', xs, b'. split; [exact Hp|].
    split; [exact (engine_inv_insert _ _ _ _ He1 Hinv Hbooks)|].
    split; [rewrite Hbooks; apply lookup_insert_eq|].
    exact (book_inv_not_crossed b' Hinv).
Qed.

Lemma one_bid_book_inv : book_inv one_bid_book.
Proof.
  split; [|right; left; reflexivity].
  constructor; simpl.
  - reflexivity.
  - split; reflexivity.
  - lia.
  - split; [repeat constructor|]. split; [repeat constructor|].
    constructor; [|constructor]. split; [discriminate|].
    split; [|reflexivity]. constructor; [simpl; lia | constructor].
  - repeat split; constructor.
  - reflexivity.
  - intros x Hx. apply list_elem_of_singleton in Hx. subst x. simpl. lia.
  - intros x Hx. apply elem_of_nil in Hx. contradiction.
  - intros x y _ Hy. apply elem_of_nil in Hy. contradiction.
Qed.

Lemma engine_one_bid_inv : engine_inv engine_one_bid.
Proof.
  apply (engine_inv_insert "AAPL" one_bid_book new_engine).
  - exact engine_inv_new.
  - exact one_bid_book_inv.
  - reflexivity.
Qed.

(** Scenario S1: the resting bid at 150 and the arriving ask at 150 are
    both removed and the book ends with both sides empty. *)
Lemma process_order_not_crossed_witness :
  engine_inv engine_one_bid /\
  valid_intent taker_sell (get_order_book (Order.symbol taker_sell) engine_one_bid).1 /\
  exists e' xs b',
    process_order taker_sell engine_one_bid = inr (e', xs) /\
    order_books_ e' !! "AAPL" = Some b' /\ not_crossed b'.
Proof.
  assert (Hv : valid_intent taker_sell
                 (get_order_book (Order.symbol taker_sell) engine_one_bid).1).
  { right. split; [reflexivity|]. split; [reflexivity|]. split; reflexivity. }
  split; [exact engine_one_bid_inv|]. split; [exact Hv|].
  destruct (process_order_not_crossed taker_sell engine_one_bid
              engine_one_bid_inv Hv) as (e' & xs & b' & Hp & _ & Hlk & Hn).
  exists e', xs, b'. split; [exact Hp|]. split; [exact Hlk | exact Hn].
Defined.

(** C1 as stated fails.  [match_orders] runs once per limit order and
    removes at most one order from each side.  (1) A limit order of
    quantity 0 at the best ask is added and matches nothing.  (2) Orders at
    negative prices are added and [match_orders] returns at its first test.
    (3) On a book that callers crossed through [add_order], one pair of
    orders is removed and the rest stays crossed.  (4) Two asks of 2^31
    units bring the 32-bit total of their level to 0, and a bid at their
    price matches nothing. *)
Lemma process_order_crossed_counterexample :
  (exists e' xs b',
     process_order (Order.with_id 2 (limit_order BUY 100 0 "T2"))
       (processed [Order.with_id 1 (limit_order SELL 100 10 "T1")]
                  (add_symbol "AAPL" new_engine)) = inr (e', xs) /\
     order_books_ e' !! "AAPL" = Some b' /\
     best_bid_ b' = 100%Q /\ best_ask_ b' = 100%Q /\ ~ not_crossed b') /\
  (exists e' xs b',
     process_order (Order.with_id 2 (limit_order BUY (-5) 10 "T2"))
       (processed [Order.with_id 1 (limit_order SELL (-10) 10 "T1")]
                  (add_symbol "AAPL" new_engine)) = inr (e', xs) /\
     order_books_ e' !! "AAPL" = Some b' /\
     best_bid_ b' = (-5)%Q /\ best_ask_ b' = (-10)%Q /\ ~ not_crossed b') /\
  (exists e' xs b',
     process_order (Order.with_id 1 (limit_order BUY 50 10 "T5"))
       crossed_by_callers = inr (e', xs) /\
     order_books_ e' !! "AAPL" = Some b' /\
     best_bid_ b' = 101%Q /\ best_ask_ b' = 100%Q /\ ~ not_crossed b') /\
  (exists e' xs b',
     process_order (Order.with_id 3 (limit_order BUY 100 1 "T3"))
       (processed [Order.with_id 1 (limit_order SELL 100 (2 ^ 31) "T1");
                   Order.with_id 2 (limit_order SELL 100 (2 ^ 31) "T2")]
                  (add_symbol "AAPL" new_engine)) = inr (e', xs) /\
     order_books_ e' !! "AAPL" = Some b' /\
     best_bid_ b' = 100%Q /\ best_ask_ b' = 100%Q /\ ~ not_crossed b').
Proof.
  split; [|split; [|split]].
  all: eexists _, _, _; split; [vm_compute; reflexivity|];
    split; [vm_compute; reflexivity|];
    split; [reflexivity|]; split; [reflexivity|];
    intros (bb & ba & Hb & Ha & H); vm_compute in Hb, Ha;
    inversion Hb; inversion Ha; subst bb ba;
    vm_compute in H; destruct H as [H|[H|H]]; discriminate.
Qed.

(** * Further properties *)

(** ** Sorted sides and cached prices *)

Lemma update_best_prices_view (b : OrderBook) :
  sorted_by greater (bids_ b) -> sorted_by less (asks_ b) ->
  book_view (unlock (update_best_prices b)).
Proof.
  intros HB HA. constructor; simpl; try assumption.
  - reflexivity.
  - split; reflexivity.
  - unfold mid_current. simpl. intros H. rewrite H. reflexivity.
Qed.

Lemma reachable_view (b : OrderBook) : reachable b -> book_view b.
Proof.
  induction 1 as [s|o b b' _ IH H|i b b' _ IH H|i p q b b' _ IH H
                 |p b b' _ IH H|b b' _ IH H|p q s b b' _ IH H].
  - constructor; simpl; try reflexivity; try constructor; try reflexivity.
    intros H. discriminate.
  - destruct IH as [Hf HB HA Hc Hm]. unfold add_order in H.
    rewrite lock_free in H by exact Hf. cbn [bind ret] in H.
    inversion H; subst b'. apply update_best_prices_view;
      destruct (Order.side o); simpl; try assumption.
    + apply subscript_sorted; [exact greater_trans | exact HB].
    + apply subscript_sorted; [exact less_trans | exact HA].
  - pose proof IH as [Hf HB HA Hc Hm].
    destruct (cancel_order_facts i b Hf) as (b0 & H0 & Hf0 & _ & Hcase).
    rewrite H0 in H. inversion H; subst b0. clear H.
    destruct (remove_resting i (bids_ b)) as [[x B']|] eqn:EB.
    + unfold cancel_order in H0. rewrite lock_free in H0 by exact Hf.
      cbn [bind] in H0.
      change (bids_ (set_mutex true b)) with (bids_ b) in H0.
      rewrite EB in H0. inversion H0. apply update_best_prices_view; simpl.
      * exact (remove_resting_sorted _ _ _ _ _ EB HB).
      * exact HA.
    + destruct Hcase as [_ Hcase].
      destruct (remove_resting i (asks_ b)) as [[x A']|] eqn:EA.
      * unfold cancel_order in H0. rewrite lock_free in H0 by exact Hf.
        cbn [bind] in H0.
        change (bids_ (set_mutex true b)) with (bids_ b) in H0.
        change (asks_ (set_mutex true b)) with (asks_ b) in H0.
        rewrite EB, EA in H0. inversion H0.
        apply update_best_prices_view; simpl.
        -- exact HB.
        -- exact (remove_resting_sorted _ _ _ _ _ EA HA).
      * subst b'. exact IH.
  - destruct (modify_order_inr _ _ _ _ _ (view_free b IH) H) as (_ & _ & ->).
    exact IH.
  - destruct IH as [Hf HB HA Hc Hm]. unfold set_last_price in H.
    rewrite lock_free in H by exact Hf. inversion H.
    apply update_best_prices_view; assumption.
  - destruct IH as [Hf HB HA Hc Hm]. unfold clear_book in H.
    rewrite lock_free in H by exact Hf. inversion H.
    apply update_best_prices_view; constructor.
  - destruct IH as [Hf HB HA Hc Hm]. unfold add_limit_order in H.
    rewrite lock_free in H by exact Hf. cbn [bind ret] in H.
    inversion H; subst b'. apply update_best_prices_view;
      destruct s; simpl; try assumption.
    + apply subscript_sorted; [exact greater_trans | exact HB].
    + apply subscript_sorted; [exact less_trans | exact HA].
Qed.

Lemma sorted_first_key (comp : Q -> Q -> bool) (m : levels) (k : Q)
    (l : PriceLevel.t) :
  sorted_by comp m -> (k, l) ∈ m ->
  k = first_key m \/ comp (first_key m) k = true.
Proof.
  unfold sorted_by. intros Hs Hin. destruct m as [|[k0 l0] m].
  - apply elem_of_nil in Hin. contradiction.
  - apply StronglySorted_inv in Hs as [_ Hall].
    apply elem_of_cons in Hin as [Hin|Hin].
    + inversion Hin. left. reflexivity.
    + right. rewrite Forall_forall in Hall. exact (Hall _ Hin).
Qed.

Lemma quoted_book_reachable : reachable quoted_book.
Proof.
  apply (reach_add_order (limit_order SELL 151 100 "T2")
           (added [limit_order BUY 150 100 "T1"] (new_book "AAPL"))).
  - apply (reach_add_order (limit_order BUY 150 100 "T1") (new_book "AAPL")).
    + apply reach_new.
    + reflexivity.
  - reflexivity.
Qed.

(** X1.  In every book reached through the public operations the bid
    levels are in strictly descending and the ask levels in strictly
    ascending order of price, [get_best_bid] is the price of the first bid
    level and [get_best_ask] that of the first ask level (0 for an empty
    side), and no bid level is priced above the best bid, no ask level below
    the best ask. *)
Theorem reachable_best_prices (b : OrderBook) :
  reachable b ->
  sorted_by greater (bids_ b) /\ sorted_by less (asks_ b) /\
  get_best_bid b = inr (first_key (bids_ b)) /\
  get_best_ask b = inr (first_key (asks_ b)) /\
  (forall k l, (k, l) ∈ bids_ b -> (k <= first_key (bids_ b))%Q) /\
  (forall k l, (k, l) ∈ asks_ b -> (first_key (asks_ b) <= k)%Q).
Proof.
  intros Hr. destruct (reachable_view b Hr) as [Hf HB HA [Hcb Hca] _].
  destruct (getters_free b Hf) as (Gb & Ga & _).
  split; [exact HB|]. split; [exact HA|].
  split; [rewrite Gb, Hcb; reflexivity|].
  split; [rewrite Ga, Hca; reflexivity|]. split.
  - intros k l Hin. destruct (sorted_first_key _ _ _ _ HB Hin) as [->|H].
    + apply Qle_refl.
    + unfold greater in H. apply Qltb_true in H. apply Qlt_le_weak. exact H.
  - intros k l Hin. destruct (sorted_first_key _ _ _ _ HA Hin) as [->|H].
    + apply Qle_refl.
    + unfold less in H. apply Qltb_true in H. apply Qlt_le_weak. exact H.
Qed.

Lemma reachable_best_prices_witness :
  reachable quoted_book /\
  get_best_bid quoted_book = inr 150%Q /\ get_best_ask quoted_book = inr 151%Q.
Proof.
  split; [exact quoted_book_reachable|].
  destruct (reachable_best_prices quoted_book quoted_book_reachable)
    as (_ & _ & Hb & Ha & _).
  split; [exact Hb | exact Ha].
Defined.

(** X2.  In every book reached through the public operations
    [get_mid_price] and [get_last_price] return the same value, and while
    both best prices are positive [set_last_price] changes nothing: the
    price it stores is overwritten with the midpoint, which the book
    already held. *)
Theorem set_last_price_quoted (b : OrderBook) (p : Q) :
  reachable b ->
  get_mid_price b = get_last_price b /\
  (Qltb 0 (best_bid_ b) && Qltb 0 (best_ask_ b) = true ->
   set_last_price p b = inr b).
Proof.
  intros Hr. destruct (reachable_view b Hr) as [Hf HB HA [Hcb Hca] Hm].
  unfold get_mid_price, get_last_price, set_last_price.
  rewrite lock_free by exact Hf. cbn [bind ret]. split.
  - simpl. destruct (Qltb 0 (best_bid_ b) && Qltb 0 (best_ask_ b)) eqn:E;
      [|reflexivity].
    rewrite (Hm E). reflexivity.
  - intros E. pose proof (Hm E) as Hl.
    destruct b as [sym B A mu last bb ba sq]. simpl in *. subst mu bb ba.
    unfold unlock, update_best_prices, set_last, set_mutex. simpl.
    rewrite E, <- Hl. reflexivity.
Qed.

Lemma set_last_price_quoted_witness :
  reachable quoted_book /\
  Qltb 0 (best_bid_ quoted_book) && Qltb 0 (best_ask_ quoted_book) = true /\
  set_last_price 99 quoted_book = inr quoted_book.
Proof.
  split; [exact quoted_book_reachable|]. split; [reflexivity|].
  exact (proj2 (set_last_price_quoted quoted_book 99 quoted_book_reachable)
               eq_refl).
Defined.

(** ** Which order a cancel removes *)

Lemma find_erase_split (i : Z) (os rest : list Order.t) (o : Order.t) :
  find_erase i os = Some (o, rest) ->
  exists pre post,
    os = pre ++ o :: post /\ rest = pre ++ post /\ Order.id o = i /\
    forall x, x ∈ pre -> Order.id x <> i.
Proof.
  revert rest. induction os as [|y os IH]; intros rest H; simpl in H.
  - discriminate.
  - destruct (Order.id y =? i) eqn:E.
    + inversion H; subst. apply Z.eqb_eq in E. exists [], rest.
      repeat split; try assumption. intros x Hx.
      apply elem_of_nil in Hx. contradiction.
    + destruct (find_erase i os) as [[z r]|]; [|discriminate].
      inversion H; subst. destruct (IH r eq_refl) as (pre & post & -> & -> & Hi & Hp).
      exists (y :: pre), post. repeat split; try assumption.
      intros x Hx. apply elem_of_cons in Hx as [->|Hx].
      * apply Z.eqb_neq. exact E.
      * exact (Hp x Hx).
Qed.

Lemma find_erase_absent (i : Z) (os : list Order.t) :
  find_erase i os = None -> forall x, x ∈ os -> Order.id x <> i.
Proof.
  induction os as [|y os IH]; intros H x Hx; simpl in H.
  - apply elem_of_nil in Hx. contradiction.
  - destruct (Order.id y =? i) eqn:E; [discriminate|].
    destruct (find_erase i os) as [[z r]|] eqn:F; [discriminate|].
    apply elem_of_cons in Hx as [->|Hx].
    + apply Z.eqb_neq. exact E.
    + exact (IH eq_refl x Hx).
Qed.

Lemma remove_resting_split (i : Z) (m m' : levels) (o : Order.t) :
  remove_resting i m = Some (o, m') ->
  exists pre post,
    resting m = pre ++ o :: post /\ resting m' = pre ++ post /\
    Order.id o = i /\ forall x, x ∈ pre -> Order.id x <> i.
Proof.
  revert m'. induction m as [|[k l] m IH]; intros m' H; simpl in H.
  - discriminate.
  - rewrite resting_cons.
    destruct (find_erase i (PriceLevel.orders l)) as [[y rest]|] eqn:E.
    + inversion H; subst.
      destruct (find_erase_split _ _ _ _ E) as (pre & post & Hl & -> & Hi & Hp).
      exists pre, (post ++ resting m). rewrite Hl.
      split; [rewrite <- app_assoc; reflexivity|].
      split; [|split; assumption].
      destruct (pre ++ post) as [|r rs] eqn:Er.
      * apply app_eq_nil in Er as [-> ->]. reflexivity.
      * rewrite resting_cons. cbn [PriceLevel.orders].
        rewrite <- Er, <- app_assoc. reflexivity.
    + destruct (remove_resting i m) as [[y m'']|]; [|discriminate].
      inversion H; subst.
      destruct (IH m'' eq_refl) as (pre & post & Hm & Hm' & Hi & Hp).
      exists (PriceLevel.orders l ++ pre), post. rewrite resting_cons, Hm, Hm'.
      split; [rewrite <- app_assoc; reflexivity|].
      split; [rewrite <- app_assoc; reflexivity|]. split; [exact Hi|].
      intros x Hx. apply elem_of_app in Hx as [Hx|Hx].
      * exact (find_erase_absent _ _ E x Hx).
      * exact (Hp x Hx).
Qed.

Lemma remove_resting_absent (i : Z) (m : levels) :
  remove_resting i m = None -> forall x, x ∈ resting m -> Order.id x <> i.
Proof.
  induction m as [|[k l] m IH]; intros H x Hx; simpl in H.
  - apply elem_of_nil in Hx. contradiction.
  - destruct (find_erase i (PriceLevel.orders l)) as [[y rest]|] eqn:E;
      [discriminate|].
    destruct (remove_resting i m) as [[y m'']|] eqn:F; [discriminate|].
    rewrite resting_cons in Hx. apply elem_of_app in Hx as [Hx|Hx].
    + exact (find_erase_absent _ _ E x Hx).
    + exact (IH eq_refl x Hx).
Qed.

(** X3.  [OrderBook::cancel_order] returns on every unlocked book.  When no
    resting order has the id the book is unchanged.  Otherwise exactly one
    order is removed: the first with that id when the bids are read before
    the asks, best level first and earliest order first; every other order
    keeps its place. *)
Theorem cancel_order_first_match (i : Z) (b : OrderBook) :
  book_mutex_ b = false ->
  exists b',
    cancel_order i b = inr b' /\
    (((forall x, x ∈ resting_orders b -> Order.id x <> i) /\ b' = b) \/
     exists pre o post,
       resting_orders b = pre ++ o :: post /\ Order.id o = i /\
       (forall x, x ∈ pre -> Order.id x <> i) /\
       resting_orders b' = pre ++ post).
Proof.
  intros Hf. destruct (cancel_order_facts i b Hf) as (b' & Hc & _ & _ & Hcase).
  exists b'. split; [exact Hc|]. unfold resting_orders.
  destruct (remove_resting i (bids_ b)) as [[o B']|] eqn:EB.
  - destruct Hcase as (HB & HA & _). right.
    destruct (remove_resting_split _ _ _ _ EB) as (pre & post & Hm & Hm' & Hi & Hp).
    exists pre, o, (post ++ resting (asks_ b)).
    rewrite HB, HA, Hm, Hm', <- !app_assoc. repeat split; assumption.
  - destruct Hcase as (HB & Hcase).
    pose proof (remove_resting_absent _ _ EB) as Hnb.
    destruct (remove_resting i (asks_ b)) as [[o A']|] eqn:EA.
    + destruct Hcase as (HA & _). right.
      destruct (remove_resting_split _ _ _ _ EA)
        as (pre & post & Hm & Hm' & Hi & Hp).
      exists (resting (bids_ b) ++ pre), o, post.
      rewrite HB, HA, Hm, Hm', <- !app_assoc.
      split; [reflexivity|]. split; [exact Hi|]. split; [|reflexivity].
      intros x Hx. apply elem_of_app in Hx as [Hx|Hx];
        [exact (Hnb x Hx) | exact (Hp x Hx)].
    + left. split; [|exact Hcase].
      pose proof (remove_resting_absent _ _ EA) as Hna.
      intros x Hx. apply elem_of_app in Hx as [Hx|Hx];
        [exact (Hnb x Hx) | exact (Hna x Hx)].
Qed.

Lemma cancel_order_first_match_witness :
  book_mutex_ quoted_book = false /\
  exists b',
    cancel_order 1 quoted_book = inr b' /\
    resting_orders b' = [Order.with_id 2 (limit_order SELL 151 100 "T2")].
Proof.
  split; [reflexivity|].
  destruct (cancel_order_first_match 1 quoted_book eq_refl) as (b' & Hc & _).
  exists b'. split; [exact Hc|].
  vm_compute in Hc. inversion Hc. reflexivity.
Defined.

(** ** Where an added order goes *)

Section FindLevel.
Variable comp : Q -> Q -> bool.
Hypothesis comp_order :
  (forall a b, comp a b = Qltb a b) \/ (forall a b, comp a b = Qltb b a).

Lemma find_level_subscript (p : Q) (f : PriceLevel.t -> PriceLevel.t)
    (m : levels) :
  find_level comp p (subscript comp p f m) =
  Some (f (default (PriceLevel.make 0) (find_level comp p m))).
Proof.
  assert (Hirr : comp p p = false).
  { destruct comp_order as [Hc|Hc]; rewrite Hc; apply Qltb_false; lra. }
  induction m as [|[k l] m IH]; simpl.
  - rewrite Hirr. reflexivity.
  - destruct (comp p k) eqn:Epk; simpl.
    + rewrite Hirr. reflexivity.
    + destruct (comp k p) eqn:Ekp; simpl; rewrite Epk, Ekp; [exact IH | reflexivity].
Qed.

Lemma find_level_subscript_other (p k' : Q)
    (f : PriceLevel.t -> PriceLevel.t) (m : levels) :
  ~ (k' == p)%Q ->
  find_level comp k' (subscript comp p f m) = find_level comp k' m.
Proof.
  intros Hne. induction m as [|[k l] m IH]; simpl.
  2: destruct (comp p k) eqn:Epk; simpl;
       [|destruct (comp k p) eqn:Ekp; simpl; [rewrite IH; reflexivity|]].
  all: repeat match goal with
              | |- context [comp ?a ?b] =>
                  let E := fresh "E" in destruct (comp a b) eqn:E
              end;
       try reflexivity;
       exfalso; destruct comp_order as [Hc|Hc]; rewrite !Hc in *;
       rewrite ?Qltb_true, ?Qltb_false in *; lra.
Qed.
End FindLevel.

Lemma side_comp_order (s : OrderSide) :
  (forall a b, side_comp s a b = Qltb a b) \/
  (forall a b, side_comp s a b = Qltb b a).
Proof. destruct s; [right | left]; reflexivity. Qed.

(** X4.  [OrderBook::add_order] returns on every unlocked book.  The order,
    stamped with the next sequence number, becomes the last order of the
    level at its price on its side, which is created when no level has
    that price; the levels at other prices and the other side are as they
    were. *)
Theorem add_order_tail (o : Order.t) (b : OrderBook) :
  book_mutex_ b = false ->
  exists b',
    add_order o b = inr b' /\
    sequence_number_ b' = u64 (sequence_number_ b + 1) /\
    PriceLevel.orders <$>
      find_level (side_comp (Order.side o)) (Order.price o)
                 (side_levels (Order.side o) b')
    = Some (default [] (PriceLevel.orders <$>
                          find_level (side_comp (Order.side o)) (Order.price o)
                                     (side_levels (Order.side o) b))
            ++ [Order.with_id (u64 (sequence_number_ b + 1)) o]) /\
    (forall k, ~ (k == Order.price o)%Q ->
       find_level (side_comp (Order.side o)) k (side_levels (Order.side o) b')
       = find_level (side_comp (Order.side o)) k (side_levels (Order.side o) b)) /\
    side_levels (other_side (Order.side o)) b'
      = side_levels (other_side (Order.side o)) b.
Proof.
  intros Hf.
  destruct (add_order_facts o b Hf) as (b' & Ha & _ & _ & Hs & Hsides).
  exists b'. split; [exact Ha|]. split; [exact Hs|]. cbv zeta in Hsides.
  pose proof (side_comp_order (Order.side o)) as Hord.
  destruct (Order.side o); destruct Hsides as [EB EA]; simpl in *.
  - rewrite EB. split; [|split; [|exact EA]].
    + rewrite (find_level_subscript greater Hord).
      destruct (find_level greater (Order.price o) (bids_ b)); reflexivity.
    + intros k Hk. apply (find_level_subscript_other greater Hord). exact Hk.
  - rewrite EA. split; [|split; [|exact EB]].
    + rewrite (find_level_subscript less Hord).
      destruct (find_level less (Order.price o) (asks_ b)); reflexivity.
    + intros k Hk. apply (find_level_subscript_other less Hord). exact Hk.
Qed.

Lemma add_order_tail_witness :
  book_mutex_ quoted_book = false /\
  exists b',
    add_order (limit_order BUY 150 7 "T3") quoted_book = inr b' /\
    PriceLevel.orders <$> find_level greater 150 (bids_ b')
    = Some [Order.with_id 1 (limit_order BUY 150 100 "T1");
            Order.with_id 3 (limit_order BUY 150 7 "T3")].
Proof.
  split; [reflexivity|].
  destruct (add_order_tail (limit_order BUY 150 7 "T3") quoted_book eq_refl)
    as (b' & Ha & _ & Hl & _).
  exists b'. split; [exact Ha | exact Hl].
Defined.

(** ** An order added and cancelled *)

Lemma find_erase_app_fresh (os : list Order.t) (o : Order.t) :
  (forall x, x ∈ os -> Order.id x <> Order.id o) ->
  find_erase (Order.id o) (os ++ [o]) = Some (o, os).
Proof.
  induction os as [|y os IH]; intros H; simpl.
  - rewrite Z.eqb_refl. reflexivity.
  - destruct (Order.id y =? Order.id o) eqn:E.
    + apply Z.eqb_eq in E. exfalso. apply (H y); [left | exact E].
    + rewrite IH; [reflexivity|]. intros x Hx. apply H. right. exact Hx.
Qed.

Lemma subscript_remove (comp : Q -> Q -> bool) (p : Q) (q : Z) (o : Order.t)
    (m : levels) :
  Order.quantity o = q ->
  levels_ok m ->
  (forall x, x ∈ resting m -> Order.id x <> Order.id o) ->
  exists m',
    remove_resting (Order.id o) (subscript comp p (push_order p q o) m)
      = Some (o, m') /\
    map level_view m' = map level_view m.
Proof.
  intros Hq. unfold levels_ok.
  induction m as [|[k l] m IH]; intros Hok Hfresh.
  - exists []. simpl. rewrite Z.eqb_refl. split; reflexivity.
  - apply Forall_cons in Hok as [[Hne Ht] Hok]. simpl in Hne, Ht.
    rewrite resting_cons in Hfresh. cbn [subscript].
    destruct (comp p k).
    + exists ((k, l) :: m). split; [|reflexivity].
      rewrite (remove_resting_head _ _ _ o []) by reflexivity. reflexivity.
    + destruct (comp k p).
      * destruct IH as (m' & Hr & Hv); [exact Hok | |].
        { intros x Hx. apply Hfresh, elem_of_app. right. exact Hx. }
        exists ((k, l) :: m'). cbn [remove_resting].
        rewrite find_erase_none, Hr.
        -- split; [reflexivity|]. simpl. rewrite Hv. reflexivity.
        -- intros x Hx. apply Hfresh, elem_of_app. left. exact Hx.
      * cbn [remove_resting push_order PriceLevel.orders PriceLevel.total_quantity
             PriceLevel.price].
        rewrite find_erase_app_fresh.
        2:{ intros x Hx. apply Hfresh, elem_of_app. left. exact Hx. }
        destruct (PriceLevel.orders l) as [|y ys] eqn:El; [congruence|].
        eexists. split; [reflexivity|].
        simpl. unfold level_view at 1 3. simpl. rewrite El.
        f_equal. f_equal. f_equal.
        rewrite Ht, Hq. unfold u32. rewrite Zminus_mod_idemp_l.
        replace (sum_quantity (y :: ys) mod 2 ^ 32 + q - q)
          with (sum_quantity (y :: ys) mod 2 ^ 32) by lia.
        apply Z.mod_mod. lia.
Qed.

Lemma level_view_resting (m m' : levels) :
  map level_view m' = map level_view m ->
  resting m' = resting m /\ first_key m' = first_key m.
Proof.
  revert m'. induction m as [|[k l] m IH]; intros [|[k' l'] m'] H;
    try discriminate; [split; reflexivity|].
  simpl in H. inversion H as [[Hk Ht Ho Hm]].
  destruct (IH m' Hm) as [Hr _]. rewrite !resting_cons, Ho, Hr. split; reflexivity.
Qed.

(** X5.  On a book reached through the public operations in which no
    resting order already carries the next sequence number, [add_order]
    followed by [cancel_order] of the id it assigned returns, and leaves on
    both sides the levels that were there, with their keys, totals and
    orders in order, and the best prices of those levels. *)
Theorem add_then_cancel (o : Order.t) (b : OrderBook) :
  reachable b ->
  (forall x, x ∈ resting_orders b ->
     Order.id x <> u64 (sequence_number_ b + 1)) ->
  exists b1 b2,
    add_order o b = inr b1 /\
    cancel_order (u64 (sequence_number_ b + 1)) b1 = inr b2 /\
    map level_view (bids_ b2) = map level_view (bids_ b) /\
    map level_view (asks_ b2) = map level_view (asks_ b) /\
    get_best_bid b2 = inr (first_key (bids_ b)) /\
    get_best_ask b2 = inr (first_key (asks_ b)).
Proof.
  intros Hr Hfresh. destruct (reachable_ok b Hr) as (Hf & HokB & HokA).
  destruct (add_order_facts o b Hf) as (b1 & Ha & Hf1 & _ & _ & Hsides).
  cbv zeta in Hsides.
  set (n := u64 (sequence_number_ b + 1)) in *.
  set (new_order := Order.with_id n o) in *.
  assert (Hid : Order.id new_order = n) by reflexivity.
  assert (HfB : forall x, x ∈ resting (bids_ b) -> Order.id x <> Order.id new_order).
  { intros x Hx. rewrite Hid. apply Hfresh, elem_of_app. left. exact Hx. }
  assert (HfA : forall x, x ∈ resting (asks_ b) -> Order.id x <> Order.id new_order).
  { intros x Hx. rewrite Hid. apply Hfresh, elem_of_app. right. exact Hx. }
  destruct (cancel_order_facts n b1 Hf1) as (b2 & Hc & Hf2 & _ & Hcase).
  exists b1, b2. split; [exact Ha|]. split; [exact Hc|].
  destruct (getters_free b2 Hf2) as (Gb & Ga & _).
  rewrite Gb, Ga.
  destruct (Order.side o); destruct Hsides as [EB EA].
  - destruct (subscript_remove greater (Order.price o) (Order.quantity o)
                new_order (bids_ b) eq_refl HokB HfB) as (m' & Hrm & Hv).
    rewrite Hid in Hrm. rewrite EB, Hrm in Hcase.
    destruct Hcase as (HB2 & HA2 & Hcb & Hca).
    rewrite HB2, HA2, EA, Hcb, Hca, HB2, HA2, EA.
    rewrite (proj2 (level_view_resting _ _ Hv)). repeat split; assumption.
  - assert (Hnone : remove_resting n (bids_ b1) = None).
    { rewrite EB. apply remove_resting_none. intros x Hx.
      rewrite <- Hid. exact (HfB x Hx). }
    destruct (subscript_remove less (Order.price o) (Order.quantity o)
                new_order (asks_ b) eq_refl HokA HfA) as (m' & Hrm & Hv).
    rewrite Hid in Hrm. rewrite Hnone, EA, Hrm in Hcase.
    destruct Hcase as (HB2 & HA2 & Hcb & Hca).
    rewrite HB2, HA2, EB, Hcb, Hca, HB2, HA2, EB.
    rewrite (proj2 (level_view_resting _ _ Hv)). repeat split; assumption.
Qed.

Lemma add_then_cancel_witness :
  reachable quoted_book /\
  (forall x, x ∈ resting_orders quoted_book ->
     Order.id x <> u64 (sequence_number_ quoted_book + 1)) /\
  exists b1 b2,
    add_order (limit_order BUY 150 7 "T3") quoted_book = inr b1 /\
    cancel_order 3 b1 = inr b2 /\
    map level_view (bids_ b2) = map level_view (bids_ quoted_book).
Proof.
  assert (Hfresh : forall x, x ∈ resting_orders quoted_book ->
            Order.id x <> u64 (sequence_number_ quoted_book + 1)).
  { intros x Hx. vm_compute in Hx.
    apply elem_of_cons in Hx as [->|Hx]; [discriminate|].
    apply list_elem_of_singleton in Hx. subst x. discriminate. }
  split; [exact quoted_book_reachable|]. split; [exact Hfresh|].
  destruct (add_then_cancel (limit_order BUY 150 7 "T3") quoted_book
              quoted_book_reachable Hfresh) as (b1 & b2 & Ha & Hc & Hv & _).
  exists b1, b2. split; [exact Ha|]. split; [exact Hc | exact Hv].
Defined.

(** ** Executions and the counters of the engine *)

Lemma bind_inr {A B : Type} (m : result A) (k : A -> result B) (r : B) :
  bind m k = inr r -> exists a, m = inr a /\ k a = inr r.
Proof.
  destruct m as [f|a]; simpl; [discriminate|]. intros H. exists a. auto.
Qed.

Lemma match_orders_accounting (s : string) (e e' : MatchingEngine)
    (xs : list Execution.t) :
  match_orders s e = inr (e', xs) -> accounted s e e' xs.
Proof.
  unfold match_orders, get_order_book.
  destruct (order_books_ e !! s) as [b|].
  all: intros H;
    apply bind_inr in H as (bb & _ & H); apply bind_inr in H as (ba & _ & H);
    destruct (Qle_bool bb 0 || Qle_bool ba 0);
      [inversion H; repeat split; left; repeat split|];
    destruct (Qle_bool ba bb);
      [|inversion H; repeat split; left; repeat split];
    apply bind_inr in H as (bl & _ & H); apply bind_inr in H as (al & _ & H);
    destruct bl as [|lb bl]; [inversion H; repeat split; left; repeat split|];
    destruct al as [|la al]; [inversion H; repeat split; left; repeat split|];
    destruct (0 <? PriceLevel.total_quantity lb `min` PriceLevel.total_quantity la)
      eqn:Tq; [|inversion H; repeat split; left; repeat split];
    cbn [generate_execution_id] in H;
    apply bind_inr in H as (ob & _ & H); apply bind_inr in H as (b1 & _ & H);
    apply bind_inr in H as (oa & _ & H); apply bind_inr in H as (b2 & _ & H);
    inversion H; subst e' xs; apply Z.ltb_lt in Tq;
    repeat split; right; eexists; repeat split; exact Tq.
Qed.

Lemma process_market_order_accounting (o : Order.t) (e e' : MatchingEngine)
    (xs : list Execution.t) :
  process_market_order o e = inr (e', xs) ->
  accounted (Order.symbol o) e e' xs /\
  forall x, x ∈ xs -> Execution.quantity x <= Order.quantity o.
Proof.
  assert (Hnil : forall x : Execution.t,
            x ∈ [] -> Execution.quantity x <= Order.quantity o).
  { intros x Hx. apply elem_of_nil in Hx. contradiction. }
  unfold process_market_order, get_order_book.
  destruct (order_books_ e !! Order.symbol o) as [b|]; destruct (Order.side o).
  all: intros H;
    apply bind_inr in H as (bp & _ & H);
    destruct (Qltb 0 bp);
      [|inversion H; split; [repeat split; left; repeat split | exact Hnil]];
    apply bind_inr in H as (bl & _ & H);
    destruct bl as [|lb bl];
      [inversion H; split; [repeat split; left; repeat split | exact Hnil]|];
    destruct (0 <? Order.quantity o `min` PriceLevel.total_quantity lb) eqn:Tq;
      [|inversion H; split; [repeat split; left; repeat split | exact Hnil]];
    cbn [generate_execution_id] in H;
    apply bind_inr in H as (b1 & _ & H);
    inversion H; subst e' xs; apply Z.ltb_lt in Tq; split;
      [repeat split; right; eexists; repeat split; exact Tq|];
    intros x Hx; apply list_elem_of_singleton in Hx; subst x; simpl; lia.
Qed.

(** X6.  Whenever [process_order] returns it has emitted no execution or
    exactly one.  With none, the execution counter, [total_executions_] and
    [total_volume_] are unchanged; with one, the execution carries the next
    execution id, a positive quantity and the order's symbol, the two
    counters advance by one and the volume by price times quantity.  The
    submission queue and the order id counter are never touched. *)
Theorem process_order_accounting (o : Order.t) (e e' : MatchingEngine)
    (xs : list Execution.t) :
  process_order o e = inr (e', xs) -> accounted (Order.symbol o) e e' xs.
Proof.
  unfold process_order. intros H.
  assert (Hlimit :
    (let '(order_book, e0) := get_order_book (Order.symbol o) e in
     order_book <- add_order o order_book ;;
     match_orders (Order.symbol o)
       (put_order_book (Order.symbol o) order_book e0)) = inr (e', xs) ->
    accounted (Order.symbol o) e e' xs).
  { clear H. unfold get_order_book.
    destruct (order_books_ e !! Order.symbol o) as [b|]; intros H;
      apply bind_inr in H as (b1 & _ & H);
      apply match_orders_accounting in H; exact H. }
  destruct (Order.type o); try exact (Hlimit H).
  exact (proj1 (process_market_order_accounting o e e' xs H)).
Qed.

Lemma process_order_accounting_witness :
  exists e' x,
    process_order taker_sell engine_one_bid = inr (e', [x]) /\
    accounted "AAPL" engine_one_bid e' [x] /\
    Execution.execution_id x = 1.
Proof.
  eexists _, _. split; [vm_compute; reflexivity|]. split; [|reflexivity].
  apply (process_order_accounting taker_sell). vm_compute. reflexivity.
Defined.

(** X7.  The execution of a market order never exceeds the quantity of
    the order. *)
Theorem market_execution_bounded (o : Order.t) (e e' : MatchingEngine)
    (xs : list Execution.t) (x : Execution.t) :
  Order.type o = MARKET -> process_order o e = inr (e', xs) -> x ∈ xs ->
  0 < Execution.quantity x <= Order.quantity o.
Proof.
  intros Ht H Hx. unfold process_order in H. rewrite Ht in H.
  destruct (process_market_order_accounting o e e' xs H) as [Hacc Hle].
  split; [|exact (Hle x Hx)].
  destruct Hacc as (_ & _ & _ & [(-> & _)|(y & -> & _ & _ & _ & _ & Hpos & _)]).
  - apply elem_of_nil in Hx. contradiction.
  - apply list_elem_of_singleton in Hx. subst y. exact Hpos.
Qed.

Lemma market_execution_bounded_witness :
  exists e' x,
    Order.type (Order.with_id 2 (market_order SELL 40 "T2")) = MARKET /\
    process_order (Order.with_id 2 (market_order SELL 40 "T2")) engine_one_bid
      = inr (e', [x]) /\
    0 < Execution.quantity x <= 40.
Proof.
  eexists _, _. split; [reflexivity|]. split; [vm_compute; reflexivity|].
  eapply (market_execution_bounded (Order.with_id 2 (market_order SELL 40 "T2"))
            engine_one_bid).
  - reflexivity.
  - vm_compute. reflexivity.
  - left.
Defined.

(** ** Symbols *)

(** X8.  [MatchingEngine::add_symbol] never replaces a book: on a symbol
    that has a book the engine is unchanged, on a new symbol the book is
    [OrderBook(symbol)], and a second call with the same symbol changes
    nothing. *)
Theorem add_symbol_keeps_book (s : string) (e : MatchingEngine) :
  (forall b, order_books_ e !! s = Some b -> add_symbol s e = e) /\
  (order_books_ e !! s = None ->
   order_books_ (add_symbol s e) !! s = Some (new_book s)) /\
  (forall s', s' <> s ->
     order_books_ (add_symbol s e) !! s' = order_books_ e !! s') /\
  add_symbol s (add_symbol s e) = add_symbol s e.
Proof.
  unfold add_symbol. split; [|split; [|split]].
  - intros b H. rewrite H. reflexivity.
  - intros H. rewrite H. simpl. apply lookup_insert_eq.
  - intros s' Hne. destruct (order_books_ e !! s); [reflexivity|].
    simpl. apply lookup_insert_ne. congruence.
  - destruct (order_books_ e !! s) eqn:E.
    + rewrite E. reflexivity.
    + simpl. rewrite lookup_insert_eq. reflexivity.
Qed.

(** X9.  An order for a symbol that has no book is not dropped:
    [get_order_book] creates a default-constructed book, whose symbol is
    empty, under that symbol.  [process_order] returns without an
    execution; an order that is not a market order then rests in the new
    book under id 1, a market order leaves the new book empty. *)
Theorem process_order_unknown_symbol (o : Order.t) (e : MatchingEngine) :
  order_books_ e !! Order.symbol o = None ->
  exists e' b',
    process_order o e = inr (e', []) /\
    order_books_ e' !! Order.symbol o = Some b' /\
    symbol_ b' = "" /\
    resting_orders b' =
      match Order.type o with
      | MARKET => []
      | _ => [Order.with_id 1 o]
      end.
Proof.
  intros Hlk.
  assert (Hmarket : exists e' b',
            process_market_order o e = inr (e', []) /\
            order_books_ e' !! Order.symbol o = Some b' /\
            symbol_ b' = "" /\ resting_orders b' = []).
  { unfold process_market_order, get_order_book. rewrite Hlk.
    destruct (Order.side o); simpl;
      eexists _, (new_book ""); (split; [reflexivity|]);
      (split; [apply lookup_insert_eq|]); split; reflexivity. }
  assert (Hlimit : exists e' b',
            (let '(order_book, e0) := get_order_book (Order.symbol o) e in
             order_book <- add_order o order_book ;;
             match_orders (Order.symbol o)
               (put_order_book (Order.symbol o) order_book e0)) = inr (e', []) /\
            order_books_ e' !! Order.symbol o = Some b' /\
            symbol_ b' = "" /\ resting_orders b' = [Order.with_id 1 o]).
  { unfold get_order_book. rewrite Hlk.
    unfold add_order. rewrite lock_free by reflexivity. cbn [bind ret].
    unfold match_orders, get_order_book, put_order_book. simpl order_books_.
    rewrite lookup_insert_eq.
    destruct (Order.side o); simpl.
    - rewrite orb_true_r. eexists _, _. split; [reflexivity|].
      split; [apply lookup_insert_eq|]. split; reflexivity.
    - eexists _, _. split; [reflexivity|].
      split; [apply lookup_insert_eq|]. split; reflexivity. }
  unfold process_order. destruct (Order.type o); assumption.
Qed.

Lemma process_order_unknown_symbol_witness :
  order_books_ new_engine !! Order.symbol taker_sell = None /\
  exists e' b',
    process_order taker_sell new_engine = inr (e', []) /\
    order_books_ e' !! "AAPL" = Some b' /\
    resting_orders b' = [Order.with_id 1 taker_sell].
Proof.
  split; [reflexivity|].
  destruct (process_order_unknown_symbol taker_sell new_engine eq_refl)
    as (e' & b' & Hp & Hlk & _ & Hr).
  exists e', b'. split; [exact Hp|]. split; [exact Hlk | exact Hr].
Defined.

Lemma add_symbol_keeps_book_witness :
  order_books_ engine_one_bid !! "AAPL" = Some one_bid_book /\
  add_symbol "AAPL" engine_one_bid = engine_one_bid.
Proof.
  split; [reflexivity|].
  exact (proj1 (add_symbol_keeps_book "AAPL" engine_one_bid) one_bid_book eq_refl).
Defined.

(** ** Time priority *)

Lemma resting_after_head (k : Q) (l : PriceLevel.t) (m : levels)
    (rest : list Order.t) (t : Z) :
  resting (match rest with
           | [] => m
           | _ :: _ => (k, PriceLevel.mk (PriceLevel.price l) t rest) :: m
           end) = rest ++ resting m.
Proof. destruct rest; reflexivity. Qed.

(** X10.  On a well-formed book whose best bid is at or above its best
    ask, [match_orders] returns with one execution and removes the first
    order of the best bid level and the first order of the best ask level:
    the orders that arrived earliest at the best prices.  Every other order
    keeps its place. *)
Theorem match_orders_time_priority (s : string) (e : MatchingEngine)
    (b : OrderBook) (kb ka : Q) (lb la : PriceLevel.t) (B A : levels)
    (ob oa : Order.t) (rb ra : list Order.t) :
  order_books_ e !! s = Some b -> book_wf b ->
  bids_ b = (kb, lb) :: B -> PriceLevel.orders lb = ob :: rb ->
  asks_ b = (ka, la) :: A -> PriceLevel.orders la = oa :: ra ->
  (ka <= kb)%Q ->
  exists e' x b',
    match_orders s e = inr (e', [x]) /\
    order_books_ e' !! s = Some b' /\
    resting (bids_ b') = rb ++ resting B /\
    resting (asks_ b') = ra ++ resting A.
Proof.
  intros Hlk Hwf EB Eob EA Eoa Hle.
  pose proof Hwf as [Hf [Hcb Hca] Hs HB HA Hq HiB HiA Hd].
  destruct (getters_free b Hf) as (Gb & Ga & Gbl & Gal).
  destruct HB as (_ & HkB & HlB). destruct HA as (_ & HkA & HlA).
  rewrite EB in HkB, HlB. rewrite EA in HkA, HlA.
  apply Forall_cons in HkB as [Hkb _]. apply Forall_cons in HkA as [Hka _].
  apply Forall_cons in HlB as [Hlb _]. apply Forall_cons in HlA as [Hla _].
  simpl in Hkb, Hka.
  pose proof (level_full_positive _ Hlb) as Hpb.
  pose proof (level_full_positive _ Hla) as Hpa. simpl in Hpb, Hpa.
  unfold match_orders, get_order_book. rewrite Hlk, Gb, Ga. cbn [bind].
  rewrite Hcb, Hca, EB, EA. cbn [first_key].
  assert (T1 : Qle_bool kb 0 = false) by (apply Qle_bool_false; exact Hkb).
  assert (T2 : Qle_bool ka 0 = false) by (apply Qle_bool_false; exact Hka).
  assert (T3 : Qle_bool ka kb = true) by (apply Qle_bool_iff; exact Hle).
  rewrite T1, T2, T3. cbn [orb].
  rewrite Gbl, Gal, EB, EA. cbn [bind]. rewrite !first_level. cbn [snd].
  assert (Tq : (0 <? PriceLevel.total_quantity lb `min` PriceLevel.total_quantity la)
               = true) by (apply Z.ltb_lt; lia).
  rewrite Tq. cbn [generate_execution_id]. rewrite Eob, Eoa. cbn [front bind ret].
  pose proof (remove_resting_head kb lb B ob rb Eob) as Rb.
  pose proof (remove_resting_head ka la A oa ra Eoa) as Ra.
  rewrite <- EB in Rb. rewrite <- EA in Ra.
  destruct (cancel_order_facts (Order.id ob) b Hf) as (b1 & C1 & Hf1 & Hs1 & F1).
  rewrite Rb in F1. destruct F1 as (EB1 & EA1 & Hc1).
  destruct (cancel_order_wf _ _ _ Hwf C1) as [Hwf1 _].
  rewrite C1. cbn [bind].
  assert (Hnone : remove_resting (Order.id oa) (bids_ b1) = None).
  { apply remove_resting_none. intros x Hx.
    apply (wf_disjoint b1 Hwf1 x oa Hx).
    rewrite EA1, EA, resting_cons, Eoa. left. }
  destruct (cancel_order_facts (Order.id oa) b1 Hf1) as (b2 & C2 & Hf2 & Hs2 & F2).
  rewrite Hnone, EA1, Ra in F2. destruct F2 as (EB2 & EA2 & Hc2).
  rewrite C2. cbn [bind].
  eexists _, _, b2. split; [reflexivity|].
  split; [apply lookup_insert_eq|].
  rewrite EB2, EB1, EA2. split; apply resting_after_head.
Qed.

Lemma priority_book_wf : book_wf priority_book.
Proof.
  constructor; simpl.
  - reflexivity.
  - split; reflexivity.
  - lia.
  - split; [repeat constructor|]. split; [repeat constructor|].
    constructor; [|constructor]. split; [discriminate|].
    split; [|reflexivity]. repeat constructor.
  - split; [repeat constructor|]. split; [repeat constructor|].
    constructor; [|constructor]. split; [discriminate|].
    split; [|reflexivity]. repeat constructor.
  - reflexivity.
  - intros x Hx. apply elem_of_cons in Hx as [->|Hx]; [simpl; lia|].
    apply list_elem_of_singleton in Hx. subst x. simpl. lia.
  - intros x Hx. apply list_elem_of_singleton in Hx. subst x. simpl. lia.
  - intros x y Hx Hy. apply list_elem_of_singleton in Hy. subst y.
    apply elem_of_cons in Hx as [->|Hx]; [discriminate|].
    apply list_elem_of_singleton in Hx. subst x. discriminate.
Qed.

Lemma match_orders_time_priority_witness :
  exists e' x b',
    match_orders "AAPL" (put_order_book "AAPL" priority_book new_engine)
      = inr (e', [x]) /\
    order_books_ e' !! "AAPL" = Some b' /\
    map Order.trader_id (resting (bids_ b')) = ["T2"] /\
    resting (asks_ b') = [].
Proof.
  destruct (match_orders_time_priority "AAPL"
              (put_order_book "AAPL" priority_book new_engine) priority_book
              150 150 _ _ [] [] _ _ _ _
              (lookup_insert_eq _ _ _) priority_book_wf
              eq_refl eq_refl eq_refl eq_refl)
    as (e' & x & b' & Hm & Hlk & HrB & HrA).
  { apply Qle_refl. }
  exists e', x, b'. split; [exact Hm|]. split; [exact Hlk|].
  rewrite HrB, HrA. split; reflexivity.
Defined.

(** ** The submission queue *)

Lemma filter_no_match (f : Order.t -> bool) (q : list Order.t) :
  existsb f q = false -> List.filter (fun o => negb (f o)) q = q.
Proof.
  induction q as [|o q IH]; simpl; [reflexivity|].
  intros H. apply orb_false_iff in H as [Ho Hq]. rewrite Ho, (IH Hq). reflexivity.
Qed.

Lemma existsb_filter_negb (f : Order.t -> bool) (q : list Order.t) :
  existsb f (List.filter (fun o => negb (f o)) q) = false.
Proof.
  induction q as [|o q IH]; simpl; [reflexivity|].
  destruct (f o) eqn:E; simpl; [exact IH | rewrite E, IH; reflexivity].
Qed.

Lemma set_queue_same (e : MatchingEngine) : set_queue (order_queue_ e) e = e.
Proof. destruct e; reflexivity. Qed.

(** X11.  A call of [MatchingEngine::cancel_order] that returns [false]
    leaves the engine as it was, and after any call a second call with the
    same id and trader returns [false] and changes nothing. *)
Theorem engine_cancel_order_twice (i : Z) (t : string) (e : MatchingEngine) :
  ((Engine.cancel_order i t e).1 = false -> (Engine.cancel_order i t e).2 = e) /\
  Engine.cancel_order i t (Engine.cancel_order i t e).2
    = (false, (Engine.cancel_order i t e).2).
Proof.
  unfold Engine.cancel_order. rewrite drain_cancel_spec. simpl. split.
  - intros H. rewrite filter_no_match by exact H. apply set_queue_same.
  - rewrite drain_cancel_spec. simpl.
    rewrite existsb_filter_negb.
    rewrite filter_no_match by apply existsb_filter_negb.
    reflexivity.
Qed.

Lemma engine_cancel_order_twice_witness :
  (Engine.cancel_order 9 "T1" engine_one_bid).1 = false /\
  (Engine.cancel_order 9 "T1" engine_one_bid).2 = engine_one_bid.
Proof.
  split; [reflexivity|].
  exact (proj1 (engine_cancel_order_twice 9 "T1" engine_one_bid) eq_refl).
Defined.

Lemma drain_modify_spec (i : Z) (p : Q) (q : Z) (t : string)
    (queue temp : list Order.t) (found : bool) :
  Engine.drain_modify i p q t queue temp found =
  (temp ++ map (fun o => if Engine.queued_match i t o
                         then Order.with_price_quantity p q o else o) queue,
   found || existsb (Engine.queued_match i t) queue).
Proof.
  revert temp found. induction queue as [|o queue IH]; intros temp found; simpl.
  - rewrite app_nil_r, orb_false_r. reflexivity.
  - destruct (Engine.queued_match i t o); simpl; rewrite IH, <- app_assoc.
    + rewrite orb_true_r. reflexivity.
    + reflexivity.
Qed.

(** X12.  [MatchingEngine::modify_order] returns [true] exactly when an
    order with this id and trader is still in the submission queue.  Those
    orders receive the new price and quantity; every order keeps its
    position in the queue, its id and its other fields, and no book is
    read or changed. *)
Theorem engine_modify_order_queue (i : Z) (p : Q) (q : Z) (t : string)
    (e : MatchingEngine) :
  ((Engine.modify_order i p q t e).1 = true <->
   exists o, o ∈ order_queue_ e /\ Order.id o = i /\ Order.trader_id o = t) /\
  order_queue_ (Engine.modify_order i p q t e).2 =
    map (fun o => if Engine.queued_match i t o
                  then Order.with_price_quantity p q o else o)
        (order_queue_ e) /\
  map Order.id (order_queue_ (Engine.modify_order i p q t e).2)
    = map Order.id (order_queue_ e) /\
  order_books_ (Engine.modify_order i p q t e).2 = order_books_ e.
Proof.
  unfold Engine.modify_order. rewrite drain_modify_spec. simpl.
  split; [|split; [reflexivity|split; [|reflexivity]]].
  - rewrite existsb_exists. split.
    + intros (o & Hin & Hm). exists o. apply queued_match_iff in Hm.
      split; [apply list_elem_of_In; exact Hin | exact Hm].
    + intros (o & Hin & Hm). exists o.
      split; [apply list_elem_of_In; exact Hin | apply queued_match_iff; exact Hm].
  - rewrite map_map. apply map_ext. intros o.
    destruct (Engine.queued_match i t o); reflexivity.
Qed.

Lemma submit_order_next (o : Order.t) (e : MatchingEngine) :
  0 <= order_id_counter_ e -> order_id_counter_ e + 1 < 2 ^ 64 ->
  (submit_order o e).1 = order_id_counter_ e + 1 /\
  order_id_counter_ (submit_order o e).2 = order_id_counter_ e + 1 /\
  order_queue_ (submit_order o e).2 =
    order_queue_ e ++ [Order.with_id (order_id_counter_ e + 1) o] /\
  order_books_ (submit_order o e).2 = order_books_ e.
Proof.
  intros H0 H1. unfold submit_order. simpl.
  rewrite u64_small by lia. repeat split.
Qed.

(** X13.  As long as the 64-bit counter does not wrap, successive calls
    of [submit_order] return consecutive ids, each one more than the last,
    and the orders join the queue in the order of the calls, each stamped
    with the id returned for it; no book is touched. *)
Theorem submit_order_consecutive (os : list Order.t) (e : MatchingEngine) :
  0 <= order_id_counter_ e ->
  order_id_counter_ e + Z.of_nat (length os) < 2 ^ 64 ->
  (submit_all os e).1 = seqZ (order_id_counter_ e + 1) (Z.of_nat (length os)) /\
  order_queue_ (submit_all os e).2 =
    order_queue_ e ++ zip_with Order.with_id (submit_all os e).1 os /\
  order_books_ (submit_all os e).2 = order_books_ e.
Proof.
  revert e. induction os as [|o os IH]; intros e H0 H1.
  - simpl. rewrite app_nil_r. repeat split.
  - cbn [submit_all].
    destruct (submit_order_next o e H0) as (Hn & Hc & Hq & Hb);
      [simpl length in H1; lia|].
    destruct (submit_order o e) as [n e1] eqn:E1. simpl in Hn, Hc, Hq, Hb.
    destruct (IH e1) as (Hids & Hqueue & Hbooks).
    { lia. }
    { rewrite Hc. simpl length in H1. lia. }
    destruct (submit_all os e1) as [ns e2] eqn:E2. simpl in *.
    split; [|split].
    + rewrite seqZ_cons by lia. rewrite Hn. f_equal.
      rewrite Hids, Hc. f_equal; lia.
    + rewrite Hqueue, Hq, <- app_assoc, Hn. reflexivity.
    + rewrite Hbooks. exact Hb.
Qed.

Lemma submit_order_consecutive_witness :
  0 <= order_id_counter_ engine_one_bid /\
  order_id_counter_ engine_one_bid + 2 < 2 ^ 64 /\
  (submit_all [limit_order BUY 149 5 "T2"; limit_order SELL 152 5 "T3"]
              engine_one_bid).1 = [2; 3].
Proof.
  assert (H0 : 0 <= order_id_counter_ engine_one_bid) by (simpl; lia).
  assert (H1 : order_id_counter_ engine_one_bid
               + Z.of_nat (length [limit_order BUY 149 5 "T2";
                                   limit_order SELL 152 5 "T3"]) < 2 ^ 64)
    by (simpl; lia).
  split; [exact H0|]. split; [simpl; lia|].
  rewrite (proj1 (submit_order_consecutive _ engine_one_bid H0 H1)).
  reflexivity.
Defined.

(** ** Positions *)

Lemma i32_small (z : Z) : - 2 ^ 31 <= z < 2 ^ 31 -> i32 z = z.
Proof. intros H. unfold i32. rewrite Z.mod_small by lia. lia. Qed.

Lemma i32_range (z : Z) : - 2 ^ 31 <= i32 z < 2 ^ 31.
Proof.
  unfold i32. pose proof (Z.mod_pos_bound (z + 2 ^ 31) (2 ^ 32) ltac:(lia)). lia.
Qed.

Lemma i32_add (a b : Z) : i32 (i32 a + b) = i32 (a + b).
Proof.
  unfold i32.
  replace ((a + 2 ^ 31) mod 2 ^ 32 - 2 ^ 31 + b + 2 ^ 31)
    with ((a + 2 ^ 31) mod 2 ^ 32 + b) by lia.
  rewrite Zplus_mod_idemp_l. f_equal. f_equal. lia.
Qed.

Lemma on_execution_position (x : Execution.t) (m m' : OrderManager)
    (s : string) :
  Manager.on_execution x m = inr m' ->
  Position.quantity (Manager.get_position s m') =
    i32 (Position.quantity (Manager.get_position s m) + signed_quantity s x)
  \/ (Execution.symbol x <> s /\
      Manager.get_position s m' = Manager.get_position s m).
Proof.
  unfold Manager.on_execution, Manager.update_position, Manager.get_position,
         signed_quantity.
  destruct (Execution.side x) as [sd|] eqn:Es; [|discriminate].
  intros H. inversion H; subst m'. clear H. simpl.
  destruct (decide (Execution.symbol x = s)) as [E|E].
  - left. rewrite E, lookup_insert_eq, bool_decide_eq_true_2 by reflexivity.
    simpl. destruct (positions_ m !! s) as [p|]; destruct sd; simpl;
      f_equal; lia.
  - right. split; [exact E|]. rewrite lookup_insert_ne by exact E. reflexivity.
Qed.

(** X14.  After the executions [xs] were delivered to [on_execution], the
    quantity of the position of every symbol is its quantity before plus
    the quantities bought and minus the quantities sold in that symbol,
    wrapped to 32 bits; the engine, the active orders, the limits and the
    P&L counters are as before. *)
Theorem deliver_position (xs : list Execution.t) (m m' : OrderManager)
    (s : string) :
  Manager.deliver xs m = inr m' ->
  - 2 ^ 31 <= Position.quantity (Manager.get_position s m) < 2 ^ 31 ->
  Position.quantity (Manager.get_position s m') =
    i32 (Position.quantity (Manager.get_position s m) + position_delta s xs) /\
  matching_engine_ m' = matching_engine_ m /\
  active_orders_ m' = active_orders_ m /\
  risk_limits_ m' = risk_limits_ m /\
  daily_pnl_ m' = daily_pnl_ m /\ max_drawdown_ m' = max_drawdown_ m.
Proof.
  revert m. induction xs as [|x xs IH]; intros m H Hr; simpl in H.
  - inversion H; subst m'. simpl. rewrite Z.add_0_r, i32_small by exact Hr.
    repeat split.
  - apply bind_inr in H as (m1 & H1 & H).
    assert (Hrest : matching_engine_ m1 = matching_engine_ m /\
                    active_orders_ m1 = active_orders_ m /\
                    risk_limits_ m1 = risk_limits_ m /\
                    daily_pnl_ m1 = daily_pnl_ m /\
                    max_drawdown_ m1 = max_drawdown_ m).
    { unfold Manager.on_execution, Manager.update_position in H1.
      destruct (Execution.side x); [|discriminate].
      inversion H1. repeat split. }
    destruct Hrest as (R1 & R2 & R3 & R4 & R5).
    assert (Hq1 : Position.quantity (Manager.get_position s m1) =
                  i32 (Position.quantity (Manager.get_position s m)
                       + signed_quantity s x)).
    { destruct (on_execution_position x m m1 s H1) as [Hq|[Hne Hq]];
        [exact Hq|].
      rewrite Hq. unfold signed_quantity.
      rewrite bool_decide_eq_false_2 by exact Hne.
      rewrite Z.add_0_r, i32_small by exact Hr. reflexivity. }
    destruct (IH m1 H) as (Hq & E1 & E2 & E3 & E4 & E5).
    { rewrite Hq1. apply i32_range. }
    rewrite Hq, Hq1, i32_add. simpl position_delta.
    split; [f_equal; lia|]. repeat split; congruence.
Qed.

Lemma deliver_position_witness :
  exists m',
    Manager.deliver [bought; sold; bought] manager_test_limits = inr m' /\
    - 2 ^ 31 <= Position.quantity (Manager.get_position "AAPL" manager_test_limits)
      < 2 ^ 31 /\
    Position.quantity (Manager.get_position "AAPL" m') = 100.
Proof.
  assert (Hr : - 2 ^ 31 <=
               Position.quantity (Manager.get_position "AAPL" manager_test_limits)
               < 2 ^ 31)
    by (vm_compute; split; [discriminate | reflexivity]).
  eexists. split; [reflexivity|]. split; [exact Hr|].
  exact (proj1 (deliver_position [bought; sold; bought] manager_test_limits _
                  "AAPL" eq_refl Hr)).
Defined.

Lemma total_pnl_zero (m : OrderManager) :
  pnl_free m -> Manager.get_total_pnl m = 0%Q.
Proof.
  unfold pnl_free, Manager.get_total_pnl.
  generalize (positions_ m). intros ps.
  apply (map_fold_weak_ind
           (fun r (ps : gmap string Position.t) =>
              (forall s p, ps !! s = Some p ->
                 Position.realized_pnl p = 0%Q /\ Position.unrealized_pnl p = 0%Q) ->
              r = 0%Q)).
  - reflexivity.
  - intros i x ps' r Hnone IH Hall.
    destruct (Hall i x (lookup_insert_eq _ _ _)) as [-> ->].
    assert (Hr : r = 0%Q).
    { apply IH. intros s p Hs. apply (Hall s p).
      rewrite lookup_insert_ne; [exact Hs|].
      intros ->. rewrite Hnone in Hs. discriminate. }
    rewrite Hr. reflexivity.
Qed.

(** X15.  No execution ever gives a position a profit or a loss: when no
    position carries one before the executions [xs] are delivered, none
    does afterwards, and [get_total_pnl] returns 0. *)
Theorem deliver_pnl_free (xs : list Execution.t) (m m' : OrderManager) :
  pnl_free m -> Manager.deliver xs m = inr m' ->
  pnl_free m' /\ Manager.get_total_pnl m' = 0%Q.
Proof.
  intros Hp H. assert (Hp' : pnl_free m').
  { revert m Hp H. induction xs as [|x xs IH]; intros m Hp H; simpl in H.
    - inversion H; subst. exact Hp.
    - apply bind_inr in H as (m1 & H1 & H). apply (IH m1); [|exact H].
      unfold Manager.on_execution, Manager.update_position in H1.
      destruct (Execution.side x); [|discriminate].
      inversion H1; subst m1. clear H1. intros s p Hs. simpl in Hs.
      destruct (decide (Execution.symbol x = s)) as [E|E].
      + rewrite E, lookup_insert_eq in Hs. inversion Hs; subst p. simpl.
        destruct (positions_ m !! s) as [p0|] eqn:E0; simpl.
        * exact (Hp _ _ E0).
        * split; reflexivity.
      + rewrite lookup_insert_ne in Hs by exact E. exact (Hp s p Hs). }
  split; [exact Hp' | exact (total_pnl_zero m' Hp')].
Qed.

Lemma deliver_pnl_free_witness :
  exists m',
    pnl_free manager_test_limits /\
    Manager.deliver [bought; sold] manager_test_limits = inr m' /\
    Manager.get_total_pnl m' = 0%Q.
Proof.
  assert (Hp : pnl_free manager_test_limits).
  { intros s p H. simpl in H. rewrite lookup_empty in H. discriminate. }
  eexists. split; [exact Hp|]. split; [reflexivity|].
  exact (proj2 (deliver_pnl_free [bought; sold] manager_test_limits _ Hp eq_refl)).
Defined.

(** ** The active-order index *)

Lemma active_order_insert (t t' : string) (i : Z) (m : OrderManager)
    (index : gmap string (gmap Z Order.t)) (orders : gmap Z Order.t) :
  active_order t' i (set_active (<[t := orders]> index) m) =
  if bool_decide (t = t') then orders !! i
  else match index !! t' with
       | Some os => os !! i
       | None => None
       end.
Proof.
  unfold active_order. simpl. case_bool_decide as E.
  - subst t'. rewrite lookup_insert_eq. reflexivity.
  - rewrite lookup_insert_ne by exact E. reflexivity.
Qed.

(** X16.  When the risk checks pass and the id counter does not wrap,
    [place_order] returns the next order id, which is positive, queues the
    order stamped with that id, and files the order as the caller passed it
    under its trader and the new id; the entries of other traders and ids,
    the books and the positions are unchanged.  [on_order_status] for the
    stamped order then replaces the entry with the stamped order. *)
Theorem place_order_accepted (o : Order.t) (m : OrderManager) :
  Manager.check_risk_limits o m = true ->
  0 <= order_id_counter_ (matching_engine_ m) ->
  order_id_counter_ (matching_engine_ m) + 1 < 2 ^ 64 ->
  let n := order_id_counter_ (matching_engine_ m) + 1 in
  let m' := (Manager.place_order o m).2 in
  (Manager.place_order o m).1 = n /\ 0 < n /\
  order_queue_ (matching_engine_ m') =
    order_queue_ (matching_engine_ m) ++ [Order.with_id n o] /\
  active_order (Order.trader_id o) n m' = Some o /\
  (forall t i, (t, i) <> (Order.trader_id o, n) ->
     active_order t i m' = active_order t i m) /\
  order_books_ (matching_engine_ m') = order_books_ (matching_engine_ m) /\
  positions_ m' = positions_ m /\
  active_order (Order.trader_id o) n
    (Manager.on_order_status (Order.with_id n o) m') = Some (Order.with_id n o).
Proof.
  intros Hc H0 H1 n m'.
  destruct (submit_order_next o (matching_engine_ m) H0 H1) as (Hn & _ & Hq & Hb).
  assert (Hpos : (0 <? n) = true) by (apply Z.ltb_lt; unfold n; lia).
  unfold m', Manager.place_order. rewrite Hc. cbn [negb].
  destruct (submit_order o (matching_engine_ m)) as [k e1] eqn:E.
  simpl in Hn, Hq, Hb. subst k. fold n. rewrite Hpos. cbn [fst snd].
  split; [reflexivity|]. split; [unfold n; lia|].
  split; [exact Hq|]. split; [|split; [|split; [exact Hb|split; [reflexivity|]]]].
  - rewrite active_order_insert, bool_decide_eq_true_2 by reflexivity.
    apply lookup_insert_eq.
  - intros t i Hne. rewrite active_order_insert. case_bool_decide as Et.
    + subst t. rewrite lookup_insert_ne by congruence.
      unfold active_order. simpl.
      destruct (active_orders_ m !! Order.trader_id o); [reflexivity|].
      apply lookup_empty.
    + reflexivity.
  - unfold Manager.on_order_status.
    rewrite active_order_insert, bool_decide_eq_true_2 by reflexivity.
    simpl. rewrite lookup_insert_eq. simpl.
    rewrite lookup_alter_eq, lookup_insert_eq. reflexivity.
Qed.

Lemma place_order_accepted_witness :
  Manager.check_risk_limits (limit_order BUY 150 50 "T1") manager_small = true /\
  (Manager.place_order (limit_order BUY 150 50 "T1") manager_small).1 = 1.
Proof.
  split; [reflexivity|].
  refine (proj1 (place_order_accepted (limit_order BUY 150 50 "T1") manager_small
                   eq_refl _ _)).
  - vm_compute. discriminate.
  - vm_compute. reflexivity.
Defined.

Lemma engine_cancel_order_false (i : Z) (t : string) (e : MatchingEngine) :
  (Engine.cancel_order i t e).1 = false -> (Engine.cancel_order i t e).2 = e.
Proof.
  unfold Engine.cancel_order. rewrite drain_cancel_spec. simpl.
  intros H. rewrite filter_no_match by exact H. apply set_queue_same.
Qed.

(** X17.  [OrderManager::cancel_order] that returns [false] leaves the
    manager as it was.  When it returns [true] the entry of that trader and
    id is gone from the active-order index, every other entry is as
    before, and the positions and the books are unchanged. *)
Theorem manager_cancel_order_index (i : Z) (t : string) (m : OrderManager) :
  ((Manager.cancel_order i t m).1 = false -> (Manager.cancel_order i t m).2 = m) /\
  ((Manager.cancel_order i t m).1 = true ->
   active_order t i (Manager.cancel_order i t m).2 = None /\
   forall t' j, (t', j) <> (t, i) ->
     active_order t' j (Manager.cancel_order i t m).2 = active_order t' j m) /\
  positions_ (Manager.cancel_order i t m).2 = positions_ m /\
  order_books_ (matching_engine_ (Manager.cancel_order i t m).2)
    = order_books_ (matching_engine_ m).
Proof.
  unfold Manager.cancel_order.
  pose proof (engine_cancel_order_false i t (matching_engine_ m)) as Hfalse.
  assert (Hbooks : order_books_ (Engine.cancel_order i t (matching_engine_ m)).2
                   = order_books_ (matching_engine_ m)).
  { unfold Engine.cancel_order. rewrite drain_cancel_spec. reflexivity. }
  destruct (Engine.cancel_order i t (matching_engine_ m)) as [[|] e] eqn:E;
    simpl in *.
  - split; [discriminate|]. split; [|split; [reflexivity | exact Hbooks]].
    intros _. split.
    + rewrite active_order_insert, bool_decide_eq_true_2 by reflexivity.
      apply lookup_delete_eq.
    + intros t' j Hne. rewrite active_order_insert. case_bool_decide as Et.
      * subst t'. rewrite lookup_delete_ne by congruence.
        unfold active_order.
        destruct (active_orders_ m !! t); [reflexivity | apply lookup_empty].
      * reflexivity.
  - split; [|split; [discriminate | split; [reflexivity | exact Hbooks]]].
    intros _. rewrite (Hfalse eq_refl). destruct m; reflexivity.
Qed.

Lemma manager_cancel_order_index_witness :
  (Manager.cancel_order 9 "T1" manager_small).1 = false /\
  (Manager.cancel_order 9 "T1" manager_small).2 = manager_small.
Proof.
  split; [reflexivity|].
  exact (proj1 (manager_cancel_order_index 9 "T1" manager_small) eq_refl).
Defined.

(** ** The position limit in 32 bits *)

(** X18.  For a buy order [check_position_limits] compares the position
    after the fill with [max_order_size] as long as their sum fits in
    [int32_t].  When the sum is between 2^31 and 2^32 it is read back as a
    negative number, and the check passes exactly when 2^32 minus the sum is
    at most [max_order_size]: an order of 2^32 - 1 units passes any limit of
    at least 1. *)
Theorem check_position_limits_wraps (o : Order.t) (m : OrderManager) :
  Order.side o = BUY ->
  let n := Position.quantity (Manager.get_position (Order.symbol o) m)
           + Order.quantity o in
  (0 <= n < 2 ^ 31 ->
   Manager.check_position_limits o m =
     (n <=? RiskLimits.max_order_size (risk_limits_ m))) /\
  (2 ^ 31 <= n < 2 ^ 32 ->
   Manager.check_position_limits o m =
     (2 ^ 32 - n <=? RiskLimits.max_order_size (risk_limits_ m))).
Proof.
  intros Hs n. unfold Manager.check_position_limits. rewrite Hs. fold n. split.
  - intros Hn. rewrite i32_small by lia. rewrite Z.abs_eq by lia. reflexivity.
  - intros Hn. assert (Hw : i32 n = n - 2 ^ 32).
    { unfold i32. replace (n + 2 ^ 31) with ((n - 2 ^ 31) + 1 * 2 ^ 32) by lia.
      rewrite Z.mod_add by lia. rewrite Z.mod_small by lia. lia. }
    rewrite Hw, Z.abs_neq by lia. f_equal. lia.
Qed.

Lemma check_position_limits_wraps_witness :
  Order.side (limit_order BUY 150 (2 ^ 32 - 1) "T1") = BUY /\
  Manager.check_risk_limits (limit_order BUY 150 (2 ^ 32 - 1) "T1") new_manager
    = true /\
  (Manager.place_order (limit_order BUY 150 (2 ^ 32 - 1) "T1") new_manager).1 = 1.
Proof.
  split; [reflexivity|].
  assert (H : Manager.check_position_limits
                (limit_order BUY 150 (2 ^ 32 - 1) "T1") new_manager = true).
  { rewrite (proj2 (check_position_limits_wraps
                      (limit_order BUY 150 (2 ^ 32 - 1) "T1") new_manager eq_refl)).
    - reflexivity.
    - vm_compute. split; [discriminate | reflexivity]. }
  unfold Manager.check_risk_limits, Manager.place_order.
  unfold Manager.check_risk_limits. rewrite H. split; reflexivity.
Defined.

(** ** MarketDataFeed *)



Lemma set_last_price_view (b : OrderBook) (p : Q) :
  book_view b ->
  Qltb 0 (best_bid_ b) && Qltb 0 (best_ask_ b) = true ->
  set_last_price p b = inr b.
Proof.
  intros [Hf _ _ [Hcb Hca] Hm] E. pose proof (Hm E) as Hl.
  unfold set_last_price. rewrite lock_free by exact Hf. cbn [bind ret].
  destruct b as [sym B A mu last bb ba sq]. simpl in *. subst mu bb ba.
  unfold unlock, update_best_prices, set_last, set_mutex. simpl.
  rewrite E, <- Hl. reflexivity.
Qed.

(** X20.  After [MarketDataFeed::add_symbol] seeded a new symbol at a
    positive price, [update_price] for that symbol returns the map
    unchanged whatever price it is given; for a symbol without a book it
    returns the map unchanged too. *)
Theorem feed_update_price_ignored (s : string) (p q : Q)
    (books books' : gmap string OrderBook) :
  books !! s = None -> (0 < p)%Q ->
  Feed.add_symbol s p books = inr books' ->
  Feed.update_price s q books' = inr books' /\
  Feed.update_price s q books = inr books.
Proof.
  intros Hnone Hp Hadd. split; [|unfold Feed.update_price; rewrite Hnone; reflexivity].
  assert (Hb : Qltb 0 p = true) by (apply Qltb_true; exact Hp).
  assert (Ha : Qltb 0 (p + (1 # 100)) = true) by (apply Qltb_true; lra).
  unfold Feed.add_symbol, Feed.book_of in Hadd. rewrite Hnone in Hadd.
  rewrite lookup_insert_eq in Hadd. cbn [default from_option id] in Hadd. unfold id in Hadd.
  destruct (add_order (Order.mk 0 s BUY LIMIT p 1000 0 PENDING "MARKET_MAKER")
                      (new_book s)) as [f|b1] eqn:E1; [discriminate|].
  cbn [bind] in Hadd. rewrite lookup_insert_eq in Hadd. cbn [default from_option id] in Hadd. unfold id in Hadd.
  destruct (add_order
              (Order.mk 0 s SELL LIMIT (p + (1 # 100)) 1000 0 PENDING "MARKET_MAKER")
              b1) as [f|b2] eqn:E2; [discriminate|].
  cbn [bind ret] in Hadd. inversion Hadd; subst books'. clear Hadd.
  assert (Hr : reachable b2).
  { eapply reach_add_order; [|exact E2].
    eapply reach_add_order; [apply reach_new | exact E1]. }
  assert (Hq : Qltb 0 (best_bid_ b2) && Qltb 0 (best_ask_ b2) = true).
  { unfold add_order in E1. rewrite lock_free in E1 by reflexivity.
    cbn [bind ret] in E1. inversion E1; subst b1. clear E1.
    unfold add_order in E2. rewrite lock_free in E2 by reflexivity.
    cbn [bind ret] in E2. inversion E2; subst b2. cbn. rewrite Hb, Ha.
    reflexivity. }
  unfold Feed.update_price. rewrite lookup_insert_eq.
  rewrite (set_last_price_view b2 q (reachable_view b2 Hr) Hq). cbn [bind ret].
  rewrite insert_insert_eq. reflexivity.
Qed.

Lemma feed_update_price_ignored_witness :
  exists books',
    (∅ : gmap string OrderBook) !! "AAPL" = None /\ (0 < 150)%Q /\
    Feed.add_symbol "AAPL" 150 ∅ = inr books' /\
    Feed.update_price "AAPL" 99 books' = inr books'.
Proof.
  assert (Hnone : (∅ : gmap string OrderBook) !! "AAPL" = None) by reflexivity.
  eexists. split; [exact Hnone|]. split; [reflexivity|]. split; [reflexivity|].
  exact (proj1 (feed_update_price_ignored "AAPL" 150 99 ∅ _ Hnone eq_refl eq_refl)).
Defined.

(** ** Synthetic orders and market orders *)

(** X21.  [process_market_order] removes the matched order with
    [cancel_order], which reads the bids before the asks.  When a resting
    bid carries the id of the first order of the best ask level, as every
    order placed by [add_limit_order] does with id 0, a market buy emits
    its execution at the best ask and removes that bid; the asks are left
    as they were. *)
Theorem market_buy_removes_bid (o : Order.t) (e : MatchingEngine)
    (b : OrderBook) (ka : Q) (la : PriceLevel.t) (A B' : levels)
    (oa x : Order.t) (ra : list Order.t) :
  order_books_ e !! Order.symbol o = Some b -> book_mutex_ b = false ->
  Order.side o = BUY -> Qltb 0 (best_ask_ b) = true ->
  asks_ b = (ka, la) :: A -> PriceLevel.orders la = oa :: ra ->
  0 < Z.min (Order.quantity o) (PriceLevel.total_quantity la) ->
  remove_resting (Order.id oa) (bids_ b) = Some (x, B') ->
  exists e' ex b',
    process_market_order o e = inr (e', [ex]) /\
    order_books_ e' !! Order.symbol o = Some b' /\
    Execution.price ex = best_ask_ b /\
    bids_ b' = B' /\ asks_ b' = asks_ b.
Proof.
  intros Hlk Hf Hs Hpos EA Eoa Hq Hrm.
  destruct (getters_free b Hf) as (_ & Ga & _ & Gal).
  unfold process_market_order, get_order_book. rewrite Hlk, Hs, Ga. cbn [bind].
  rewrite Hpos, Gal, EA. cbn [bind]. rewrite first_level. cbn [snd].
  apply Z.ltb_lt in Hq. rewrite Hq. cbn [generate_execution_id]. rewrite Eoa.
  destruct (cancel_order_facts (Order.id oa) b Hf) as (b1 & C1 & _ & _ & F1).
  rewrite Hrm in F1. destruct F1 as (EB1 & EA1 & _).
  rewrite C1. cbn [bind ret].
  eexists _, _, b1. split; [reflexivity|]. split; [apply lookup_insert_eq|].
  split; [reflexivity|]. split; [exact EB1 | rewrite EA1, EA; reflexivity].
Qed.

Lemma market_buy_removes_bid_witness :
  exists e' ex b',
    process_market_order (Order.with_id 1 (market_order BUY 10 "T1"))
      (put_order_book "AAPL" synthetic_book new_engine) = inr (e', [ex]) /\
    order_books_ e' !! "AAPL" = Some b' /\
    Execution.price ex = 101%Q /\ bids_ b' = [] /\ map fst (asks_ b') = [101%Q].
Proof.
  destruct (market_buy_removes_bid (Order.with_id 1 (market_order BUY 10 "T1"))
              (put_order_book "AAPL" synthetic_book new_engine) synthetic_book
              101 (PriceLevel.mk 101 10 [Order.mk 0 "AAPL" SELL LIMIT 101 10 0 PENDING "SIM"])
              [] []
              (Order.mk 0 "AAPL" SELL LIMIT 101 10 0 PENDING "SIM")
              (Order.mk 0 "AAPL" BUY LIMIT 99 10 0 PENDING "SIM") [])
    as (e' & ex & b' & Hp & Hlk & Hpr & HB & HA);
    try reflexivity.
  exists e', ex, b'. split; [exact Hp|]. split; [exact Hlk|].
  split; [exact Hpr|]. split; [exact HB|]. rewrite HA. reflexivity.
Defined.
